(** * Token discovery pipeline: poller, webhook, subscription manager, chart buffer

    A shallow embedding of
      - [scripts/mobula-poller.ts]        (module [Poller]),
      - [app/api/broadcast/route.ts]      (module [Webhook]),
      - [hooks/use-pusher-updates.ts]     (module [Subscription]),
      - [hooks/use-live-chart-data.ts]    (module [Chart]),
    together with the properties of the specification that concern them.

    Conventions.  A JavaScript property that may be absent is an [option];
    [a || b] is written out with JavaScript truthiness (the empty string and
    the number zero are falsy).  Numbers of the server side are exact
    rationals ([Q]); the chart code, which calls [Math.sin], is modelled over
    an extension of the real numbers with NaN and the two infinities, in
    which a result beyond the range of the doubles is an infinity and
    [parseInt] rounds to the nearest double.  Rounding of the arithmetic
    within that range is not modelled.  The members of a webhook body are
    typed as the provider's payload types them.  Values the code reads from its
    environment ([Date.now()], [Math.random()], the outcome of a network
    call) are explicit arguments. *)

From Stdlib Require Import ZArith QArith Qround List String Ascii Lia Bool Reals Lra.
From stdpp Require Import base gmap sets strings list pretty.
From Stdlib Require Lqa.
Import ListNotations.

Open Scope string_scope.

(** ** JavaScript helpers *)

Module Js.

(** The empty string is the only falsy string. *)
Definition truthy_str (s : string) : bool := negb (String.eqb s EmptyString).

(** [a || b] on values of type [string | undefined]. *)
Definition or_str (a b : option string) : option string :=
  match a with
  | Some s => if truthy_str s then Some s else b
  | None => b
  end.

(** [a || d] where [d] is a string literal. *)
Definition or_str_default (a : option string) (d : string) : string :=
  match a with
  | Some s => if truthy_str s then s else d
  | None => d
  end.

(** [!x] for [x : string | undefined]. *)
Definition falsy_opt_str (a : option string) : bool :=
  match a with
  | Some s => negb (truthy_str s)
  | None => true
  end.

(** [0] is the only falsy rational (NaN does not occur in [Q]). *)
Definition truthy_num (q : Q) : bool := negb (Qeq_bool q 0).

(** [a || b] on values of type [number | undefined]. *)
Definition or_num (a b : option Q) : option Q :=
  match a with
  | Some q => if truthy_num q then Some q else b
  | None => b
  end.

(** [a || d] where [d] is a number. *)
Definition or_num_default (a : option Q) (d : Q) : Q :=
  match a with
  | Some q => if truthy_num q then q else d
  | None => d
  end.

(** [String.prototype.toUpperCase] on the ASCII letters. *)
Definition upper_ascii (c : ascii) : ascii :=
  let n := nat_of_ascii c in
  if (97 <=? n)%nat && (n <=? 122)%nat then ascii_of_nat (n - 32) else c.

Fixpoint toUpperCase (s : string) : string :=
  match s with
  | EmptyString => EmptyString
  | String c r => String (upper_ascii c) (toUpperCase r)
  end.

(** [Math.floor(Math.random() * 10000)] for a draw [r] of [Math.random()]. *)
Definition random_holders (r : Q) : Q := inject_Z (Qfloor (r * 10000)).

(** Exceptions: a computation either returns or throws. *)
Inductive result (A : Type) : Type :=
| Ok (a : A)
| Throw.
Arguments Ok {A} a.
Arguments Throw {A}.

Definition bind {A B} (m : result A) (k : A -> result B) : result B :=
  match m with
  | Ok a => k a
  | Throw => Throw
  end.

(** [try { body } catch (error) { handler }]; no handler of the code looks
    at the error value. *)
Definition try_catch {A} (body handler : result A) : result A :=
  match body with
  | Ok a => Ok a
  | Throw => handler
  end.

(** [xs.map(f)] where [f] may throw. *)
Fixpoint map_throw {A B} (f : A -> result B) (xs : list A) : result (list B) :=
  match xs with
  | [] => Ok []
  | x :: r => bind (f x) (fun y => bind (map_throw f r) (fun ys => Ok (y :: ys)))
  end.

(** [xs.map((x, i) => f(i, x))] with the index made explicit. *)
Fixpoint mapi_throw_from {A B} (i : nat) (f : nat -> A -> result B) (xs : list A)
  : result (list B) :=
  match xs with
  | [] => Ok []
  | x :: r =>
      bind (f i x) (fun y => bind (mapi_throw_from (S i) f r) (fun ys => Ok (y :: ys)))
  end.

End Js.

(** ** The canonical instrument and the broker *)

(** The object literal both producers hand to [pusher.trigger]. *)
Record Token := {
  id : string;
  symbol : string;
  name : string;
  price : Q;
  priceChange24h : Q;
  volume24h : Q;
  marketCap : Q;
  liquidity : Q;
  holders : Q;
  chain : string;
  logo : string;
  category : string
}.

(** One call [pusher.trigger(channel, event, payload)]. *)
Record Trigger := {
  channel : string;
  event : string;
  payload : Token
}.

(** The identifiers published under ['token.created'] on channel ['pulse']. *)
Definition is_token_created (t : Trigger) : bool :=
  String.eqb (channel t) "pulse" && String.eqb (event t) "token.created".

Definition published_ids (log : list Trigger) : list string :=
  map (fun t => id (payload t)) (List.filter is_token_created log).

(** How often identifier [x] was published. *)
Definition times_published (x : string) (log : list Trigger) : nat :=
  count_occ string_dec (published_ids log) x.

(** ** The polling source adapter and its dedup filter ([mobula-poller.ts]) *)

Module Poller.
Import Js.
Local Open Scope Q_scope.

Definition BLOCKCHAIN : string := "solana".

(** [interface MobulaToken]: every field is optional. *)
Record MobulaToken := {
  m_id : option string;
  m_address : option string;
  m_symbol : option string;
  m_name : option string;
  m_price : option Q;
  m_priceChange24h : option Q;
  m_volume : option Q;
  m_volume24h : option Q;
  m_marketCap : option Q;
  m_market_cap : option Q;
  m_liquidity : option Q;
  m_holders : option Q;
  m_blockchain : option string;
  m_logo : option string;
  m_image : option string;
  m_createdAt : option string
}.

(** *** Provider responses *)

(** What [await fetch(url)] followed by [response.json()] can produce:
    [fetch] may reject; otherwise there is a status ([response.ok] is
    [200 <= status <= 299]) and a body whose parsing may reject. *)
Record Response (D : Type) := {
  status : Z;
  json : result D
}.
Arguments status {D} _.
Arguments json {D} _.

Definition ok {D} (r : Response D) : bool :=
  (200 <=? status r)%Z && (status r <=? 299)%Z.

(** The part of a DEXScreener pair that the adapter reads.  A nested object
    that is read with [?.] is an [option]. *)
Record BaseToken := {
  bt_address : option string;
  bt_symbol : option string;
  bt_name : option string
}.

Record DexPair := {
  pairAddress : option string;
  baseToken : option BaseToken;
  priceUsd : option string;
  priceChange_h24 : option Q;
  volume_h24 : option Q;
  liquidity_usd : option Q;
  fdv : option Q;
  info_imageUrl : option string;
  pairCreatedAt : option string
}.

(** The body of the DEXScreener answer, when it is an object; an element
    [None] of [pairs] is a [null] entry, on which reading [.pairAddress]
    throws. *)
Record DexObject := {
  pairs : option (list (option DexPair))
}.

(** [None] is a body on which reading [.pairs] throws ([null]). *)
Definition DexBody := option DexObject.

Record Coin := {
  c_id : option string;
  c_symbol : option string;
  c_name : option string;
  current_price : option Q;
  price_change_percentage_24h : option Q;
  total_volume : option Q;
  c_market_cap : option Q;
  c_image : option string
}.

(** The body of the CoinGecko answer: [None] is a body that is no array
    (calling [.map] throws); a [None] element is a [null] entry. *)
Definition GeckoBody := option (list (option Coin)).

Section Fetch.

(** [parseFloat] of the JavaScript library.  [None] is NaN, which every
    later reader of the field treats like an absent value
    ([token.price || 0]). *)
Variable parseFloat : string -> option Q.

(** The arrow function of [pairs.slice(0, 20).map(...)], lines 77-90. *)
Definition of_pair (p : option DexPair) : result MobulaToken :=
  match p with
  | None => Throw
  | Some dp =>
      Ok {| m_id := pairAddress dp;
            m_address := match baseToken dp with Some b => bt_address b | None => None end;
            m_symbol := match baseToken dp with Some b => bt_symbol b | None => None end;
            m_name := match baseToken dp with Some b => bt_name b | None => None end;
            m_price := match priceUsd dp with
                       | Some s => if truthy_str s then parseFloat s else Some 0
                       | None => Some 0
                       end;
            m_priceChange24h := Some (or_num_default (priceChange_h24 dp) 0);
            m_volume := None;
            m_volume24h := Some (or_num_default (volume_h24 dp) 0);
            m_marketCap := Some (or_num_default (fdv dp) 0);
            m_market_cap := None;
            m_liquidity := Some (or_num_default (liquidity_usd dp) 0);
            m_holders := None;
            m_blockchain := Some "solana";
            m_logo := info_imageUrl dp;
            m_image := None;
            m_createdAt := pairCreatedAt dp |}
  end.

(** The arrow function of [data.map(...)], lines 122-136; [rnd] is the
    draw of [Math.random()] and [iso] the rendering of [new Date()]. *)
Definition of_coin (iso : string) (rnd : nat -> Q) (i : nat) (c : option Coin)
  : result MobulaToken :=
  match c with
  | None => Throw
  | Some coin =>
      Ok {| m_id := c_id coin;
            m_address := c_id coin;
            m_symbol := c_symbol coin;
            m_name := c_name coin;
            m_price := Some (or_num_default (current_price coin) 0);
            m_priceChange24h := Some (or_num_default (price_change_percentage_24h coin) 0);
            m_volume := None;
            m_volume24h := Some (or_num_default (total_volume coin) 0);
            m_marketCap := Some (or_num_default (c_market_cap coin) 0);
            m_market_cap := None;
            m_liquidity := Some (or_num_default (total_volume coin) 0 * (3 # 10));
            m_holders := Some (random_holders (rnd i));
            m_blockchain := Some "ethereum";
            m_logo := c_image coin;
            m_image := None;
            m_createdAt := Some iso |}
  end.

(** [fetchFromCoinGecko], lines 102-141.  [gecko] is the outcome of the
    [fetch] call. *)
Definition fetchFromCoinGecko (iso : string) (rnd : nat -> Q)
    (gecko : result (Response GeckoBody)) : result (list MobulaToken) :=
  try_catch
    (bind gecko (fun response =>
       if negb (ok response) then Ok []
       else
         bind (json response) (fun data =>
           match data with
           | None => Throw
           | Some coins => mapi_throw_from 0%nat (of_coin iso rnd) coins
           end)))
    (Ok []).

(** [fetchNewlyCreatedTokens], lines 55-100.  [dex] is the outcome of the
    DEXScreener [fetch]; [gecko] that of the CoinGecko one, which is
    issued at most once per call (the fallback never throws, so the
    [catch] block is not entered after the fall-through call). *)
Definition fetchNewlyCreatedTokens (iso : string) (rnd : nat -> Q)
    (dex : result (Response DexBody)) (gecko : result (Response GeckoBody))
  : result (list MobulaToken) :=
  try_catch
    (bind dex (fun response =>
       bind (if ok response
             then bind (json response) (fun data =>
                    match data with
                    | None => Throw
                    | Some d =>
                        let pairs := match pairs d with Some l => l | None => [] end in
                        if (0 <? length pairs)%nat
                        then bind (map_throw of_pair (firstn 20%nat pairs))
                                  (fun l => Ok (Some l))
                        else Ok None
                    end)
             else Ok None)
            (fun returned =>
               match returned with
               | Some l => Ok l
               | None => fetchFromCoinGecko iso rnd gecko
               end)))
    (fetchFromCoinGecko iso rnd gecko).

End Fetch.

(** *** Broadcasting and the dedup filter *)

(** [broadcastNewToken], lines 143-172: the object handed to
    [pusher.trigger('pulse', 'token.created', ...)].  [now] is [Date.now()]
    and [rnd] the draw of [Math.random()].  A rejected [trigger] is caught
    and logged, so the caller sees no difference. *)
Definition formattedToken (now : Z) (rnd : Q) (token : MobulaToken) : Token :=
  {| id := match or_str (m_id token) (m_address token) with
           | Some s => if truthy_str s then s else pretty now
           | None => pretty now
           end;
     symbol := or_str_default (option_map toUpperCase (m_symbol token)) "UNKNOWN";
     name := or_str_default (m_name token) "New Token";
     price := or_num_default (m_price token) 0;
     priceChange24h := or_num_default (m_priceChange24h token) 0;
     volume24h := or_num_default (or_num (m_volume24h token) (m_volume token)) 0;
     marketCap := or_num_default (or_num (m_marketCap token) (m_market_cap token)) 0;
     liquidity :=
       or_num_default (m_liquidity token)
         (or_num_default (or_num (m_volume24h token) (m_volume token)) 0 * (3 # 10));
     holders := or_num_default (m_holders token) (random_holders rnd);
     chain := or_str_default (m_blockchain token) BLOCKCHAIN;
     logo := or_str_default (or_str (m_logo token) (m_image token)) EmptyString;
     category := "new" |}.

Definition broadcastNewToken (now : Z) (rnd : Q) (token : MobulaToken) : Trigger :=
  {| channel := "pulse"; event := "token.created";
     payload := formattedToken now rnd token |}.

(** The process state: the module-level [seenTokenIds] and, as the
    observable effect, the calls made to [pusher.trigger] so far (oldest
    first). *)
Record State := {
  seenTokenIds : gset string;
  triggers : list Trigger
}.

Definition start : State := {| seenTokenIds := ∅; triggers := [] |}.

(** One iteration of the loop of [pollAndBroadcast], lines 180-199. *)
Definition poll_one (now : Z) (rnd : Q) (st : State) (token : MobulaToken) : State :=
  let tokenId := or_str (m_id token) (m_address token) in
  match tokenId with
  | None => st
  | Some tid =>
      if negb (truthy_str tid) then st
      else if bool_decide (tid ∈ seenTokenIds st) then st
      else {| seenTokenIds := {[ tid ]} ∪ seenTokenIds st;
              triggers := triggers st ++ [broadcastNewToken now rnd token] |}
  end.

(** The loop of [pollAndBroadcast] over the fetched [tokens]; [rnd i] is
    the draw available to the [i]-th token. *)
Fixpoint poll_loop (now : Z) (rnd : nat -> Q) (i : nat) (st : State)
    (tokens : list MobulaToken) : State :=
  match tokens with
  | [] => st
  | token :: rest => poll_loop now rnd (S i) (poll_one now (rnd i) st token) rest
  end.

(** What one poll cycle reads from its environment. *)
Record Cycle := {
  fetched : list MobulaToken;
  cycle_now : Z;
  cycle_rnd : nat -> Q
}.

Definition pollAndBroadcast (st : State) (c : Cycle) : State :=
  poll_loop (cycle_now c) (cycle_rnd c) 0%nat st (fetched c).

(** [initializeSeenTokens], lines 208-225: the startup fetch only fills
    the set. *)
Definition init_one (st : State) (token : MobulaToken) : State :=
  match or_str (m_id token) (m_address token) with
  | None => st
  | Some tid =>
      if truthy_str tid
      then {| seenTokenIds := {[ tid ]} ∪ seenTokenIds st; triggers := triggers st |}
      else st
  end.

Definition initializeSeenTokens (st : State) (initialTokens : list MobulaToken) : State :=
  fold_left init_one initialTokens st.

(** [main]: the startup fetch, then one poll per cycle (the immediate one
    and every firing of the interval timer). *)
Definition main (initialTokens : list MobulaToken) (cycles : list Cycle) : State :=
  fold_left pollAndBroadcast cycles (initializeSeenTokens start initialTokens).

(** [pollAndBroadcast] with its call of the source adapter written out:
    line 177 awaits [fetchNewlyCreatedTokens()] outside of any [try], so a
    throw of the adapter would end the cycle with a rejected promise. *)
Definition pollAndBroadcast_fetching (parseFloat : string -> option Q)
    (iso : string) (fetch_rnd : nat -> Q)
    (dex : result (Response DexBody)) (gecko : result (Response GeckoBody))
    (now : Z) (rnd : nat -> Q) (st : State) : result State :=
  bind (fetchNewlyCreatedTokens parseFloat iso fetch_rnd dex gecko)
       (fun tokens =>
          Ok (pollAndBroadcast st
                {| fetched := tokens; cycle_now := now; cycle_rnd := rnd |})).

End Poller.

(** ** The webhook endpoint ([app/api/broadcast/route.ts]) *)

Module Webhook.
Import Js.
Local Open Scope Q_scope.

(** The provider fields that [POST] reads; a field that is missing from
    the JSON object is [None], fields that [POST] does not read are not
    represented. *)
Record TokenData := {
  d_id : option string;
  d_address : option string;
  d_symbol : option string;
  d_name : option string;
  d_price : option Q;
  d_priceChange24h : option Q;
  d_volume24h : option Q;
  d_volume : option Q;
  d_marketCap : option Q;
  d_market_cap : option Q;
  d_liquidity : option Q;
  d_holders : option Q;
  d_blockchain : option string;
  d_chain : option string;
  d_logo : option string;
  d_image : option string
}.

(** The request body: its [data] member, if any, and the fields of the
    body object itself, which are read when [data] is missing
    ([body.data || body]). *)
Record Body := {
  data : option TokenData;
  top : TokenData
}.

Definition tokenData (body : Body) : TokenData :=
  match data body with
  | Some d => d
  | None => top body
  end.

(** The object literal of lines 39-52. *)
Definition token (now : Z) (rnd : Q) (td : TokenData) : Token :=
  {| id := match or_str (d_id td) (d_address td) with
           | Some s => if truthy_str s then s else pretty now
           | None => pretty now
           end;
     symbol := or_str_default (option_map toUpperCase (d_symbol td)) "UNKNOWN";
     name := or_str_default (d_name td) "New Token";
     price := or_num_default (d_price td) 0;
     priceChange24h := or_num_default (d_priceChange24h td) 0;
     volume24h := or_num_default (or_num (d_volume24h td) (d_volume td)) 0;
     marketCap := or_num_default (or_num (d_marketCap td) (d_market_cap td)) 0;
     liquidity :=
       or_num_default (d_liquidity td) (or_num_default (d_volume24h td) 0 * (3 # 10));
     holders := or_num_default (d_holders td) (random_holders rnd);
     chain := or_str_default (or_str (d_blockchain td) (d_chain td)) "solana";
     logo := or_str_default (or_str (d_logo td) (d_image td)) EmptyString;
     category := "new" |}.

(** What [request.json()] resolves to.  [POST] reads the members of the
    value untyped; they are modelled with the types of the provider's
    payload (strings and numbers, see [TokenData]), and a member that
    holds [null] is as a missing one for every read of [POST].  Two kinds
    of value make [POST] raise before the event is built, and are kept
    apart:
    - [JsonNull], the value [null]: [body.data] raises a TypeError
      (line 36);
    - [SymbolNotString], a value whose [tokenData.symbol] is neither
      missing nor [null] nor a string (a number, a boolean, an array or an
      object): [tokenData.symbol?.toUpperCase] is not a function
      (line 41).
    A value without members (a number, a string, a boolean, an array) is a
    [Members] all of whose members are missing. *)
Inductive Json : Type :=
| JsonNull
| SymbolNotString
| Members (body : Body).

(** Lines 36-52: [tokenData] and the object literal. *)
Definition normalise (now : Z) (rnd : Q) (json : Json) : result Token :=
  match json with
  | JsonNull => Throw
  | SymbolNotString => Throw
  | Members body => Ok (token now rnd (tokenData body))
  end.

(** The JSON answer and its HTTP status. *)
Record HttpResponse := {
  http_status : Z;
  success : bool;
  token_symbol : option string;
  timestamp : option Z
}.

(** [POST], lines 29-72.  [req] is the outcome of [request.json()], [now]
    the clock, [rnd] the draw of [Math.random()] and [trigger_ok] whether
    the broker accepts the call.  The second component lists the calls
    made to [pusher.trigger]: none when [request.json()] or the
    normalisation raised, which the [catch] block answers with 500. *)
Definition POST (req : result Json) (now : Z) (rnd : Q) (trigger_ok : bool)
  : HttpResponse * list Trigger :=
  let failure :=
    {| http_status := 500; success := false; token_symbol := None; timestamp := None |} in
  match bind req (normalise now rnd) with
  | Throw => (failure, [])
  | Ok tk =>
      let call := {| channel := "pulse"; event := "token.created"; payload := tk |} in
      if trigger_ok
      then ({| http_status := 200; success := true;
               token_symbol := Some (symbol tk); timestamp := Some now |}, [call])
      else (failure, [call])
  end.

(** [GET], lines 13-27: the liveness probe. *)
Definition GET (now : Z) : HttpResponse :=
  {| http_status := 200; success := true; token_symbol := None; timestamp := Some now |}.

End Webhook.

(** ** Both producers in front of the one broker *)

Module Pipeline.
Import Js.

(** A candidate enters either through a poll cycle or through a webhook
    request. *)
Inductive Input : Type :=
| PollCycle (c : Poller.Cycle)
| WebhookPost (req : result Webhook.Json) (now : Z) (rnd : Q) (trigger_ok : bool).

(** The state is the poller's; its [triggers] component serves as the log
    of the broker that both producers publish to.  The webhook handler
    runs in another process and has no access to [seenTokenIds]. *)
Definition step (st : Poller.State) (i : Input) : Poller.State :=
  match i with
  | PollCycle c => Poller.pollAndBroadcast st c
  | WebhookPost req now rnd trigger_ok =>
      {| Poller.seenTokenIds := Poller.seenTokenIds st;
         Poller.triggers :=
           Poller.triggers st ++ snd (Webhook.POST req now rnd trigger_ok) |}
  end.

Definition run (initialTokens : list Poller.MobulaToken) (inputs : list Input)
  : Poller.State :=
  fold_left step inputs (Poller.initializeSeenTokens Poller.start initialTokens).

(** How many of the webhook requests among [inputs] published [x]. *)
Fixpoint webhook_publications (x : string) (inputs : list Input) : nat :=
  match inputs with
  | [] => 0
  | PollCycle _ :: r => webhook_publications x r
  | WebhookPost req now rnd trigger_ok :: r =>
      times_published x (snd (Webhook.POST req now rnd trigger_ok))
      + webhook_publications x r
  end.

(** The bound the dedup filter maintains for identifier [x]: one
    publication if [x] has been seen, none otherwise, on top of the [k]
    publications that did not go through the filter. *)
Definition filter_bound (x : string) (k : nat) (st : Poller.State) : Prop :=
  (times_published x (Poller.triggers st)
   <= (if decide (x ∈ Poller.seenTokenIds st) then 1 else 0) + k)%nat.

(** Identifier [x] is in the set and has been published [n] times. *)
Definition suppressed (x : string) (n : nat) (st : Poller.State) : Prop :=
  x ∈ Poller.seenTokenIds st /\ times_published x (Poller.triggers st) = n.

End Pipeline.

(** ** The client-side subscription manager ([hooks/use-pusher-updates.ts]) *)

Module Subscription.
Local Open Scope list_scope.

(** Calls made to the broker client, in order. *)
Inductive Effect : Type :=
| NewPusher                          (* new Pusher(key, options) *)
| ConnectionBind (ev : string)       (* pusherInstance.connection.bind(ev, ...) *)
| Subscribe                          (* pusherInstance.subscribe('pulse') *)
| ChannelBind (ev : string)          (* channelInstance.bind(ev, ...) *)
| ChannelUnbind (ev : string)        (* channelInstance.unbind(ev, handler) *)
| UnbindAll                          (* channelInstance.unbind_all() *)
| Unsubscribe                        (* channelInstance.unsubscribe() *)
| Disconnect.                        (* pusherInstance.disconnect() *)

Definition Effect_eqb (a b : Effect) : bool :=
  match a, b with
  | NewPusher, NewPusher | Subscribe, Subscribe | UnbindAll, UnbindAll
  | Unsubscribe, Unsubscribe | Disconnect, Disconnect => true
  | ConnectionBind x, ConnectionBind y
  | ChannelBind x, ChannelBind y
  | ChannelUnbind x, ChannelUnbind y => String.eqb x y
  | _, _ => false
  end.

(** The module-level variables of lines 15-18, the timeouts that are
    scheduled and have not fired yet, and the calls made so far. *)
Record State := {
  pusherInstance : bool;             (* false is null *)
  channelInstance : bool;            (* false is null *)
  subscriberCount : Z;
  connectionHandlersBound : bool;
  pendingTimeouts : nat;
  effects : list Effect
}.

Definition initial : State :=
  {| pusherInstance := false; channelInstance := false; subscriberCount := 0;
     connectionHandlersBound := false; pendingTimeouts := 0; effects := [] |}.

(** The connection events bound at lines 48-74. *)
Definition connection_events : list string :=
  ["connected"; "connecting"; "disconnected"; "unavailable"; "failed"; "error";
   "state_change"].

(** The effect body, lines 25-117: what a mount of the hook does. *)
Definition acquire (st : State) : State :=
  (* if (!pusherInstance) { ... } *)
  let '(p, bound, e1) :=
    if pusherInstance st then (true, connectionHandlersBound st, [])
    else if connectionHandlersBound st then (true, true, [NewPusher])
    else (true, true, NewPusher :: map ConnectionBind connection_events) in
  (* subscriberCount++ *)
  let n := (subscriberCount st + 1)%Z in
  (* if (!channelInstance) { ... } *)
  let e2 :=
    if channelInstance st then []
    else [Subscribe; ChannelBind "pusher:subscription_succeeded";
          ChannelBind "pusher:subscription_error"] in
  (* channelInstance.bind('token.created', handleNewToken) *)
  {| pusherInstance := p; channelInstance := true; subscriberCount := n;
     connectionHandlersBound := bound; pendingTimeouts := pendingTimeouts st;
     effects := effects st ++ e1 ++ e2 ++ [ChannelBind "token.created"] |}.

(** The cleanup function, lines 120-164, up to the call of [setTimeout].
    It runs once per mount, so [handlerRef.current] is set when it runs. *)
Definition release (st : State) : State :=
  let n := (subscriberCount st - 1)%Z in
  let e := if channelInstance st then [ChannelUnbind "token.created"] else [] in
  {| pusherInstance := pusherInstance st; channelInstance := channelInstance st;
     subscriberCount := n; connectionHandlersBound := connectionHandlersBound st;
     pendingTimeouts := if (n =? 0)%Z then S (pendingTimeouts st) else pendingTimeouts st;
     effects := effects st ++ e |}.

(** The callback handed to [setTimeout], lines 134-162. *)
Definition teardown (st : State) : State :=
  if (subscriberCount st =? 0)%Z then
    let e1 := if channelInstance st && pusherInstance st
              then [UnbindAll; Unsubscribe] else [] in
    let c := if channelInstance st && pusherInstance st
             then false else channelInstance st in
    let e2 := if pusherInstance st then [Disconnect] else [] in
    {| pusherInstance := false; channelInstance := c;
       subscriberCount := subscriberCount st;
       connectionHandlersBound :=
         if pusherInstance st then false else connectionHandlersBound st;
       pendingTimeouts := pendingTimeouts st;
       effects := effects st ++ e1 ++ e2 |}
  else st.

(** A scheduled timeout fires: its grace period of 100 ms has elapsed. *)
Definition fire (st : State) : State :=
  match pendingTimeouts st with
  | O => st
  | S k =>
      let st' := teardown st in
      {| pusherInstance := pusherInstance st'; channelInstance := channelInstance st';
         subscriberCount := subscriberCount st';
         connectionHandlersBound := connectionHandlersBound st';
         pendingTimeouts := k; effects := effects st' |}
  end.

Inductive Event : Type :=
| Acquire          (* a hook mounts *)
| Release          (* a mounted hook unmounts *)
| GraceElapsed.    (* one scheduled timeout fires *)

Definition step (st : State) (e : Event) : State :=
  match e with
  | Acquire => acquire st
  | Release => release st
  | GraceElapsed => fire st
  end.

Definition run (st : State) (tr : list Event) : State := fold_left step tr st.

(** Every timeout that is still scheduled fires. *)
Definition drain (st : State) : State := Nat.iter (pendingTimeouts st) fire st.

Definition count_effect (e : Effect) (st : State) : nat :=
  length (List.filter (Effect_eqb e) (effects st)).

Definition connects (st : State) : nat := count_effect NewPusher st.
Definition disconnects (st : State) : nat := count_effect Disconnect st.

(** A trace React can produce: an unmount follows its mount, so no prefix
    has more releases than acquires; [open] is the number of hooks that
    are mounted when the trace starts. *)
Fixpoint well_bracketed (open : nat) (tr : list Event) : bool :=
  match tr with
  | [] => true
  | Acquire :: r => well_bracketed (S open) r
  | Release :: r => match open with O => false | S k => well_bracketed k r end
  | GraceElapsed :: r => well_bracketed open r
  end.

Definition count_event (e : Event) (tr : list Event) : nat :=
  length (List.filter (fun x => match x, e with
                                | Acquire, Acquire | Release, Release
                                | GraceElapsed, GraceElapsed => true
                                | _, _ => false
                                end) tr).


(** The calls that concern the connection and the subscription, as
    opposed to the per-hook ['token.created'] handlers. *)
Definition lifecycle (e : Effect) : bool :=
  match e with
  | ChannelBind ev | ChannelUnbind ev => negb (String.eqb ev "token.created")
  | _ => true
  end.

Definition lifecycle_log (st : State) : list Effect :=
  List.filter lifecycle (effects st).





End Subscription.

(** ** JavaScript numbers of the chart code *)

Module Num.
Local Open Scope R_scope.

(** A double is NaN, an infinity or a real number.  Rounding within the
    range of the doubles and underflow are not modelled, and the two zeros
    are not told apart: the only divisors of the chart code that can be
    zero, [1 + change24h] and [dataPoints - 1], are the positive zero. *)
Inductive number : Type :=
| NaN
| Inf (negative : bool)
| Fin (r : R).

(** The largest double is 2^1024 - 2^971; a result whose magnitude reaches
    the midpoint between it and 2^1024 is rounded to an infinity. *)
Definition limit_Z : Z := Eval cbv in (2 ^ 1024 - 2 ^ 970)%Z.

Definition limit : R := IZR limit_Z.

(** The double for the result [r] of an operation. *)
Definition fin (r : R) : number :=
  if Rlt_dec (Rabs r) limit then Fin r
  else Inf (if Rlt_dec r 0 then true else false).

(** 10^300: magnitudes up to here leave room for the sums and products of
    the chart code. *)
Definition large_Z : Z := Eval cbv in (10 ^ 300)%Z.

Definition large : R := IZR large_Z.

Definition neg (a : number) : number :=
  match a with
  | NaN => NaN
  | Inf s => Inf (negb s)
  | Fin r => Fin (- r)
  end.

Definition add (a b : number) : number :=
  match a, b with
  | NaN, _ | _, NaN => NaN
  | Inf s, Inf s' => if Bool.eqb s s' then Inf s else NaN
  | Inf s, Fin _ | Fin _, Inf s => Inf s
  | Fin x, Fin y => fin (x + y)
  end.

Definition sub (a b : number) : number := add a (neg b).

(** An infinity times a real: the sign follows the real, zero gives NaN. *)
Definition scale_inf (s : bool) (r : R) : number :=
  if Req_dec_T r 0 then NaN
  else if Rlt_dec 0 r then Inf s else Inf (negb s).

Definition mul (a b : number) : number :=
  match a, b with
  | NaN, _ | _, NaN => NaN
  | Inf s, Inf s' => Inf (xorb s s')
  | Inf s, Fin r | Fin r, Inf s => scale_inf s r
  | Fin x, Fin y => fin (x * y)
  end.

Definition div (a b : number) : number :=
  match a, b with
  | NaN, _ | _, NaN => NaN
  | Inf _, Inf _ => NaN
  | Inf s, Fin r => if Rlt_dec r 0 then Inf (negb s) else Inf s
  | Fin _, Inf _ => Fin 0
  | Fin x, Fin y =>
      if Req_dec_T y 0 then
        (if Req_dec_T x 0 then NaN else if Rlt_dec 0 x then Inf false else Inf true)
      else fin (x / y)
  end.

(** [a < b]; false when either side is NaN. *)
Definition lt (a b : number) : bool :=
  match a, b with
  | NaN, _ | _, NaN => false
  | Inf s, Inf s' => s && negb s'
  | Inf s, Fin _ => s
  | Fin _, Inf s => negb s
  | Fin x, Fin y => if Rlt_dec x y then true else false
  end.

(** [a >= b] as a proposition; false when either side is NaN. *)
Definition ge (a b : number) : Prop :=
  match a, b with
  | NaN, _ | _, NaN => False
  | Inf s, Inf s' => s = false \/ s' = true
  | Inf s, Fin _ => s = false
  | Fin _, Inf s => s = true
  | Fin x, Fin y => y <= x
  end.

(** [a === b] on numbers. *)
Definition strict_eq (a b : number) : bool :=
  match a, b with
  | Inf s, Inf s' => Bool.eqb s s'
  | Fin x, Fin y => if Req_dec_T x y then true else false
  | _, _ => false
  end.

(** [Object.is(a, b)] on numbers, the comparison React applies to
    dependency arrays. *)
Definition same_value (a b : number) : bool :=
  match a, b with
  | NaN, NaN => true
  | _, _ => strict_eq a b
  end.

(** [Math.max(a, b)]. *)
Definition max (a b : number) : number :=
  match a, b with
  | NaN, _ | _, NaN => NaN
  | _, _ => if lt a b then b else a
  end.

(** [Math.sin]. *)
Definition sin (a : number) : number :=
  match a with
  | Fin r => Fin (Rtrigo_def.sin r)
  | _ => NaN
  end.

(** [Math.pow(a, 2)]. *)
Definition square (a : number) : number := mul a a.

Definition of_Z (z : Z) : number := Fin (IZR z).
Definition of_nat (n : nat) : number := Fin (INR n).

(** [a || b] on numbers: NaN and zero are falsy. *)
Definition truthy (a : number) : bool :=
  match a with
  | NaN => false
  | Inf _ => true
  | Fin r => if Req_dec_T r 0 then false else true
  end.

Definition or (a b : number) : number := if truthy a then a else b.

Definition is_nan (a : number) : bool :=
  match a with NaN => true | _ => false end.

End Num.

(** ** The time-series buffer ([hooks/use-live-chart-data.ts]) *)

Module Chart.
Import Num.
Local Open Scope list_scope.

(** The fields of the client-side [Token] (store/tokensSlice.ts) that a
    chart can observe.  Identifiers and symbols are ASCII strings. *)
Record Token := {
  id : string;
  symbol : string;
  price : number;
  priceChange24h : number;
  volume24h : number;
  marketCap : number;
  liquidity : number
}.

(** [time] is the instant in milliseconds since the epoch, of which the
    code stores the [toISOString()] rendering. *)
Record ChartDataPoint := {
  time : Z;
  value : number
}.

(** *** [parseInt] and [charCodeAt] *)

Definition is_space (c : ascii) : bool :=
  let n := nat_of_ascii c in
  ((9 <=? n) && (n <=? 13) || (n =? 32))%nat.

Fixpoint skip_spaces (s : string) : string :=
  match s with
  | String c r => if is_space c then skip_spaces r else s
  | EmptyString => s
  end.

Definition digit_value (c : ascii) : option Z :=
  let n := Z.of_nat (nat_of_ascii c) in
  if (48 <=? n)%Z && (n <=? 57)%Z then Some (n - 48)%Z
  else if (97 <=? n)%Z && (n <=? 122)%Z then Some (n - 87)%Z
  else if (65 <=? n)%Z && (n <=? 90)%Z then Some (n - 55)%Z
  else None.

(** The value of the longest prefix of digits in [radix], given the
    digits read so far; [None] when there is no digit at all. *)
Fixpoint digits (radix : Z) (acc : option Z) (s : string) : option Z :=
  match s with
  | EmptyString => acc
  | String c r =>
      match digit_value c with
      | Some d =>
          if (d <? radix)%Z
          then digits radix (Some (radix * match acc with Some a => a | None => 0 end + d)%Z) r
          else acc
      | None => acc
      end
  end.

(** The integer that [parseInt(s)], called without a radix, reads off
    [s] (sign included; [mathInt] in ECMA-262, 19.2.5); [None] when [s]
    has no digit where one is expected. *)
Definition mathInt (s : string) : option Z :=
  let s1 := skip_spaces s in
  let '(negative, s2) :=
    match s1 with
    | String "-" r => (true, r)
    | String "+" r => (false, r)
    | _ => (false, s1)
    end in
  let '(radix, s3) :=
    match s2 with
    | String "0" (String "x" r) => (16%Z, r)
    | String "0" (String "X" r) => (16%Z, r)
    | _ => (10%Z, s2)
    end in
  match digits radix None s3 with
  | Some z => Some (if negative then (- z)%Z else z)
  | None => None
  end.

(** The natural number [m] rounded to 53 significant bits, ties to the
    even neighbour. *)
Definition round_to_53_bits (m : Z) : Z :=
  if (m <? 2 ^ 53)%Z then m
  else
    let e := (Z.log2 m - 52)%Z in
    let q := Z.shiftr m e in
    let r := (m - Z.shiftl q e)%Z in
    let half := (2 ^ (e - 1))%Z in
    let q' := if (r <? half)%Z then q
              else if (half <? r)%Z then (q + 1)%Z
              else if Z.even q then q else (q + 1)%Z in
    Z.shiftl q' e.

(** The Number value for the integer [z]: the nearest double, an infinity
    from 2^1024 on. *)
Definition to_double (z : Z) : number :=
  let m := round_to_53_bits (Z.abs z) in
  if (2 ^ 1024 <=? m)%Z then Inf (z <? 0)%Z else Fin (IZR (Z.sgn z * m)).

(** [parseInt(s)] without a radix argument. *)
Definition parseInt (s : string) : number :=
  match mathInt s with
  | Some z => to_double z
  | None => NaN
  end.

(** [s.charCodeAt(0)]; NaN on the empty string. *)
Definition charCodeAt0 (s : string) : number :=
  match s with
  | String c _ => of_nat (nat_of_ascii c)
  | EmptyString => NaN
  end.

(** Line 104: [parseInt(token.id) || token.symbol.charCodeAt(0)]. *)
Definition tokenSeed (token : Token) : number :=
  or (parseInt (id token)) (charCodeAt0 (symbol token)).

(** *** [generateInitialData], lines 92-133 *)

Definition startPrice (token : Token) : number :=
  let currentPrice := price token in
  let change24h := div (priceChange24h token) (Fin 100) in
  div currentPrice (add (Fin 1) change24h).

Definition progress (dataPoints i : nat) : number :=
  div (of_nat i) (sub (of_nat dataPoints) (Fin 1)).

Definition smoothProgress (progress : number) : number :=
  if lt progress (Fin (5 / 10))
  then mul (mul (Fin 2) progress) progress
  else sub (Fin 1) (div (square (add (mul (Fin (-2)) progress) (Fin 2))) (Fin 2)).

(** The body of the loop for index [i]: the value pushed at lines 126-129. *)
Definition point_value (token : Token) (dataPoints i : nat) : number :=
  let currentPrice := price token in
  let progress := progress dataPoints i in
  let baseValue :=
    add (startPrice token)
        (mul (sub currentPrice (startPrice token)) (smoothProgress progress)) in
  let wave1 :=
    mul (mul (sin (add (mul (mul progress (Fin PI)) (Fin 2)) (tokenSeed token)))
             currentPrice) (Fin (8 / 1000)) in
  let wave2 :=
    mul (mul (sin (add (mul (mul progress (Fin PI)) (Fin 4))
                       (mul (tokenSeed token) (Fin 2))))
             currentPrice) (Fin (4 / 1000)) in
  let value := add (add baseValue wave1) wave2 in
  max value (mul currentPrice (Fin (5 / 10))).

Definition point_time (now : Z) (dataPoints i : nat) : Z :=
  let timeOffset := ((Z.of_nat dataPoints - Z.of_nat i - 1) * 60 * 60 * 1000)%Z in
  (now - timeOffset)%Z.

(** [now] is the value of [Date.now()] read at line 93. *)
Definition generateInitialData (now : Z) (token : Token) (dataPoints : nat)
  : list ChartDataPoint :=
  map (fun i => {| time := point_time now dataPoints i;
                   value := point_value token dataPoints i |})
      (seq 0 dataPoints).

(** *** The hook *)

(** Lines 55-60 and 68-71: append, then drop the oldest point if the
    capacity is exceeded. *)
Definition push_bounded {A} (maxDataPoints : nat) (data : list A) (dataPoint : A)
  : list A :=
  let updatedData := data ++ [dataPoint] in
  if (maxDataPoints <? length updatedData)%nat then tl updatedData else updatedData.

Record Props := {
  token : Token;
  maxDataPoints : nat;
  initialDataPoints : nat
}.

(** The state of one mounted hook: the React state and refs of lines
    24-27, the dependency arrays of the last render, the callbacks handed
    to [requestAnimationFrame] that have not run yet, and the identifiers
    for which [generateInitialData] has been called (oldest first). *)
Record Hook := {
  chartData : list ChartDataPoint;
  lastPriceRef : number;
  dataPointsRef : list ChartDataPoint;
  initializedTokenRef : string;
  initDeps : option (string * nat);
  priceDeps : option (number * nat);
  callbackMax : nat;
  frames : list (list ChartDataPoint);
  seedings : list string
}.

(** The first call of the hook function, before any effect has run. *)
Definition mount (p : Props) : Hook :=
  {| chartData := []; lastPriceRef := price (token p); dataPointsRef := [];
     initializedTokenRef := EmptyString; initDeps := None; priceDeps := None;
     callbackMax := maxDataPoints p; frames := []; seedings := [] |}.

(** The body of the first effect, lines 30-44. *)
Definition init_effect (now : Z) (p : Props) (h : Hook) : Hook :=
  if String.eqb (initializedTokenRef h) (id (token p)) then h
  else
    let initData := generateInitialData now (token p) (initialDataPoints p) in
    {| chartData := chartData h;
       lastPriceRef := price (token p);
       dataPointsRef := initData;
       initializedTokenRef := id (token p);
       initDeps := initDeps h; priceDeps := priceDeps h;
       callbackMax := callbackMax h;
       frames := frames h ++ [initData];
       seedings := seedings h ++ [id (token p)] |}.

(** The body of the second effect, lines 47-65. *)
Definition price_effect (now : Z) (p : Props) (h : Hook) : Hook :=
  if strict_eq (lastPriceRef h) (price (token p)) then h
  else
    let newDataPoint := {| time := now; value := price (token p) |} in
    let updatedData := push_bounded (maxDataPoints p) (dataPointsRef h) newDataPoint in
    {| chartData := updatedData;
       lastPriceRef := price (token p);
       dataPointsRef := updatedData;
       initializedTokenRef := initializedTokenRef h;
       initDeps := initDeps h; priceDeps := priceDeps h;
       callbackMax := callbackMax h;
       frames := frames h;
       seedings := seedings h |}.

Definition init_deps_changed (p : Props) (h : Hook) : bool :=
  match initDeps h with
  | None => true
  | Some (i, n) => negb (String.eqb i (id (token p)) && (n =? initialDataPoints p)%nat)
  end.

Definition price_deps_changed (p : Props) (h : Hook) : bool :=
  match priceDeps h with
  | None => true
  | Some (x, n) => negb (same_value x (price (token p)) && (n =? maxDataPoints p)%nat)
  end.

(** One render with props [p]: each effect runs if one of its dependencies
    changed, in the order of declaration. *)
Definition render (now : Z) (p : Props) (h : Hook) : Hook :=
  let h1 := if init_deps_changed p h then init_effect now p h else h in
  let h2 := if price_deps_changed p h then price_effect now p h1 else h1 in
  {| chartData := chartData h2; lastPriceRef := lastPriceRef h2;
     dataPointsRef := dataPointsRef h2; initializedTokenRef := initializedTokenRef h2;
     initDeps := Some (id (token p), initialDataPoints p);
     priceDeps := Some (price (token p), maxDataPoints p);
     callbackMax := maxDataPoints p;
     frames := frames h2; seedings := seedings h2 |}.

(** [appendDataPoint], lines 67-74. *)
Definition appendDataPoint (dataPoint : ChartDataPoint) (h : Hook) : Hook :=
  let updatedData := push_bounded (callbackMax h) (dataPointsRef h) dataPoint in
  {| chartData := updatedData; lastPriceRef := lastPriceRef h;
     dataPointsRef := updatedData; initializedTokenRef := initializedTokenRef h;
     initDeps := initDeps h; priceDeps := priceDeps h; callbackMax := callbackMax h;
     frames := frames h; seedings := seedings h |}.

(** The oldest callback queued by [requestAnimationFrame] runs. *)
Definition animation_frame (h : Hook) : Hook :=
  match frames h with
  | [] => h
  | initData :: rest =>
      {| chartData := initData; lastPriceRef := lastPriceRef h;
         dataPointsRef := dataPointsRef h; initializedTokenRef := initializedTokenRef h;
         initDeps := initDeps h; priceDeps := priceDeps h; callbackMax := callbackMax h;
         frames := rest; seedings := seedings h |}
  end.

Inductive Event : Type :=
| Render (now : Z) (p : Props)
| Append (dataPoint : ChartDataPoint)
| Frame.

Definition step (h : Hook) (e : Event) : Hook :=
  match e with
  | Render now p => render now p h
  | Append dataPoint => appendDataPoint dataPoint h
  | Frame => animation_frame h
  end.

Definition run (h : Hook) (tr : list Event) : Hook := fold_left step tr h.

(** The identifier an event renders with, if it is a render. *)
Definition renders_id (x : string) (e : Event) : Prop :=
  match e with
  | Render _ p => id (token p) = x
  | _ => True
  end.

(** A sequence of appends with one capacity. *)
Definition append_all {A} (maxDataPoints : nat) (data : list A) (points : list A)
  : list A :=
  fold_left (push_bounded maxDataPoints) points data.

(** A sequence of appends, each with the capacity in force when it is made. *)
Definition push_all (data : list ChartDataPoint) (pushes : list (nat * ChartDataPoint))
  : list ChartDataPoint :=
  fold_left (fun d cp => push_bounded (fst cp) d (snd cp)) pushes data.

(** A render that keeps the capacity [cap] and asks for a seed that fits
    into it. *)
Definition respects (cap : nat) (e : Event) : Prop :=
  match e with
  | Render _ p => maxDataPoints p = cap /\ (initialDataPoints p <= cap)%nat
  | _ => True
  end.

(** [smoothProgress] and the pushed value on real numbers, for the inputs
    on which the arithmetic of [point_value] stays finite: start price
    [start], current price [p], seed [s] and progress [x]. *)
Definition smooth_real (x : R) : R :=
  (if Rlt_dec x (5 / 10) then 2 * x * x
   else 1 + - ((-2 * x + 2) * (-2 * x + 2) / 2))%R.

Definition value_real (start p s x : R) : R :=
  Rmax (start + (p + - start) * smooth_real x
        + Rtrigo_def.sin (x * PI * 2 + s) * p * (8 / 1000)
        + Rtrigo_def.sin (x * PI * 4 + s * 2) * p * (4 / 1000))
       (p * (5 / 10)).

(** The oscillation that lines 121-122 add at both ends of the curve, for
    price [p] and seed [s]. *)
Definition wave (p s : R) : R :=
  (Rtrigo_def.sin s * p * (8 / 1000) + Rtrigo_def.sin (s * 2) * p * (4 / 1000))%R.

End Chart.

(** ** Inputs of the scenarios *)

Module Scenario.
Local Open Scope Q_scope.

(** [{id: i, price: p}] as it comes out of the source adapter. *)
Definition candidate (i : string) (p : Q) : Poller.MobulaToken :=
  {| Poller.m_id := Some i; Poller.m_address := None; Poller.m_symbol := None;
     Poller.m_name := None; Poller.m_price := Some p;
     Poller.m_priceChange24h := None; Poller.m_volume := None;
     Poller.m_volume24h := None; Poller.m_marketCap := None;
     Poller.m_market_cap := None; Poller.m_liquidity := None;
     Poller.m_holders := None; Poller.m_blockchain := None;
     Poller.m_logo := None; Poller.m_image := None; Poller.m_createdAt := None |}.

Definition cycle (tokens : list Poller.MobulaToken) : Poller.Cycle :=
  {| Poller.fetched := tokens; Poller.cycle_now := 1700000000000;
     Poller.cycle_rnd := fun _ => 1 # 2 |}.

(** A webhook body whose [data] carries nothing. *)
Definition no_fields : Webhook.TokenData :=
  {| Webhook.d_id := None; Webhook.d_address := None; Webhook.d_symbol := None;
     Webhook.d_name := None; Webhook.d_price := None;
     Webhook.d_priceChange24h := None; Webhook.d_volume24h := None;
     Webhook.d_volume := None; Webhook.d_marketCap := None;
     Webhook.d_market_cap := None; Webhook.d_liquidity := None;
     Webhook.d_holders := None; Webhook.d_blockchain := None;
     Webhook.d_chain := None; Webhook.d_logo := None; Webhook.d_image := None |}.

(** [{"data": {"id": i}}]. *)
Definition body_with_id (i : string) : Webhook.Body :=
  {| Webhook.data :=
       Some {| Webhook.d_id := Some i; Webhook.d_address := None;
               Webhook.d_symbol := None;
               Webhook.d_name := None; Webhook.d_price := None;
               Webhook.d_priceChange24h := None; Webhook.d_volume24h := None;
               Webhook.d_volume := None; Webhook.d_marketCap := None;
               Webhook.d_market_cap := None; Webhook.d_liquidity := None;
               Webhook.d_holders := None; Webhook.d_blockchain := None;
               Webhook.d_chain := None; Webhook.d_logo := None;
               Webhook.d_image := None |};
     Webhook.top := no_fields |}.

(** [{"data": {"symbol": "TEST", "price": 1.23}}]. *)
Definition body_B : Webhook.Body :=
  {| Webhook.data :=
       Some {| Webhook.d_id := None; Webhook.d_address := None;
               Webhook.d_symbol := Some "TEST";
               Webhook.d_name := None; Webhook.d_price := Some (123 # 100);
               Webhook.d_priceChange24h := None; Webhook.d_volume24h := None;
               Webhook.d_volume := None; Webhook.d_marketCap := None;
               Webhook.d_market_cap := None; Webhook.d_liquidity := None;
               Webhook.d_holders := None; Webhook.d_blockchain := None;
               Webhook.d_chain := None; Webhook.d_logo := None;
               Webhook.d_image := None |};
     Webhook.top := no_fields |}.

(** [{"data": {"volume24h": 100}}]. *)
Definition body_volume : Webhook.Body :=
  {| Webhook.data :=
       Some {| Webhook.d_id := None; Webhook.d_address := None;
               Webhook.d_symbol := None;
               Webhook.d_name := None; Webhook.d_price := None;
               Webhook.d_priceChange24h := None; Webhook.d_volume24h := Some 100;
               Webhook.d_volume := None; Webhook.d_marketCap := None;
               Webhook.d_market_cap := None; Webhook.d_liquidity := None;
               Webhook.d_holders := None; Webhook.d_blockchain := None;
               Webhook.d_chain := None; Webhook.d_logo := None;
               Webhook.d_image := None |};
     Webhook.top := no_fields |}.

(** [{"data": {"volume": 100, "market_cap": 7}}]. *)
Definition body_alternate : Webhook.Body :=
  {| Webhook.data :=
       Some {| Webhook.d_id := None; Webhook.d_address := None;
               Webhook.d_symbol := None;
               Webhook.d_name := None; Webhook.d_price := None;
               Webhook.d_priceChange24h := None; Webhook.d_volume24h := None;
               Webhook.d_volume := Some 100; Webhook.d_marketCap := None;
               Webhook.d_market_cap := Some 7; Webhook.d_liquidity := None;
               Webhook.d_holders := None; Webhook.d_blockchain := None;
               Webhook.d_chain := None; Webhook.d_logo := None;
               Webhook.d_image := None |};
     Webhook.top := no_fields |}.

(** A 1 followed by 309 zeros. *)
Definition digits_309 : string :=
  String "1" (fold_right (fun _ r => String "0" r) EmptyString (seq 0 309)).

(** The request [{"data": {"id": "x1"}}] as [request.json()] delivers it. *)
Definition post_x1 : Js.result Webhook.Json :=
  Js.Ok (Webhook.Members (body_with_id "x1")).

(** A client-side token with the given identifier, symbol, price and
    24h change (in percent). *)
Definition chart_token (i s : string) (p c : R) : Chart.Token :=
  {| Chart.id := i; Chart.symbol := s; Chart.price := Num.Fin p;
     Chart.priceChange24h := Num.Fin c; Chart.volume24h := Num.Fin 0;
     Chart.marketCap := Num.Fin 0; Chart.liquidity := Num.Fin 0 |}.

(** Scenario D: a hook of capacity 100 and the points appended to it. *)
Definition props_D : Chart.Props :=
  {| Chart.token := chart_token "t1" "T" 10 25;
     Chart.maxDataPoints := 100; Chart.initialDataPoints := 24 |}.

(** The same hook after the price of the instrument moved to 11. *)
Definition props_D_moved : Chart.Props :=
  {| Chart.token := chart_token "t1" "T" 11 10;
     Chart.maxDataPoints := 100; Chart.initialDataPoints := 24 |}.

(** A hook of capacity 10 with the default seed of 24 points. *)
Definition props_small : Chart.Props :=
  {| Chart.token := chart_token "t1" "T" 10 25;
     Chart.maxDataPoints := 10; Chart.initialDataPoints := 24 |}.

(** The time frames ["7D"] and ["1H"] of the documented
    [MultiTimeframeChart]. *)
Definition props_7D : Chart.Props :=
  {| Chart.token := chart_token "t1" "T" 10 25;
     Chart.maxDataPoints := 168; Chart.initialDataPoints := 168 |}.

Definition props_1H : Chart.Props :=
  {| Chart.token := chart_token "t1" "T" 10 25;
     Chart.maxDataPoints := 60; Chart.initialDataPoints := 60 |}.

Definition point_D (i : nat) : Chart.ChartDataPoint :=
  {| Chart.time := Z.of_nat i; Chart.value := Num.Fin (INR i) |}.

End Scenario.

(** What the specification calls a failed primary provider call: the call
    raised, the status was not OK, the body could not be read, or the
    result was empty. *)
Definition primary_failed (dex : Js.result (Poller.Response Poller.DexBody)) : bool :=
  match dex with
  | Js.Throw => true
  | Js.Ok response =>
      negb (Poller.ok response)
      || match Poller.json response with
         | Js.Ok (Some d) =>
             match Poller.pairs d with
             | Some (_ :: _) => false
             | _ => true
             end
         | _ => true
         end
  end.

(** ** The client store ([store/tokensSlice.ts]) *)

Module Store.
Local Open Scope list_scope.

(** [interface Token]; an optional member is an [option]. *)
Record Token := {
  id : string;
  symbol : string;
  name : string;
  price : Q;
  priceChange24h : Q;
  volume24h : Q;
  marketCap : Q;
  liquidity : Q;
  holders : option Q;
  logo : option string;
  chain : string;
  category : option string;
  isFavorite : option bool
}.

Record TokensState := {
  tokens : list Token;
  loading : bool;
  error : option string;
  selectedToken : option Token
}.

Definition initialState : TokensState :=
  {| tokens := []; loading := false; error := None; selectedToken := None |}.

Definition with_tokens (state : TokensState) (l : list Token) : TokensState :=
  {| tokens := l; loading := loading state; error := error state;
     selectedToken := selectedToken state |}.

(** [setTokens], lines 37-39. *)
Definition setTokens (payload : list Token) (state : TokensState) : TokensState :=
  with_tokens state payload.

(** [addNewToken], lines 40-47: [some] then [unshift]. *)
Definition addNewToken (payload : Token) (state : TokensState) : TokensState :=
  let exists_ := existsb (fun t => String.eqb (id t) (id payload)) (tokens state) in
  if negb exists_ then with_tokens state (payload :: tokens state) else state.

(** [tokens.find(p)] followed by an assignment to the token found: the
    first token that satisfies [p] is replaced by its image under [g]. *)
Fixpoint update_first (p : Token -> bool) (g : Token -> Token) (l : list Token)
  : list Token :=
  match l with
  | [] => []
  | t :: r => if p t then g t :: r else t :: update_first p g r
  end.

(** The payload of [updateTokenPrice]. *)
Record PriceUpdate := {
  u_id : string;
  u_price : Q;
  u_priceChange24h : Q
}.

Definition set_price (u : PriceUpdate) (t : Token) : Token :=
  {| id := id t; symbol := symbol t; name := name t;
     price := u_price u; priceChange24h := u_priceChange24h u;
     volume24h := volume24h t; marketCap := marketCap t; liquidity := liquidity t;
     holders := holders t; logo := logo t; chain := chain t;
     category := category t; isFavorite := isFavorite t |}.

(** [updateTokenPrice], lines 48-54. *)
Definition updateTokenPrice (u : PriceUpdate) (state : TokensState) : TokensState :=
  with_tokens state
    (update_first (fun t => String.eqb (id t) (u_id u)) (set_price u) (tokens state)).

(** [!token.isFavorite]: an absent flag is falsy. *)
Definition flip_favorite (t : Token) : Token :=
  {| id := id t; symbol := symbol t; name := name t;
     price := price t; priceChange24h := priceChange24h t;
     volume24h := volume24h t; marketCap := marketCap t; liquidity := liquidity t;
     holders := holders t; logo := logo t; chain := chain t;
     category := category t;
     isFavorite := Some (negb (match isFavorite t with Some b => b | None => false end)) |}.

(** [toggleFavorite], lines 55-60. *)
Definition toggleFavorite (payload : string) (state : TokensState) : TokensState :=
  with_tokens state
    (update_first (fun t => String.eqb (id t) payload) flip_favorite (tokens state)).

(** [setLoading], [setError] and [setSelectedToken], lines 61-69. *)
Definition setLoading (payload : bool) (state : TokensState) : TokensState :=
  {| tokens := tokens state; loading := payload; error := error state;
     selectedToken := selectedToken state |}.

Definition setError (payload : option string) (state : TokensState) : TokensState :=
  {| tokens := tokens state; loading := loading state; error := payload;
     selectedToken := selectedToken state |}.

Definition setSelectedToken (payload : option Token) (state : TokensState)
  : TokensState :=
  {| tokens := tokens state; loading := loading state; error := error state;
     selectedToken := payload |}.

Definition ids (state : TokensState) : list string := map id (tokens state).

(** Whether the heart of a token is shown filled. *)
Definition favorite (t : Token) : bool :=
  match isFavorite t with Some b => b | None => false end.

End Store.

(** ** The client side of a broadcast ([use-pusher-updates.ts], lines 99-114)
    and the pages that feed the store *)

Module Client.
Import Js.
Local Open Scope list_scope.

(** The payload of a ['token.created'] event as the client reads it. *)
Definition of_payload (t : Token) : Store.Token :=
  {| Store.id := id t; Store.symbol := symbol t; Store.name := name t;
     Store.price := price t; Store.priceChange24h := priceChange24h t;
     Store.volume24h := volume24h t; Store.marketCap := marketCap t;
     Store.liquidity := liquidity t; Store.holders := Some (holders t);
     Store.logo := Some (logo t); Store.chain := chain t;
     Store.category := Some (category t); Store.isFavorite := None |}.

(** [handleNewToken] of one hook, lines 99-114, as far as the store is
    concerned: nothing after the unmount, one [addNewToken] before. *)
Definition handleNewToken (isActive : bool) (newToken : Store.Token)
    (state : Store.TokensState) : Store.TokensState :=
  if negb isActive then state else Store.addNewToken newToken state.

(** The channel calls every handler bound to ['token.created']; [handlers]
    lists the [isActive] flag of each. *)
Definition deliver (handlers : list bool) (newToken : Store.Token)
    (state : Store.TokensState) : Store.TokensState :=
  fold_left (fun s isActive => handleNewToken isActive newToken s) handlers state.

(** All the calls of a broker log reach a client with the given handlers. *)
Definition deliver_log (handlers : list bool) (log : list Trigger)
    (state : Store.TokensState) : Store.TokensState :=
  fold_left (fun s t => deliver handlers (of_payload (payload t)) s)
            (List.filter is_token_created log) state.

(** [simulatePriceUpdate] of [lib/api/tokens]; [r1] and [r2] are the two
    draws of [Math.random()]. *)
Definition simulatePriceUpdate (r1 r2 : Q) (token : Store.Token) : Q * Q :=
  let priceChange := ((r1 - (5 # 10)) * (2 # 100))%Q in
  let newPrice := (Store.price token * (1 + priceChange))%Q in
  let newPriceChange24h := (Store.priceChange24h token + (r2 - (5 # 10)) * (5 # 10))%Q in
  (newPrice, newPriceChange24h).

(** The callback of the 3 s interval of the pulse page (lines 79-87) and of
    the trading table: the loop runs over the [tokens] the effect closed
    over and dispatches one [updateTokenPrice] per token; [draws i] are the
    draws used for the [i]-th token. *)
Fixpoint tick_loop (draws : nat -> Q * Q) (i : nat) (snapshot : list Store.Token)
    (state : Store.TokensState) : Store.TokensState :=
  match snapshot with
  | [] => state
  | token :: rest =>
      let update := simulatePriceUpdate (fst (draws i)) (snd (draws i)) token in
      tick_loop draws (S i) rest
        (Store.updateTokenPrice
           {| Store.u_id := Store.id token; Store.u_price := fst update;
              Store.u_priceChange24h := snd update |} state)
  end.

(** The effect is set up again whenever [tokens] changes, so the snapshot
    is the list of the store when the interval fires. *)
Definition priceTick (draws : nat -> Q * Q) (state : Store.TokensState)
  : Store.TokensState :=
  tick_loop draws 0 (Store.tokens state) state.

(** What the tick makes of the [i]-th token. *)
Definition ticked (draws : nat -> Q * Q) (i : nat) (token : Store.Token) : Store.Token :=
  let update := simulatePriceUpdate (fst (draws i)) (snd (draws i)) token in
  Store.set_price {| Store.u_id := Store.id token; Store.u_price := fst update;
                     Store.u_priceChange24h := snd update |} token.

Fixpoint mapi_from {A B} (i : nat) (f : nat -> A -> B) (l : list A) : list B :=
  match l with
  | [] => []
  | x :: r => f i x :: mapi_from (S i) f r
  end.

(** The three columns of the pulse page, lines 100-102. *)
Definition column (c : string) (tokens : list Store.Token) : list Store.Token :=
  List.filter (fun t => match Store.category t with
                        | Some c' => String.eqb c' c
                        | None => false
                        end) tokens.

Definition newPairs := column "new".
Definition finalStretch := column "final-stretch".
Definition migrated := column "migrated".

End Client.

(** ** The snapshot endpoint ([app/api/tokens/route.ts]) *)

Module TokensRoute.
Import Js.
Local Open Scope Q_scope.

(** Lines 66-68. *)
Definition category_of (total index : nat) : string :=
  if (index <? total / 3)%nat then "new"
  else if (index <? (2 * total) / 3)%nat then "final-stretch"
  else "migrated".

(** The same with the two thresholds named. *)
Definition category_between (a b index : nat) : string :=
  if (index <? a)%nat then "new"
  else if (index <? b)%nat then "final-stretch"
  else "migrated".

(** [a ?? d]: only an absent value is replaced. *)
Definition nullish {A} (a : option A) (d : A) : A :=
  match a with Some x => x | None => d end.

(** The arrow function of lines 65-84; a [null] entry makes the property
    read throw. *)
Definition of_coin (total : nat) (rnd : nat -> Q) (index : nat)
    (c : option Poller.Coin) : result Store.Token :=
  match c with
  | None => Throw
  | Some coin =>
      Ok {| Store.id := pretty (S index);
            Store.symbol :=
              nullish (option_map toUpperCase (Poller.c_symbol coin)) EmptyString;
            Store.name := nullish (Poller.c_name coin) EmptyString;
            Store.price := nullish (Poller.current_price coin) 0;
            Store.priceChange24h := nullish (Poller.price_change_percentage_24h coin) 0;
            Store.volume24h := nullish (Poller.total_volume coin) 0;
            Store.marketCap := nullish (Poller.c_market_cap coin) 0;
            Store.liquidity := nullish (Poller.total_volume coin) 0;
            Store.holders := Some (inject_Z (Qfloor (rnd index * 100000)));
            Store.logo := Some (nullish (Poller.c_image coin) EmptyString);
            Store.chain := "solana";
            Store.category := Some (category_of total index);
            Store.isFavorite := None |}
  end.

Definition mock (i s n : string) (p c v m l h : Q) (img cat : string) : Store.Token :=
  {| Store.id := i; Store.symbol := s; Store.name := n; Store.price := p;
     Store.priceChange24h := c; Store.volume24h := v; Store.marketCap := m;
     Store.liquidity := l; Store.holders := Some h; Store.logo := Some img;
     Store.chain := "solana"; Store.category := Some cat; Store.isFavorite := None |}.

(** Lines 91-95. *)
Definition mockTokens : list Store.Token :=
  [ mock "1" "SOL" "Solana" (16688 # 100) (211 # 100) 5430000000 92090000000
         1630000000 50000
         "https://assets.coingecko.com/coins/images/4128/small/solana.png" "migrated";
    mock "2" "JUP" "Jupiter" (3582 # 10000) (33 # 100) 36190000 1140000000
         10860000 30000
         "https://assets.coingecko.com/coins/images/10365/small/jupiter.png"
         "final-stretch";
    mock "3" "BONK" "Bonk" (13 # 1000000) (133 # 100) 136260000 1090000000
         40730000 25000
         "https://assets.coingecko.com/coins/images/28600/small/bonk.jpg" "new" ].

(** The [try] block of [GET], lines 34-86. *)
Definition transform (rnd : nat -> Q) (gecko : result (Poller.Response Poller.GeckoBody))
  : result (list Store.Token) :=
  bind gecko (fun response =>
    if negb (Poller.ok response) then Throw
    else
      bind (Poller.json response) (fun data =>
        match data with
        | None => Throw
        | Some coins => mapi_throw_from 0%nat (of_coin (length coins) rnd) coins
        end)).

(** [GET], lines 33-99: the body of the answer. *)
Definition GET (rnd : nat -> Q) (gecko : result (Poller.Response Poller.GeckoBody))
  : list Store.Token :=
  match transform rnd gecko with
  | Ok tokens => tokens
  | Throw => mockTokens
  end.

End TokensRoute.

(** Provider answers used as examples: a coin with a symbol and a price,
    and an OK answer with the given entries. *)
Definition example_coin (sym : string) (p : Q) : option Poller.Coin :=
  Some {| Poller.c_id := Some sym; Poller.c_symbol := Some sym;
          Poller.c_name := Some sym; Poller.current_price := Some p;
          Poller.price_change_percentage_24h := None;
          Poller.total_volume := None; Poller.c_market_cap := None;
          Poller.c_image := None |}.

Definition gecko_answer (coins : list (option Poller.Coin))
  : Js.result (Poller.Response Poller.GeckoBody) :=
  Js.Ok {| Poller.status := 200; Poller.json := Js.Ok (Some coins) |}.

Definition no_draw : nat -> Q := fun _ => 0%Q.

Definition example_pair (address : string) : Poller.DexPair :=
  {| Poller.pairAddress := Some address; Poller.baseToken := None;
     Poller.priceUsd := None; Poller.priceChange_h24 := None;
     Poller.volume_h24 := None; Poller.liquidity_usd := None; Poller.fdv := None;
     Poller.info_imageUrl := None; Poller.pairCreatedAt := None |}.

Definition dex_answer (l : list (option Poller.DexPair)) : Poller.Response Poller.DexBody :=
  {| Poller.status := 200;
     Poller.json := Js.Ok (Some {| Poller.pairs := Some l |}) |}.

Definition no_parse : string -> option Q := fun _ => None.

(** The candidate that carries the fields of a webhook payload; [chain] has
    no counterpart in [MobulaToken]. *)
Definition as_candidate (td : Webhook.TokenData) : Poller.MobulaToken :=
  {| Poller.m_id := Webhook.d_id td; Poller.m_address := Webhook.d_address td;
     Poller.m_symbol := Webhook.d_symbol td; Poller.m_name := Webhook.d_name td;
     Poller.m_price := Webhook.d_price td;
     Poller.m_priceChange24h := Webhook.d_priceChange24h td;
     Poller.m_volume := Webhook.d_volume td;
     Poller.m_volume24h := Webhook.d_volume24h td;
     Poller.m_marketCap := Webhook.d_marketCap td;
     Poller.m_market_cap := Webhook.d_market_cap td;
     Poller.m_liquidity := Webhook.d_liquidity td;
     Poller.m_holders := Webhook.d_holders td;
     Poller.m_blockchain := Webhook.d_blockchain td;
     Poller.m_logo := Webhook.d_logo td; Poller.m_image := Webhook.d_image td;
     Poller.m_createdAt := None |}.

(** The identifier under which the dedup filter knows a candidate, if it
    has a usable one. *)
Definition candidate_key (token : Poller.MobulaToken) : option string :=
  match Js.or_str (Poller.m_id token) (Poller.m_address token) with
  | Some s => if Js.truthy_str s then Some s else None
  | None => None
  end.

(** The shape of an event on the wire. *)
Definition well_formed_event (t : Trigger) : Prop :=
  channel t = "pulse" /\ event t = "token.created"
  /\ id (payload t) <> EmptyString
  /\ symbol (payload t) <> EmptyString
  /\ name (payload t) <> EmptyString
  /\ chain (payload t) <> EmptyString
  /\ category (payload t) = "new".

(** The hooks that are mounted at the end of a trace. *)
Definition mounted (tr : list Subscription.Event) : nat :=
  (Subscription.count_event Subscription.Acquire tr
   - Subscription.count_event Subscription.Release tr)%nat.

(** The books of the subscription manager while [open] hooks are mounted:
    the counter, the module-level variables and the calls made so far. *)
Definition accounted (open : nat) (st : Subscription.State) : Prop :=
  Subscription.subscriberCount st = Z.of_nat open
  /\ Subscription.channelInstance st = Subscription.pusherInstance st
  /\ Subscription.connectionHandlersBound st = Subscription.pusherInstance st
  /\ ((0 < open)%nat -> Subscription.pusherInstance st = true)
  /\ (open = 0%nat -> Subscription.pusherInstance st = true ->
      (0 < Subscription.pendingTimeouts st)%nat)
  /\ Subscription.connects st
     = (Subscription.disconnects st
        + (if Subscription.pusherInstance st then 1 else 0))%nat
  /\ Subscription.count_effect Subscription.Subscribe st = Subscription.connects st
  /\ Subscription.count_effect Subscription.Unsubscribe st
     = Subscription.disconnects st
  /\ Subscription.count_effect (Subscription.ChannelBind "token.created") st
     = (Subscription.count_effect (Subscription.ChannelUnbind "token.created") st
        + open)%nat.

(** The identifiers of the renders of a trace at which the identifier
    differs from the one rendered before, [prev] being the identifier
    before the trace. *)
Fixpoint changes (prev : string) (tr : list Chart.Event) : list string :=
  match tr with
  | [] => []
  | Chart.Render _ p :: r =>
      if String.eqb prev (Chart.id (Chart.token p)) then changes prev r
      else Chart.id (Chart.token p) :: changes (Chart.id (Chart.token p)) r
  | _ :: r => changes prev r
  end.

(** The refs of a hook agree with the dependencies of its last render. *)
Definition synced (h : Chart.Hook) : Prop :=
  (forall i n, Chart.initDeps h = Some (i, n) -> Chart.initializedTokenRef h = i)
  /\ (forall x n, Chart.priceDeps h = Some (x, n) -> Chart.lastPriceRef h = x).

(** ** The subscription manager on a time line *)

Module Timeline.
Import Subscription.
Local Open Scope list_scope.
Local Open Scope Z_scope.

(** The delay handed to [setTimeout] at line 163, in milliseconds. *)
Definition grace : Z := 100.

(** The manager and the times at which the timeouts that are scheduled
    and have not run become due, oldest first.  The code keeps no handle
    of a timeout and never calls [clearTimeout]. *)
Record Clocked := {
  manager : State;
  due : list Z
}.

(** The timeouts that are due at time [t] run, oldest first. *)
Fixpoint elapse (t : Z) (due : list Z) (st : State) : State * list Z :=
  match due with
  | [] => (st, [])
  | d :: r =>
      if d <=? t then elapse t r (fire st)
      else let '(st', r') := elapse t r st in (st', d :: r')
  end.

(** At time [t] a hook mounts ([mounts = true]) or unmounts; an unmount
    that calls [setTimeout] adds a timeout due at [t + grace]. *)
Definition happen (c : Clocked) (e : Z * bool) : Clocked :=
  let '(t, mounts) := e in
  let '(st, rest) := elapse t (due c) (manager c) in
  let st' := if mounts then acquire st else release st in
  {| manager := st';
     due := if (pendingTimeouts st <? pendingTimeouts st')%nat
            then rest ++ [t + grace] else rest |}.

(** The manager after the mounts and unmounts of [tl] and after every
    timeout that is still scheduled has run. *)
Definition play (tl : list (Z * bool)) : State :=
  drain (manager (fold_left happen tl {| manager := initial; due := [] |})).

(** Every stretch of time in which no hook is mounted, from the unmount
    at [since] to the next mount, is shorter than [grace]; [open] hooks
    are mounted. *)
Fixpoint short_gaps (open : nat) (since : option Z) (tl : list (Z * bool)) : bool :=
  match tl with
  | [] => true
  | (t, true) :: r =>
      match since with
      | Some u => (t - u <? grace) && short_gaps (S open) None r
      | None => short_gaps (S open) None r
      end
  | (t, false) :: r =>
      short_gaps (pred open) (if (open =? 1)%nat then Some t else since) r
  end.

End Timeline.

(** * Properties *)

(** ** The helpers on small inputs *)

Example parseInt_decimal : Chart.parseInt "42abc" = Num.Fin (IZR 42).
Proof. reflexivity. Qed.

Example parseInt_signed : Chart.parseInt "  -7" = Num.Fin (IZR (-7)).
Proof. reflexivity. Qed.

Example parseInt_hex : Chart.parseInt "0x1f" = Num.Fin (IZR 31).
Proof. reflexivity. Qed.

Example parseInt_not_a_number : Chart.parseInt "t1" = Num.NaN.
Proof. reflexivity. Qed.

Example parseInt_rounds_down :
  Chart.parseInt "9007199254740993" = Num.Fin (IZR 9007199254740992).
Proof. vm_compute. reflexivity. Qed.

Example parseInt_rounds_up :
  Chart.parseInt "9007199254740995" = Num.Fin (IZR 9007199254740996).
Proof. vm_compute. reflexivity. Qed.

Example parseInt_address :
  Chart.parseInt "0xffffffffffffffffffffffffffffffffffffffff"
  = Num.Fin (IZR (2 ^ 160)).
Proof. vm_compute. reflexivity. Qed.

Example parseInt_overflow :
  Chart.parseInt (Scenario.digits_309) = Num.Inf false.
Proof. vm_compute. reflexivity. Qed.

Example toUpperCase_mixed : Js.toUpperCase "wEth-9" = "WETH-9".
Proof. reflexivity. Qed.

Example or_str_skips_empty : Js.or_str (Some EmptyString) (Some "0xabc") = Some "0xabc".
Proof. reflexivity. Qed.

Example random_holders_half : Js.random_holders (1 # 2) = 5000%Q.
Proof. reflexivity. Qed.

Example push_bounded_full : Chart.push_bounded 3 [1; 2; 3]%nat 4%nat = [2; 3; 4]%nat.
Proof. reflexivity. Qed.

Example push_bounded_room : Chart.push_bounded 3 [1; 2]%nat 3%nat = [1; 2; 3]%nat.
Proof. reflexivity. Qed.

(** ** Source adapter *)

Section SourceAdapter.
Import Js Poller.

Variable parseFloat : string -> option Q.

Lemma fetchFromCoinGecko_returns iso rnd gecko :
  exists tokens, fetchFromCoinGecko iso rnd gecko = Ok tokens.
Proof.
  unfold fetchFromCoinGecko, try_catch.
  destruct (bind gecko _) as [l|]; eauto.
Qed.

Lemma fetchFromCoinGecko_failure iso rnd gecko :
  match gecko with
  | Throw => True
  | Ok response =>
      ok response = false \/ json response = Throw \/ json response = Ok None
  end ->
  fetchFromCoinGecko iso rnd gecko = Ok [].
Proof.
  unfold fetchFromCoinGecko, try_catch, bind, GeckoBody in *.
  destruct gecko as [response|]; [|reflexivity].
  intros [H | [H | H]]; rewrite H; simpl; try reflexivity.
  all: destruct (ok response); reflexivity.
Qed.

Lemma fetch_falls_back iso rnd dex gecko :
  primary_failed dex = true ->
  fetchNewlyCreatedTokens parseFloat iso rnd dex gecko
  = fetchFromCoinGecko iso rnd gecko.
Proof.
  intros Hf.
  destruct (fetchFromCoinGecko_returns iso rnd gecko) as [fb Hfb].
  unfold fetchNewlyCreatedTokens, primary_failed, DexBody in *.
  rewrite Hfb.
  destruct dex as [response|]; [|reflexivity].
  simpl. destruct (ok response); simpl in *.
  - destruct (json response) as [[d|]|]; simpl; try reflexivity.
    destruct (pairs d) as [[|p ps]|]; simpl; try reflexivity.
    discriminate.
  - reflexivity.
Qed.

(** C8: [fetchNewlyCreatedTokens] returns a list for every outcome of the
    two provider calls; when the primary call raised, answered with a
    non-OK status or gave no pairs, the list is the one of the fallback,
    and that is empty when the fallback call raised, was not OK or had no
    usable body.  A poll cycle therefore always completes. *)
Theorem fetch_never_raises :
  forall iso rnd dex gecko,
    (exists tokens, fetchNewlyCreatedTokens parseFloat iso rnd dex gecko = Ok tokens)
    /\ (exists fallback, fetchFromCoinGecko iso rnd gecko = Ok fallback)
    /\ (primary_failed dex = true ->
        fetchNewlyCreatedTokens parseFloat iso rnd dex gecko
        = fetchFromCoinGecko iso rnd gecko)
    /\ (match gecko with
        | Throw => True
        | Ok response =>
            ok response = false \/ json response = Throw \/ json response = Ok None
        end ->
        fetchFromCoinGecko iso rnd gecko = Ok [])
    /\ (forall now rnd' st,
          exists st',
            pollAndBroadcast_fetching parseFloat iso rnd dex gecko now rnd' st = Ok st').
Proof.
  intros iso rnd dex gecko.
  destruct (fetchFromCoinGecko_returns iso rnd gecko) as [fb Hfb].
  assert (Hret : exists tokens,
             fetchNewlyCreatedTokens parseFloat iso rnd dex gecko = Ok tokens).
  { unfold fetchNewlyCreatedTokens, try_catch.
    rewrite Hfb.
    destruct (bind dex _) as [l|]; eauto. }
  split; [exact Hret|split; [eauto|split; [|split]]].
  - apply fetch_falls_back.
  - apply fetchFromCoinGecko_failure.
  - intros now rnd' st. destruct Hret as [tokens Ht].
    unfold pollAndBroadcast_fetching. rewrite Ht. simpl. eauto.
Qed.

End SourceAdapter.

Lemma fetch_never_raises_witness :
  primary_failed Js.Throw = true
  /\ Poller.fetchNewlyCreatedTokens (fun _ => None) "2024-01-01T00:00:00.000Z"
       (fun _ => 0%Q) Js.Throw Js.Throw
     = Js.Ok [].
Proof.
  split; [reflexivity|].
  destruct (fetch_never_raises (fun _ => None) "2024-01-01T00:00:00.000Z"
              (fun _ => 0%Q) Js.Throw Js.Throw) as (_ & _ & H1 & H2 & _).
  rewrite (H1 eq_refl). apply H2. exact I.
Defined.

(** ** Dedup filter and cold start *)

Section Dedup.
Import Js Poller.
Import Pipeline (filter_bound).

Lemma times_published_app x l1 l2 :
  times_published x (l1 ++ l2) = (times_published x l1 + times_published x l2)%nat.
Proof.
  unfold times_published, published_ids.
  rewrite List.filter_app, List.map_app, count_occ_app. reflexivity.
Qed.

Lemma times_published_nil x : times_published x [] = 0%nat.
Proof. reflexivity. Qed.

(** The identifier that is broadcast is the key of the dedup filter. *)
Lemma broadcast_id now rnd token tid :
  or_str (m_id token) (m_address token) = Some tid ->
  truthy_str tid = true ->
  id (payload (broadcastNewToken now rnd token)) = tid.
Proof.
  intros H1 H2. simpl. rewrite H1, H2. reflexivity.
Qed.

Lemma times_published_broadcast x now rnd token tid :
  or_str (m_id token) (m_address token) = Some tid ->
  truthy_str tid = true ->
  times_published x [broadcastNewToken now rnd token]
  = if decide (tid = x) then 1%nat else 0%nat.
Proof.
  intros H1 H2. unfold times_published, published_ids.
  simpl. rewrite H1, H2.
  destruct (string_dec tid x), (decide (tid = x)); congruence.
Qed.

(** What one iteration of the poll loop can do. *)
Lemma poll_one_cases now rnd st token :
  poll_one now rnd st token = st
  \/ exists tid,
       or_str (m_id token) (m_address token) = Some tid
       /\ truthy_str tid = true
       /\ (tid ∉ seenTokenIds st)
       /\ poll_one now rnd st token
          = {| seenTokenIds := {[ tid ]} ∪ seenTokenIds st;
               triggers := triggers st ++ [broadcastNewToken now rnd token] |}.
Proof.
  unfold poll_one.
  destruct (or_str (m_id token) (m_address token)) as [tid|] eqn:E; [|now left].
  destruct (truthy_str tid) eqn:T; simpl; [|now left].
  destruct (bool_decide (tid ∈ seenTokenIds st)) eqn:B; [now left|].
  right. exists tid. apply bool_decide_eq_false in B. auto.
Qed.

Lemma poll_one_bound x k now rnd st token :
  filter_bound x k st -> filter_bound x k (poll_one now rnd st token).
Proof.
  unfold filter_bound. intros H.
  destruct (poll_one_cases now rnd st token) as [-> | (tid & H1 & H2 & H3 & ->)];
    [exact H|].
  simpl. rewrite times_published_app,
    (times_published_broadcast x now rnd token tid H1 H2).
  destruct (decide (tid = x)) as [->|Hne].
  - destruct (decide (x ∈ seenTokenIds st)); [contradiction|].
    destruct (decide (x ∈ {[x]} ∪ seenTokenIds st)); [lia|set_solver].
  - destruct (decide (x ∈ seenTokenIds st)),
      (decide (x ∈ {[tid]} ∪ seenTokenIds st)); try lia; set_solver.
Qed.

Lemma poll_loop_bound x k now rnd tokens :
  forall i st, filter_bound x k st -> filter_bound x k (poll_loop now rnd i st tokens).
Proof.
  induction tokens as [|token rest IH]; intros i st H; simpl; [exact H|].
  apply IH, poll_one_bound, H.
Qed.

Lemma init_one_bound x k st token :
  filter_bound x k st -> filter_bound x k (init_one st token).
Proof.
  unfold filter_bound, init_one. intros H.
  destruct (or_str (m_id token) (m_address token)) as [tid|]; [|exact H].
  destruct (truthy_str tid); [|exact H]. simpl.
  destruct (decide (x ∈ seenTokenIds st)),
    (decide (x ∈ {[tid]} ∪ seenTokenIds st)); try lia; set_solver.
Qed.

Lemma initialize_bound x k tokens :
  forall st, filter_bound x k st -> filter_bound x k (initializeSeenTokens st tokens).
Proof.
  unfold initializeSeenTokens.
  induction tokens as [|token rest IH]; intros st H; simpl; [exact H|].
  apply IH, init_one_bound, H.
Qed.

Lemma step_bound x k st i :
  filter_bound x k st ->
  filter_bound x (k + Pipeline.webhook_publications x [i]) (Pipeline.step st i).
Proof.
  unfold filter_bound. intros H. destruct i as [c | req now rnd trigger_ok]; simpl.
  - pose proof (poll_loop_bound x k (cycle_now c) (cycle_rnd c) (fetched c) 0%nat st H)
      as H'.
    unfold filter_bound, pollAndBroadcast in *. lia.
  - rewrite times_published_app. lia.
Qed.

Lemma run_bound x inputs :
  forall k st,
    filter_bound x k st ->
    filter_bound x (k + Pipeline.webhook_publications x inputs)
                 (fold_left Pipeline.step inputs st).
Proof.
  induction inputs as [|i rest IH]; intros k st H; simpl fold_left.
  - simpl. replace (k + 0)%nat with k by lia. exact H.
  - apply (step_bound x k st i) in H. apply IH in H.
    replace (k + Pipeline.webhook_publications x (i :: rest))%nat
      with (k + Pipeline.webhook_publications x [i]
            + Pipeline.webhook_publications x rest)%nat; [exact H|].
    destruct i; simpl; lia.
Qed.

Lemma run_polls initialTokens cycles :
  Pipeline.run initialTokens (map Pipeline.PollCycle cycles) = main initialTokens cycles.
Proof.
  unfold Pipeline.run, main.
  generalize (initializeSeenTokens start initialTokens).
  induction cycles as [|c r IH]; intros st; simpl; [reflexivity|apply IH].
Qed.

Lemma webhook_publications_polls x cycles :
  Pipeline.webhook_publications x (map Pipeline.PollCycle cycles) = 0%nat.
Proof. induction cycles as [|c r IH]; [reflexivity|exact IH]. Qed.

Lemma start_bound x : filter_bound x 0 start.
Proof. unfold filter_bound. simpl. rewrite times_published_nil. lia. Qed.

(** C1 (amended): whatever the startup fetch and the later inputs are, an
    identifier is published at most once by the poller plus once for every
    webhook request that carries it; with poll cycles only (repeated
    identifiers within or across cycles included) that is at most once. *)
Theorem poller_publishes_at_most_once :
  forall (initialTokens : list MobulaToken) (x : string),
    (forall inputs : list Pipeline.Input,
        (times_published x (triggers (Pipeline.run initialTokens inputs))
         <= 1 + Pipeline.webhook_publications x inputs)%nat)
    /\ (forall cycles : list Cycle,
           (times_published x (triggers (main initialTokens cycles)) <= 1)%nat).
Proof.
  intros initialTokens x.
  assert (Hrun : forall inputs,
    (times_published x (triggers (Pipeline.run initialTokens inputs))
     <= 1 + Pipeline.webhook_publications x inputs)%nat).
  { intros inputs.
    pose proof (run_bound x inputs 0%nat _
                  (initialize_bound x 0%nat initialTokens _ (start_bound x))) as H.
    unfold filter_bound, Pipeline.run in *.
    destruct (decide (x ∈ _)); lia. }
  split; [exact Hrun|].
  intros cycles.
  specialize (Hrun (map Pipeline.PollCycle cycles)).
  rewrite run_polls, webhook_publications_polls in Hrun. lia.
Qed.

(** C1 as stated fails: two webhook requests with the same identifier are
    both published, and so is a webhook request for an identifier that the
    poller has already published. *)
Lemma webhook_bypasses_dedup :
  times_published "x1"
    (triggers (Pipeline.run []
       [Pipeline.WebhookPost Scenario.post_x1 1700000000000 (1 # 2) true;
        Pipeline.WebhookPost Scenario.post_x1 1700000000001 (1 # 2) true]))
  = 2%nat
  /\ times_published "x1"
       (triggers (Pipeline.run []
          [Pipeline.PollCycle (Scenario.cycle [Scenario.candidate "x1" 1]);
           Pipeline.WebhookPost Scenario.post_x1 1700000000001 (1 # 2)
             true]))
     = 2%nat.
Proof. split; vm_compute; reflexivity. Qed.

End Dedup.

Section ColdStart.
Import Js Poller.

Import Pipeline (suppressed).

(** An identifier that is in the set is not published by the poll loop. *)
Lemma poll_one_suppressed x n now rnd st token :
  suppressed x n st -> suppressed x n (poll_one now rnd st token).
Proof.
  intros [Hin Hn].
  destruct (poll_one_cases now rnd st token) as [-> | (tid & H1 & H2 & H3 & ->)];
    [split; assumption|].
  split; simpl; [set_solver|].
  rewrite times_published_app, (times_published_broadcast x now rnd token tid H1 H2).
  destruct (decide (tid = x)) as [->|_]; [contradiction|lia].
Qed.

Lemma poll_loop_suppressed x n now rnd tokens :
  forall i st, suppressed x n st -> suppressed x n (poll_loop now rnd i st tokens).
Proof.
  induction tokens as [|token rest IH]; intros i st H; simpl; [exact H|].
  apply IH, poll_one_suppressed, H.
Qed.

Lemma cycles_suppressed x n cycles :
  forall st, suppressed x n st -> suppressed x n (fold_left pollAndBroadcast cycles st).
Proof.
  induction cycles as [|c r IH]; intros st H; simpl; [exact H|].
  apply IH. unfold pollAndBroadcast. apply poll_loop_suppressed, H.
Qed.

Lemma init_one_keeps x st token :
  x ∈ seenTokenIds st -> x ∈ seenTokenIds (init_one st token).
Proof.
  unfold init_one. intros H.
  destruct (or_str (m_id token) (m_address token)) as [tid|]; [|exact H].
  destruct (truthy_str tid); [simpl; set_solver|exact H].
Qed.

Lemma init_one_triggers st token : triggers (init_one st token) = triggers st.
Proof.
  unfold init_one.
  destruct (or_str (m_id token) (m_address token)) as [tid|]; [|reflexivity].
  destruct (truthy_str tid); reflexivity.
Qed.

Lemma initialize_triggers tokens :
  forall st, triggers (initializeSeenTokens st tokens) = triggers st.
Proof.
  unfold initializeSeenTokens.
  induction tokens as [|t r IH]; intros st; simpl; [reflexivity|].
  rewrite IH. apply init_one_triggers.
Qed.

Lemma initialize_keeps x tokens :
  forall st, x ∈ seenTokenIds st -> x ∈ seenTokenIds (initializeSeenTokens st tokens).
Proof.
  unfold initializeSeenTokens.
  induction tokens as [|t r IH]; intros st H; simpl; [exact H|].
  apply IH, init_one_keeps, H.
Qed.

Lemma initialize_sees x token tokens :
  In token tokens ->
  or_str (m_id token) (m_address token) = Some x ->
  truthy_str x = true ->
  forall st, x ∈ seenTokenIds (initializeSeenTokens st tokens).
Proof.
  intros Hin Hk Ht.
  induction tokens as [|t r IH]; [destruct Hin|].
  intros st. destruct Hin as [-> | Hin].
  - change (initializeSeenTokens st (token :: r))
      with (initializeSeenTokens (init_one st token) r).
    apply initialize_keeps. unfold init_one. rewrite Hk, Ht. simpl. set_solver.
  - apply (IH Hin).
Qed.

(** C2: an instrument of the startup fetch is never published, whatever
    the later poll cycles return; in scenario A the only publication is the
    one for [x2]. *)
Theorem cold_start_suppression :
  (forall (initialTokens : list MobulaToken) (cycles : list Cycle)
          (token : MobulaToken) (x : string),
      In token initialTokens ->
      or_str (m_id token) (m_address token) = Some x ->
      truthy_str x = true ->
      times_published x (triggers (main initialTokens cycles)) = 0%nat)
  /\ triggers (initializeSeenTokens start [Scenario.candidate "x1" 1]) = []
  /\ published_ids
       (triggers (main [Scenario.candidate "x1" 1]
                       [Scenario.cycle [Scenario.candidate "x1" 1;
                                        Scenario.candidate "x2" 2]]))
     = ["x2"].
Proof.
  split; [|split; vm_compute; reflexivity].
  intros initialTokens cycles token x Hin Hk Ht.
  unfold main.
  apply (cycles_suppressed x 0%nat cycles).
  split.
  - apply (initialize_sees x token initialTokens Hin Hk Ht).
  - rewrite initialize_triggers. reflexivity.
Qed.

Lemma cold_start_suppression_witness :
  In (Scenario.candidate "x1" 1) [Scenario.candidate "x1" 1]
  /\ times_published "x1"
       (triggers (main [Scenario.candidate "x1" 1]
                       [Scenario.cycle [Scenario.candidate "x1" 1;
                                        Scenario.candidate "x2" 2]]))
     = 0%nat.
Proof.
  split; [left; reflexivity|].
  apply (proj1 cold_start_suppression _ _ (Scenario.candidate "x1" 1) "x1");
    [left; reflexivity | reflexivity | reflexivity].
Defined.

End ColdStart.

(** ** Webhook defaults *)

Section WebhookDefaults.
Import Js Webhook.
Local Open Scope Q_scope.

Lemma toUpperCase_nonempty s : s <> EmptyString -> truthy_str (toUpperCase s) = true.
Proof. destruct s; [congruence|reflexivity]. Qed.

(** C7 (amended): a body other than [null] whose members have the types
    of the provider's payload - [symbol], where present, a string - leads
    to exactly one call of [pusher.trigger] on ['pulse'] /
    ['token.created'], answered with 200 when the broker accepts it.  In
    the event, the symbol is ['UNKNOWN'] when missing or empty and
    upper-cased otherwise, the category is ['new'], and price and 24h
    change are 0 when missing; a missing [volume24h] is the [volume]
    member and a missing [marketCap] the [market_cap] member, each 0 when
    that is missing too; a missing liquidity is 30% of the [volume24h]
    member (so 0 when that is missing) and a missing holder count is the
    draw [Math.floor(Math.random() * 10000)].  For the body of scenario B
    the event has [volume24h = 0], [liquidity = 0] and
    [category = "new"]. *)
Theorem webhook_defaults :
  forall (body : Body) (now : Z) (rnd : Q) (trigger_ok : bool),
    let td := tokenData body in
    let tk := token now rnd td in
    snd (POST (Ok (Members body)) now rnd trigger_ok)
    = [{| channel := "pulse"; event := "token.created"; payload := tk |}]
    /\ http_status (fst (POST (Ok (Members body)) now rnd trigger_ok))
       = (if trigger_ok then 200 else 500)%Z
    /\ category tk = "new"
    /\ (d_symbol td = None \/ d_symbol td = Some EmptyString -> symbol tk = "UNKNOWN")
    /\ (forall s, d_symbol td = Some s -> s <> EmptyString -> symbol tk = toUpperCase s)
    /\ (d_price td = None -> price tk = 0)
    /\ (d_priceChange24h td = None -> priceChange24h tk = 0)
    /\ (d_volume24h td = None -> volume24h tk = or_num_default (d_volume td) 0)
    /\ (d_volume24h td = None -> d_volume td = None -> volume24h tk = 0)
    /\ (d_marketCap td = None -> marketCap tk = or_num_default (d_market_cap td) 0)
    /\ (d_marketCap td = None -> d_market_cap td = None -> marketCap tk = 0)
    /\ (d_liquidity td = None ->
        liquidity tk = or_num_default (d_volume24h td) 0 * (3 # 10))
    /\ (d_liquidity td = None -> d_volume24h td = None -> liquidity tk == 0)
    /\ (d_holders td = None -> holders tk = random_holders rnd)
    /\ (body = Scenario.body_B ->
        symbol tk = "TEST" /\ price tk = 123 # 100 /\ volume24h tk = 0
        /\ liquidity tk == 0 /\ category tk = "new").
Proof.
  intros body now rnd trigger_ok td tk.
  split; [destruct trigger_ok; reflexivity|].
  split; [destruct trigger_ok; reflexivity|].
  split; [reflexivity|].
  subst tk. unfold token. simpl.
  repeat split.
  - intros [-> | ->]; reflexivity.
  - intros s -> Hs. simpl. unfold or_str_default.
    rewrite (toUpperCase_nonempty s Hs). reflexivity.
  - intros ->. reflexivity.
  - intros ->. reflexivity.
  - intros ->. reflexivity.
  - intros -> ->. reflexivity.
  - intros ->. reflexivity.
  - intros -> ->. reflexivity.
  - intros ->. reflexivity.
  - intros -> ->. reflexivity.
  - intros ->. reflexivity.
  - subst td. rewrite H. reflexivity.
  - subst td. rewrite H. reflexivity.
  - subst td. rewrite H. reflexivity.
  - subst td. rewrite H. reflexivity.
Qed.

Lemma webhook_defaults_witness :
  symbol (token 1700000000000 (1 # 2) (tokenData Scenario.body_B)) = "TEST"
  /\ volume24h (token 1700000000000 (1 # 2) (tokenData Scenario.body_B)) = 0
  /\ liquidity (token 1700000000000 (1 # 2) (tokenData Scenario.body_B)) == 0.
Proof.
  destruct (webhook_defaults Scenario.body_B 1700000000000 (1 # 2) true)
    as (_ & _ & _ & _ & Hs & _ & _ & _ & Hv & _ & _ & _ & Hl & _).
  split; [apply (Hs "TEST"); [reflexivity|discriminate]|].
  split; [apply Hv; reflexivity|apply Hl; reflexivity].
Defined.

(** C7 as stated fails.  Not every missing numeric field becomes 0: with
    the body of scenario B the holder count of the event is the random
    draw, here 5000; with a body that carries only [volume24h = 100] the
    liquidity is 30; with a body that carries only [volume = 100] and
    [market_cap = 7] the 24h volume is 100 and the market cap 7.  And the
    endpoint does fail on a body that is [null] and on a [symbol] that is
    not a string: it answers 500 and publishes nothing. *)
Lemma webhook_numeric_defaults_not_zero :
  d_holders (tokenData Scenario.body_B) = None
  /\ holders (token 1700000000000 (1 # 2) (tokenData Scenario.body_B)) = 5000
  /\ d_liquidity (tokenData Scenario.body_volume) = None
  /\ liquidity (token 1700000000000 (1 # 2) (tokenData Scenario.body_volume)) == 30
  /\ ~ liquidity (token 1700000000000 (1 # 2) (tokenData Scenario.body_volume)) == 0
  /\ d_volume24h (tokenData Scenario.body_alternate) = None
  /\ d_marketCap (tokenData Scenario.body_alternate) = None
  /\ volume24h (token 1700000000000 (1 # 2) (tokenData Scenario.body_alternate)) = 100
  /\ marketCap (token 1700000000000 (1 # 2) (tokenData Scenario.body_alternate)) = 7
  /\ POST (Ok JsonNull) 1700000000000 (1 # 2) true
     = ({| http_status := 500; success := false; token_symbol := None;
           timestamp := None |}, [])
  /\ POST (Ok SymbolNotString) 1700000000000 (1 # 2) true
     = ({| http_status := 500; success := false; token_symbol := None;
           timestamp := None |}, []).
Proof.
  repeat split; try reflexivity. vm_compute. discriminate.
Qed.

End WebhookDefaults.

(** ** Subscription manager *)

Section RefCount.
Import Subscription.
Local Open Scope list_scope.



Lemma lifecycle_log_app st l :
  List.filter lifecycle (effects st ++ l) = lifecycle_log st ++ List.filter lifecycle l.
Proof. unfold lifecycle_log. apply List.filter_app. Qed.













End RefCount.

(** ** Time-series buffer: capacity *)

Section Buffer.
Import Chart.
Local Open Scope list_scope.
Context {A : Type}.

Lemma push_bounded_length cap (data : list A) p :
  (length data <= cap)%nat -> (length (push_bounded cap data p) <= cap)%nat.
Proof.
  intros H. unfold push_bounded.
  destruct (Nat.ltb_spec cap (length (data ++ [p]))) as [Hlt|Hle]; [|exact Hle].
  rewrite length_app in Hlt. simpl in Hlt.
  destruct data; simpl in *; [lia|]. rewrite length_app. simpl. lia.
Qed.

Lemma push_bounded_skipn cap (data : list A) p :
  (length data <= cap)%nat ->
  push_bounded cap data p = skipn (length data + 1 - cap) (data ++ [p]).
Proof.
  intros H. unfold push_bounded.
  destruct (Nat.ltb_spec cap (length (data ++ [p]))) as [Hlt|Hle];
    rewrite length_app in *; simpl in *.
  - replace (length data + 1 - cap)%nat with 1%nat by lia.
    destruct data; reflexivity.
  - replace (length data + 1 - cap)%nat with 0%nat by lia. reflexivity.
Qed.

Lemma append_all_length cap (points : list A) :
  forall data,
    (length data <= cap)%nat -> (length (append_all cap data points) <= cap)%nat.
Proof.
  induction points as [|p r IH]; intros data H; simpl; [exact H|].
  apply IH, push_bounded_length, H.
Qed.

Lemma append_all_skipn cap (points : list A) :
  forall data,
    (length data <= cap)%nat ->
    append_all cap data points
    = skipn (length data + length points - cap) (data ++ points).
Proof.
  induction points as [|p r IH]; intros data H.
  - simpl. rewrite app_nil_r.
    replace (length data + 0 - cap)%nat with 0%nat by lia. reflexivity.
  - change (append_all cap data (p :: r))
      with (append_all cap (push_bounded cap data p) r).
    rewrite (IH _ (push_bounded_length cap data p H)).
    unfold push_bounded.
    destruct (Nat.ltb_spec cap (length (data ++ [p]))) as [Hlt|Hle];
      rewrite length_app in *; simpl length in *.
    + assert (length data = cap) as Hc by lia.
      destruct data as [|d data].
      * simpl in *. subst cap. simpl.
        replace (length r - 0)%nat with (length r) by lia.
        replace (S (length r) - 0)%nat with (S (length r)) by lia. reflexivity.
      * simpl tl. simpl length. rewrite length_app. simpl length.
        replace (length data + 1 + length r - cap)%nat with (length r)
          by (simpl in Hc; lia).
        replace (S (length data) + S (length r) - cap)%nat with (S (length r))
          by (simpl in Hc; lia).
        simpl skipn. rewrite <- app_assoc. reflexivity.
    + rewrite <- app_assoc. simpl app.
      f_equal. lia.
Qed.

End Buffer.

Section BufferOfHook.
Import Chart.
Local Open Scope list_scope.

Lemma generateInitialData_length now token n :
  length (generateInitialData now token n) = n.
Proof. unfold generateInitialData. rewrite length_map, length_seq. reflexivity. Qed.

Lemma run_appends points :
  forall h,
    dataPointsRef (run h (map Append points))
    = append_all (callbackMax h) (dataPointsRef h) points
    /\ callbackMax (run h (map Append points)) = callbackMax h.
Proof.
  induction points as [|p r IH]; intros h; [split; reflexivity|].
  simpl. destruct (IH (appendDataPoint p h)) as [H1 H2].
  split; [exact H1|exact H2].
Qed.

(** The capacity invariant of a mounted hook. *)
Lemma step_within cap h e :
  respects cap e ->
  callbackMax h = cap /\ (length (dataPointsRef h) <= cap)%nat ->
  callbackMax (step h e) = cap /\ (length (dataPointsRef (step h e)) <= cap)%nat.
Proof.
  intros He [Hc Hl]. destruct e as [now p| pt |]; simpl in *.
  - destruct He as [Hm Hi]. split; [exact Hm|].
    unfold render. simpl.
    assert (length (dataPointsRef
              (if init_deps_changed p h then init_effect now p h else h)) <= cap)%nat
      as H1.
    { destruct (init_deps_changed p h); [|exact Hl].
      unfold init_effect.
      destruct (String.eqb (initializedTokenRef h) (id (token p))); [exact Hl|].
      simpl. rewrite generateInitialData_length. exact Hi. }
    destruct (price_deps_changed p h); [|exact H1].
    unfold price_effect.
    destruct (Num.strict_eq _ _); [exact H1|].
    simpl. rewrite Hm. apply push_bounded_length, H1.
  - split; [exact Hc|]. rewrite Hc. apply push_bounded_length, Hl.
  - unfold animation_frame. destruct (frames h); simpl; split; assumption.
Qed.

Lemma run_within cap tr :
  forall h,
    Forall (respects cap) tr ->
    callbackMax h = cap /\ (length (dataPointsRef h) <= cap)%nat ->
    callbackMax (run h tr) = cap /\ (length (dataPointsRef (run h tr)) <= cap)%nat.
Proof.
  induction tr as [|e r IH]; intros h Hr H; [exact H|].
  inversion Hr; subst. simpl. apply IH; [assumption|].
  apply step_within; assumption.
Qed.

(** Within the capacity the buffer is first in, first out: for every
    sequence of appends to the empty buffer of a hook that has not been
    seeded, the buffer never exceeds [maxDataPoints] and holds the most
    recent points, the oldest being dropped first; 101 appends at capacity
    100 leave length 100 with the first point gone.  From any buffer
    within capacity (such as a seed of at most [maxDataPoints] points) the
    bound survives every render with that capacity, every append and
    every animation frame. *)
Theorem buffer_bounded_fifo :
  forall (p : Props) (points : list ChartDataPoint),
    let fresh := run (mount p) (map Append points) in
    (length (dataPointsRef fresh) <= maxDataPoints p)%nat
    /\ dataPointsRef fresh = skipn (length points - maxDataPoints p) points
    /\ (maxDataPoints p = 100%nat -> length points = 101%nat ->
        length (dataPointsRef fresh) = 100%nat /\ dataPointsRef fresh = tl points)
    /\ (forall (h : Hook) (tr : list Event),
          callbackMax h = maxDataPoints p ->
          (length (dataPointsRef h) <= maxDataPoints p)%nat ->
          Forall (respects (maxDataPoints p)) tr ->
          (length (dataPointsRef (run h tr)) <= maxDataPoints p)%nat)
    /\ (forall h : Hook,
          callbackMax h = maxDataPoints p ->
          (length (dataPointsRef h) <= maxDataPoints p)%nat ->
          dataPointsRef (run h (map Append points))
          = skipn (length (dataPointsRef h) + length points - maxDataPoints p)
                  (dataPointsRef h ++ points)).
Proof.
  intros p points fresh.
  assert (Hfifo : forall h : Hook,
    callbackMax h = maxDataPoints p ->
    (length (dataPointsRef h) <= maxDataPoints p)%nat ->
    dataPointsRef (run h (map Append points))
    = skipn (length (dataPointsRef h) + length points - maxDataPoints p)
            (dataPointsRef h ++ points)).
  { intros h Hc Hl. rewrite (proj1 (run_appends points h)), Hc.
    apply append_all_skipn, Hl. }
  assert (Hfresh : dataPointsRef fresh
                   = skipn (length points - maxDataPoints p) points).
  { subst fresh. rewrite (Hfifo (mount p)); [reflexivity|reflexivity|simpl; lia]. }
  split; [|split; [exact Hfresh|split; [|split; [|exact Hfifo]]]].
  - subst fresh. rewrite (proj1 (run_appends points (mount p))).
    apply append_all_length. simpl. lia.
  - intros H100 H101. rewrite Hfresh, H100, H101.
    destruct points as [|x r]; [discriminate|].
    simpl in H101. simpl. change (skipn 0 r) with r. split; [lia|reflexivity].
  - intros h tr Hc Hl Hr. apply (run_within (maxDataPoints p) tr h Hr).
    split; assumption.
Qed.

Lemma buffer_bounded_fifo_witness :
  maxDataPoints Scenario.props_D = 100%nat
  /\ length (map Scenario.point_D (seq 0 101)) = 101%nat
  /\ dataPointsRef
       (run (mount Scenario.props_D) (map Append (map Scenario.point_D (seq 0 101))))
     = map Scenario.point_D (seq 1 100).
Proof.
  split; [reflexivity|split; [reflexivity|]].
  destruct (buffer_bounded_fifo Scenario.props_D (map Scenario.point_D (seq 0 101)))
    as (_ & _ & H & _).
  destruct H as [_ H]; [reflexivity | reflexivity | exact H].
Defined.

End BufferOfHook.

(** ** Arithmetic on finite numbers *)

Section FiniteNumbers.
Import Num.
Local Open Scope R_scope.

Lemma large_ge : 1000 <= large.
Proof. unfold large, large_Z. lra. Qed.

Lemma large_below_limit : 1000 * large < limit.
Proof. unfold large, large_Z, limit, limit_Z. lra. Qed.

Lemma fin_in r : Rabs r < limit -> fin r = Fin r.
Proof.
  intros H. unfold fin. destruct (Rlt_dec (Rabs r) limit); [reflexivity|contradiction].
Qed.

(** Results of magnitude up to [1000 * large] are in range. *)
Lemma fin_within r : - (1000 * large) <= r <= 1000 * large -> fin r = Fin r.
Proof.
  intros H. apply fin_in. pose proof large_below_limit. apply Rabs_def1; lra.
Qed.

Lemma add_fin a b :
  - (1000 * large) <= a + b <= 1000 * large -> add (Fin a) (Fin b) = Fin (a + b).
Proof. intros H. unfold add. apply fin_within, H. Qed.

Lemma sub_fin a b :
  - (1000 * large) <= a + - b <= 1000 * large -> sub (Fin a) (Fin b) = Fin (a + - b).
Proof. intros H. unfold sub, neg. apply add_fin, H. Qed.

Lemma mul_fin a b :
  - (1000 * large) <= a * b <= 1000 * large -> mul (Fin a) (Fin b) = Fin (a * b).
Proof. intros H. unfold mul. apply fin_within, H. Qed.

Lemma square_fin a :
  - (1000 * large) <= a * a <= 1000 * large -> square (Fin a) = Fin (a * a).
Proof. intros H. unfold square. apply mul_fin, H. Qed.

Lemma sin_fin a : sin (Fin a) = Fin (Rtrigo_def.sin a).
Proof. reflexivity. Qed.

Lemma div_fin a b :
  b <> 0 -> - (1000 * large) <= a / b <= 1000 * large ->
  div (Fin a) (Fin b) = Fin (a / b).
Proof.
  intros H Hr. unfold div. destruct (Req_dec_T b 0); [contradiction|].
  apply fin_within, Hr.
Qed.

Lemma div_zero_zero : div (Fin 0) (Fin 0) = NaN.
Proof.
  unfold div. destruct (Req_dec_T 0 0) as [_|H]; [reflexivity|contradiction].
Qed.

Lemma max_fin a b : max (Fin a) (Fin b) = Fin (Rmax a b).
Proof.
  unfold max, lt, Rmax.
  destruct (Rlt_dec a b), (Rle_dec a b); try reflexivity; f_equal; lra.
Qed.

Lemma add_nan_r a : add a NaN = NaN.
Proof. destruct a; reflexivity. Qed.

Lemma mul_nan_r a : mul a NaN = NaN.
Proof. destruct a; reflexivity. Qed.

Lemma max_nan_l a : max NaN a = NaN.
Proof. reflexivity. Qed.

Lemma not_ge_nan a : ~ ge NaN a.
Proof. intros H. exact H. Qed.

End FiniteNumbers.

(** A result is within [1000 * large], from the bounds at hand; a concrete
    number is within [large]. *)
Ltac within := pose proof large_ge; split; nra.
Ltac ordinary :=
  simpl INR; unfold Num.large, Num.large_Z; first [lra | split; lra].

(** ** Seeding *)

Section Seeding.
Import Num Chart.
Local Open Scope R_scope.

Lemma nth_error_generate now token n i :
  (i < n)%nat ->
  nth_error (generateInitialData now token n) i
  = Some {| time := point_time now n i; value := point_value token n i |}.
Proof.
  intros H. unfold generateInitialData.
  rewrite nth_error_map.
  assert (nth_error (seq 0 n) i = Some i) as ->; [|reflexivity].
  rewrite <- (Nat.add_0_l i) at 2. generalize 0%nat as k.
  revert i H. induction n as [|n IH]; intros i H k; [lia|].
  destruct i as [|i]; simpl; [f_equal; lia|].
  rewrite IH by lia. f_equal. lia.
Qed.

Lemma smooth_real_range x : 0 <= x <= 1 -> 0 <= smooth_real x <= 1.
Proof.
  intros [H0 H1]. unfold smooth_real.
  destruct (Rlt_dec x (5 / 10)); split; nra.
Qed.

Lemma smoothProgress_fin x :
  0 <= x <= 1 -> smoothProgress (Fin x) = Fin (smooth_real x).
Proof.
  intros Hx. unfold smoothProgress, smooth_real, lt.
  destruct (Rlt_dec x (5 / 10)).
  - rewrite (mul_fin 2 x) by within. rewrite (mul_fin (2 * x) x) by within.
    reflexivity.
  - rewrite (mul_fin (-2) x) by within.
    rewrite (add_fin (-2 * x) 2) by within.
    rewrite (square_fin (-2 * x + 2)) by within.
    rewrite (div_fin ((-2 * x + 2) * (-2 * x + 2)) 2) by (try within; lra).
    rewrite sub_fin by within. reflexivity.
Qed.

Lemma progress_range n i :
  (2 <= n)%nat -> (i < n)%nat -> 0 <= INR i / (INR n + - 1) <= 1.
Proof.
  intros Hn Hi.
  assert (H2 : 2 <= INR n).
  { change 2 with (INR 2). apply le_INR, Hn. }
  assert (Hle : INR i + 1 <= INR n).
  { change 1 with (INR 1). rewrite <- plus_INR. apply le_INR. lia. }
  pose proof (pos_INR i) as Hpos.
  split.
  - unfold Rdiv. apply Rle_mult_inv_pos; lra.
  - apply Rmult_le_reg_r with (INR n + - 1); [lra|].
    unfold Rdiv. rewrite Rmult_assoc, Rinv_l by lra. lra.
Qed.

(** The start price for a 24h change of at least -99 %. *)
Lemma start_range p c :
  0 <= p -> -99 <= c -> 0 <= p / (1 + c / 100) <= 100 * p.
Proof.
  intros Hp Hc.
  assert (Hd : 1 / 100 <= 1 + c / 100) by lra.
  assert (Hi : 0 < / (1 + c / 100) <= 100).
  { split; [apply Rinv_0_lt_compat; lra|].
    replace 100 with (/ (1 / 100)) by field.
    apply Rinv_le_contravar; lra. }
  unfold Rdiv. split; nra.
Qed.

Section FiniteInputs.
Variables (token : Token) (p c s : R) (n : nat).
Hypothesis Hprice : price token = Fin p.
Hypothesis Hp : 0 <= p <= large.
Hypothesis Hchange : priceChange24h token = Fin c.
Hypothesis Hc : -99 <= c <= large.
Hypothesis Hseed : tokenSeed token = Fin s.
Hypothesis Hs : - large <= s <= large.
Hypothesis Hn : (2 <= n)%nat.
Hypothesis Hlen : (Z.of_nat n <= 1000000)%Z.

Lemma INR_n_le : INR n <= large.
Proof.
  rewrite INR_IZR_INZ. apply IZR_le in Hlen.
  unfold large, large_Z. lra.
Qed.

Lemma startPrice_fin : startPrice token = Fin (p / (1 + c / 100)).
Proof.
  unfold startPrice. rewrite Hprice, Hchange.
  pose proof (start_range p c (proj1 Hp) (proj1 Hc)) as Hst.
  rewrite (div_fin c 100) by (try within; lra).
  rewrite (add_fin 1 (c / 100)) by within.
  apply div_fin; [lra|within].
Qed.

Lemma INR_two_le : 2 <= INR n.
Proof. change 2 with (INR 2). apply le_INR, Hn. Qed.

Lemma progress_fin i :
  (i < n)%nat -> progress n i = Fin (INR i / (INR n + - 1)).
Proof.
  intros Hi. unfold progress, of_nat.
  pose proof INR_two_le. pose proof INR_n_le.
  pose proof (progress_range n i Hn Hi).
  rewrite sub_fin by within.
  apply div_fin; [lra|within].
Qed.

Lemma point_value_fin i :
  (i < n)%nat ->
  point_value token n i
  = Fin (value_real (p / (1 + c / 100)) p s (INR i / (INR n + - 1))).
Proof.
  intros Hi. unfold point_value, value_real.
  rewrite (progress_fin i Hi), startPrice_fin, Hprice, Hseed.
  pose proof (progress_range n i Hn Hi) as Hx.
  pose proof (start_range p c (proj1 Hp) (proj1 Hc)) as Hst.
  set (x := INR i / (INR n + - 1)) in *.
  set (start := p / (1 + c / 100)) in *.
  rewrite (smoothProgress_fin x Hx).
  pose proof (smooth_real_range x Hx) as Hm.
  set (m := smooth_real x) in *.
  pose proof PI_RGT_0 as Hpi0. pose proof PI_4 as Hpi4.
  pose proof (SIN_bound (x * PI * 2 + s)) as Hs1.
  pose proof (SIN_bound (x * PI * 4 + s * 2)) as Hs2.
  set (s1 := Rtrigo_def.sin (x * PI * 2 + s)) in *.
  set (s2 := Rtrigo_def.sin (x * PI * 4 + s * 2)) in *.
  assert (Hxpi : 0 <= x * PI <= 4) by (split; nra).
  rewrite (sub_fin p start) by within.
  rewrite (mul_fin (p + - start) m) by within.
  rewrite (add_fin start ((p + - start) * m)) by within.
  rewrite (mul_fin x PI) by within.
  rewrite (mul_fin (x * PI) 2) by within.
  rewrite (add_fin (x * PI * 2) s) by within.
  rewrite (mul_fin (x * PI) 4) by within.
  rewrite (mul_fin s 2) by within.
  rewrite (add_fin (x * PI * 4) (s * 2)) by within.
  rewrite !sin_fin. fold s1 s2.
  rewrite (mul_fin s1 p) by within.
  rewrite (mul_fin (s1 * p) (8 / 1000)) by within.
  rewrite (mul_fin s2 p) by within.
  rewrite (mul_fin (s2 * p) (4 / 1000)) by within.
  rewrite (add_fin (start + (p + - start) * m) (s1 * p * (8 / 1000))) by within.
  rewrite (add_fin (start + (p + - start) * m + s1 * p * (8 / 1000))
                   (s2 * p * (4 / 1000))) by within.
  rewrite (mul_fin p (5 / 10)) by within.
  apply max_fin.
Qed.

(** On finite inputs the clamp holds at every index. *)
Lemma clamped_when_finite i :
  (i < n)%nat ->
  ge (point_value token n i) (mul (price token) (Fin (5 / 10))).
Proof.
  intros Hi. rewrite (point_value_fin i Hi), Hprice.
  rewrite (mul_fin p (5 / 10)) by within. unfold value_real. simpl.
  apply Rmax_r.
Qed.

Lemma first_point_value :
  point_value token n 0
  = Fin (Rmax (p / (1 + c / 100) + wave p s) (p * (5 / 10))).
Proof.
  rewrite point_value_fin by lia. unfold value_real, wave, smooth_real. simpl INR.
  replace (0 / (INR n + - 1)) with 0 by (unfold Rdiv; ring).
  destruct (Rlt_dec 0 (5 / 10)) as [_|H]; [|lra].
  f_equal. f_equal.
  replace (0 * PI * 2 + s) with s by ring.
  replace (0 * PI * 4 + s * 2) with (s * 2) by ring.
  ring.
Qed.

Lemma last_progress : INR (n - 1) / (INR n + - 1) = 1.
Proof.
  rewrite minus_INR by lia. simpl INR.
  pose proof INR_two_le. field. lra.
Qed.

Lemma last_point_value :
  point_value token n (n - 1) = Fin (Rmax (p + wave p s) (p * (5 / 10))).
Proof.
  rewrite point_value_fin by lia. rewrite last_progress.
  unfold value_real, wave, smooth_real.
  destruct (Rlt_dec 1 (5 / 10)) as [H|_]; [lra|].
  f_equal. f_equal.
  replace (1 * PI * 2 + s) with (s + 2 * INR 1 * PI) by (simpl; ring).
  replace (1 * PI * 4 + s * 2) with (s * 2 + 2 * INR 2 * PI) by (simpl; ring).
  rewrite !sin_period. unfold Rdiv. ring.
Qed.

End FiniteInputs.

Lemma wave_between p s :
  0 <= p -> - (12 / 1000 * p) <= wave p s <= 12 / 1000 * p.
Proof.
  intros Hp. unfold wave.
  pose proof (SIN_bound s) as [H1 H2].
  pose proof (SIN_bound (s * 2)) as [H3 H4].
  split; nra.
Qed.

Lemma wave_bound p s : 0 <= p -> Rabs (wave p s) <= 12 / 1000 * p.
Proof. intros Hp. apply Rabs_le, wave_between, Hp. Qed.

End Seeding.

(** ** Seeding: anchoring, determinism, clamping *)

Section SeedingClaims.
Import Num Chart.
Local Open Scope R_scope.

Lemma last_point_time now n : (1 <= n)%nat -> point_time now n (n - 1) = now.
Proof. intros H. unfold point_time. lia. Qed.

(** C6 (amended): for a price [p] between 0 and 10^300, a 24h change [c]
    of at least -99 %, a seed [s] of magnitude at most 10^300 and
    between two and a million points, the first point is [p / (1 + c/100)] plus the
    oscillation [wave p s], clamped from below at [p / 2]; the last
    point, stamped with the clock, is [p + w] for an oscillation [w]; both
    oscillations are at most 1.2 % of [p] in magnitude. *)
Theorem seed_anchoring :
  forall (now : Z) (token : Token) (p c s : R) (n : nat),
    price token = Fin p -> 0 <= p <= large ->
    priceChange24h token = Fin c -> -99 <= c <= large ->
    tokenSeed token = Fin s -> - large <= s <= large ->
    (2 <= n)%nat -> (Z.of_nat n <= 1000000)%Z ->
    nth_error (generateInitialData now token n) 0
    = Some {| time := point_time now n 0;
              value := Fin (Rmax (p / (1 + c / 100) + wave p s) (p * (5 / 10))) |}
    /\ Rabs (wave p s) <= 12 / 1000 * p
    /\ exists w : R,
         nth_error (generateInitialData now token n) (n - 1)
         = Some {| time := now; value := Fin (p + w) |}
         /\ Rabs w <= 12 / 1000 * p.
Proof.
  intros now token p c s n Hp Hpr Hc Hcr Hs Hsr Hn Hlen.
  pose proof (wave_between p s (proj1 Hpr)) as Hw.
  split; [|split; [exact (wave_bound p s (proj1 Hpr))|]].
  - rewrite nth_error_generate by lia.
    rewrite (first_point_value token p c s n Hp Hpr Hc Hcr Hs Hsr Hn Hlen).
    reflexivity.
  - exists (wave p s). split; [|exact (wave_bound p s (proj1 Hpr))].
    rewrite nth_error_generate by lia.
    rewrite (last_point_value token p c s n Hp Hpr Hc Hcr Hs Hsr Hn Hlen).
    rewrite last_point_time by lia.
    rewrite Rmax_left by lra. reflexivity.
Qed.

Lemma seed_of_id_1 : tokenSeed (Scenario.chart_token "1" "T" 10 25) = Fin 1.
Proof.
  unfold tokenSeed.
  assert (parseInt (id (Scenario.chart_token "1" "T" 10 25)) = Fin 1) as ->
    by reflexivity.
  unfold or, truthy.
  destruct (Req_dec_T 1 0); [lra|reflexivity].
Qed.

Lemma seed_anchoring_witness :
  exists w : R,
    nth_error (generateInitialData 1700000000000 (Scenario.chart_token "1" "T" 10 25) 24)
              (24 - 1)
    = Some {| time := 1700000000000; value := Fin (10 + w) |}
    /\ Rabs w <= 12 / 1000 * 10.
Proof.
  apply (seed_anchoring 1700000000000 (Scenario.chart_token "1" "T" 10 25) 10 25 1 24);
    [reflexivity | ordinary | reflexivity | ordinary | exact seed_of_id_1
    | ordinary | lia | lia].
Defined.

Lemma wave_10_1_positive : 0 < wave 10 1.
Proof.
  unfold wave.
  pose proof PI2_1 as Hpi.
  assert (0 < Rtrigo_def.sin 1) as H1 by (apply sin_gt_0; lra).
  assert (0 < Rtrigo_def.sin (1 * 2)) as H2 by (apply sin_gt_0; lra).
  nra.
Qed.

(** C6 as stated fails: for the instrument with identifier ["1"], price 10
    and a 24h change of 25 %, the last of 24 seeded points is greater
    than 10, and the first is greater than 8. *)
Lemma last_point_differs_from_price :
  exists first last : ChartDataPoint,
    nth_error (generateInitialData 1700000000000
                 (Scenario.chart_token "1" "T" 10 25) 24) 0 = Some first
    /\ nth_error (generateInitialData 1700000000000
                    (Scenario.chart_token "1" "T" 10 25) 24) 23 = Some last
    /\ value last <> Fin 10
    /\ value first <> Fin (10 / (1 + 25 / 100)).
Proof.
  pose proof wave_10_1_positive as Hw.
  eexists. eexists.
  split; [apply nth_error_generate; lia|].
  split; [apply nth_error_generate; lia|].
  simpl value.
  change 23%nat with (24 - 1)%nat.
  rewrite (last_point_value _ 10 25 1 24), (first_point_value _ 10 25 1 24);
    try reflexivity; try lia; try exact seed_of_id_1; try ordinary.
  split; intros H; injection H as H; revert H; unfold Rmax;
    destruct (Rle_dec _ _); lra.
Qed.

(** The values of the seed depend on the instrument only through its
    price, its 24h change and its seed, and not on the clock. *)
Lemma values_depend_on_seed now1 now2 t1 t2 n :
  price t1 = price t2 ->
  priceChange24h t1 = priceChange24h t2 ->
  tokenSeed t1 = tokenSeed t2 ->
  map value (generateInitialData now1 t1 n) = map value (generateInitialData now2 t2 n).
Proof.
  intros Hp Hc Hs. unfold generateInitialData. rewrite !List.map_map. simpl.
  apply map_ext. intros i. unfold point_value, startPrice.
  rewrite Hp, Hc, Hs. reflexivity.
Qed.

Lemma history_depends_on_seed now t1 t2 n :
  price t1 = price t2 ->
  priceChange24h t1 = priceChange24h t2 ->
  tokenSeed t1 = tokenSeed t2 ->
  generateInitialData now t1 n = generateInitialData now t2 n.
Proof.
  intros Hp Hc Hs. unfold generateInitialData.
  apply map_ext. intros i. unfold point_value, startPrice.
  rewrite Hp, Hc, Hs. reflexivity.
Qed.

Lemma times_of_history now t n :
  map time (generateInitialData now t n) = map (point_time now n) (seq 0 n).
Proof. unfold generateInitialData. rewrite List.map_map. reflexivity. Qed.

(** C5 (amended): the seeded history is a function of the clock reading,
    the number of points and the price, 24h change and seed of the
    instrument, where the seed is [parseInt(id) || symbol.charCodeAt(0)].
    Two runs on instruments that agree on these yield the same values
    whatever the clock, the same history under the same clock, and time
    stamps that are the clock reading minus whole hours. *)
Theorem seeding_deterministic :
  forall (now1 now2 : Z) (t1 t2 : Token) (n : nat),
    price t1 = price t2 ->
    priceChange24h t1 = priceChange24h t2 ->
    tokenSeed t1 = tokenSeed t2 ->
    map value (generateInitialData now1 t1 n) = map value (generateInitialData now2 t2 n)
    /\ (now1 = now2 -> generateInitialData now1 t1 n = generateInitialData now2 t2 n)
    /\ map time (generateInitialData now1 t1 n)
       = map (fun i => (now1 - (Z.of_nat n - Z.of_nat i - 1) * 3600000)%Z) (seq 0 n).
Proof.
  intros now1 now2 t1 t2 n Hp Hc Hs.
  split; [apply values_depend_on_seed; assumption|].
  split; [intros ->; apply history_depends_on_seed; assumption|].
  rewrite times_of_history. apply map_ext. intros i. unfold point_time. lia.
Qed.

Lemma seeding_deterministic_witness :
  map value (generateInitialData 0 (Scenario.chart_token "t1" "T" 10 25) 24)
  = map value (generateInitialData 1 (Scenario.chart_token "t2" "T" 10 25) 24).
Proof.
  apply (seeding_deterministic 0 1 (Scenario.chart_token "t1" "T" 10 25)
           (Scenario.chart_token "t2" "T" 10 25) 24); reflexivity.
Defined.

(** C5 as stated fails twice: the same instrument seeded under two clock
    readings has two different histories, and the instruments ["t1"] and
    ["t2"] with the same symbol have the same history. *)
Lemma seeding_claim_counterexample :
  generateInitialData 0 (Scenario.chart_token "t1" "T" 10 25) 24
  <> generateInitialData 1 (Scenario.chart_token "t1" "T" 10 25) 24
  /\ id (Scenario.chart_token "t1" "T" 10 25) <> id (Scenario.chart_token "t2" "T" 10 25)
  /\ generateInitialData 0 (Scenario.chart_token "t1" "T" 10 25) 24
     = generateInitialData 0 (Scenario.chart_token "t2" "T" 10 25) 24.
Proof.
  split; [|split].
  - intros H. apply (f_equal (map time)) in H.
    rewrite !times_of_history in H. vm_compute in H. discriminate.
  - discriminate.
  - apply history_depends_on_seed; reflexivity.
Qed.

Lemma point_value_total_loss token n i :
  price token = Fin 0 ->
  priceChange24h token = Fin (-100) ->
  point_value token n i = NaN.
Proof.
  intros Hp Hc. unfold point_value, startPrice. rewrite Hp, Hc.
  rewrite (div_fin (-100) 100) by first [lra | within].
  rewrite (add_fin 1 (-100 / 100)) by within.
  replace (1 + -100 / 100) with 0 by lra.
  rewrite div_zero_zero. reflexivity.
Qed.

Lemma progress_single : progress 1 0 = NaN.
Proof.
  unfold progress, of_nat. rewrite sub_fin by (simpl INR; within).
  replace (INR 1 + - (1)) with 0 by (simpl; lra).
  simpl INR. apply div_zero_zero.
Qed.

Lemma smoothProgress_nan : smoothProgress NaN = NaN.
Proof. reflexivity. Qed.

Lemma point_value_single token : point_value token 1 0 = NaN.
Proof.
  unfold point_value. rewrite progress_single, smoothProgress_nan.
  rewrite mul_nan_r, add_nan_r. reflexivity.
Qed.

(** C10 fails on the code: for an instrument with price 0 and a 24h
    change of -100 % the start price is 0/0, so every seeded value is NaN,
    and so is the only value of a seed of one point, whose progress is
    0/0; NaN is not greater than or equal to anything. *)
Theorem seeded_value_nan :
  (forall now,
      Forall (fun pt => value pt = NaN /\ ~ ge (value pt) (mul (Fin 0) (Fin (5 / 10))))
             (generateInitialData now (Scenario.chart_token "1" "T" 0 (-100)) 24))
  /\ (forall now token,
         map value (generateInitialData now token 1) = [NaN]).
Proof.
  split.
  - intros now. apply List.Forall_forall. intros pt Hin.
    unfold generateInitialData in Hin. apply in_map_iff in Hin as (i & <- & _).
    simpl value. rewrite point_value_total_loss by reflexivity.
    split; [reflexivity|apply not_ge_nan].
  - intros now token. simpl. rewrite point_value_single. reflexivity.
Qed.

End SeedingClaims.

(** ** Seeding happens once per identifier *)

Section NoReseeding.
Import Chart.
Local Open Scope list_scope.

Lemma init_effect_seeded now p h :
  id (token p) = initializedTokenRef h -> init_effect now p h = h.
Proof.
  intros H. unfold init_effect. rewrite H, String.eqb_refl. reflexivity.
Qed.

Lemma price_effect_keeps now p h :
  initializedTokenRef (price_effect now p h) = initializedTokenRef h
  /\ seedings (price_effect now p h) = seedings h.
Proof.
  unfold price_effect. destruct (Num.strict_eq _ _); split; reflexivity.
Qed.

Lemma step_keeps_seed h e :
  renders_id (initializedTokenRef h) e ->
  initializedTokenRef (step h e) = initializedTokenRef h
  /\ seedings (step h e) = seedings h.
Proof.
  destruct e as [now p|pt|]; simpl; intros H.
  - unfold render. rewrite (init_effect_seeded now p h H). simpl.
    destruct (init_deps_changed p h), (price_deps_changed p h);
      try (split; reflexivity); apply price_effect_keeps.
  - split; reflexivity.
  - unfold animation_frame. destruct (frames h); split; reflexivity.
Qed.

Lemma run_keeps_seed tr :
  forall h,
    Forall (renders_id (initializedTokenRef h)) tr ->
    initializedTokenRef (run h tr) = initializedTokenRef h
    /\ seedings (run h tr) = seedings h.
Proof.
  induction tr as [|e r IH]; intros h H; [split; reflexivity|].
  inversion H as [|? ? He Hr]; subst. simpl.
  destruct (step_keeps_seed h e He) as [H1 H2].
  rewrite <- H1 in Hr. destruct (IH _ Hr) as [H3 H4].
  rewrite H3, H4. split; assumption.
Qed.

(** With the identifier unchanged, a step leaves the buffer alone or
    appends one point to it. *)
Lemma step_pushes h e :
  renders_id (initializedTokenRef h) e ->
  exists pushes, dataPointsRef (step h e) = push_all (dataPointsRef h) pushes.
Proof.
  destruct e as [now p|pt|]; simpl; intros H.
  - unfold render. rewrite (init_effect_seeded now p h H). simpl.
    destruct (init_deps_changed p h), (price_deps_changed p h);
      try (exists []; reflexivity);
      unfold price_effect; destruct (Num.strict_eq _ _);
      try (exists []; reflexivity);
      exists [(maxDataPoints p, {| time := now; value := price (token p) |})];
      reflexivity.
  - exists [(callbackMax h, pt)]. reflexivity.
  - exists []. unfold animation_frame. destruct (frames h); reflexivity.
Qed.

Lemma run_pushes tr :
  forall h,
    Forall (renders_id (initializedTokenRef h)) tr ->
    exists pushes, dataPointsRef (run h tr) = push_all (dataPointsRef h) pushes.
Proof.
  induction tr as [|e r IH]; intros h H; [exists []; reflexivity|].
  inversion H as [|? ? He Hr]; subst. simpl.
  destruct (step_keeps_seed h e He) as [H1 _].
  rewrite <- H1 in Hr. destruct (IH _ Hr) as [ps2 E2].
  destruct (step_pushes h e He) as [ps1 E1].
  exists (ps1 ++ ps2). rewrite E2, E1. unfold push_all.
  rewrite fold_left_app. reflexivity.
Qed.

Lemma first_render_seeds now p :
  id (token p) <> EmptyString ->
  initializedTokenRef (render now p (mount p)) = id (token p)
  /\ seedings (render now p (mount p)) = [id (token p)].
Proof.
  intros H.
  unfold render, mount, init_deps_changed, price_deps_changed, init_effect. simpl.
  destruct (id (token p)) as [|a r] eqn:E; [congruence|].
  unfold price_effect. simpl.
  destruct (Num.strict_eq _ _); split; reflexivity.
Qed.

(** C9: in a hook whose buffer has been seeded for an identifier, no
    later render with that identifier, whatever the other fields and the
    options are, and no append or animation frame calls
    [generateInitialData] again: the buffer only receives appended points.
    A hook mounted with a non-empty identifier therefore seeds exactly once
    as long as the identifier stays. *)
Theorem no_reseeding :
  forall (h : Hook) (tr : list Event),
    Forall (renders_id (initializedTokenRef h)) tr ->
    seedings (run h tr) = seedings h
    /\ initializedTokenRef (run h tr) = initializedTokenRef h
    /\ (exists pushes, dataPointsRef (run h tr) = push_all (dataPointsRef h) pushes)
    /\ (forall now p,
           h = render now p (mount p) -> id (token p) <> EmptyString ->
           seedings (run h tr) = [id (token p)]).
Proof.
  intros h tr H.
  destruct (run_keeps_seed tr h H) as [H1 H2].
  split; [exact H2|split; [exact H1|split; [exact (run_pushes tr h H)|]]].
  intros now p -> Hid. rewrite H2.
  apply (first_render_seeds now p Hid).
Qed.

Lemma no_reseeding_witness :
  seedings
    (run (render 1 Scenario.props_D (mount Scenario.props_D))
         [Render 2 Scenario.props_D_moved; Append (Scenario.point_D 7); Frame;
          Render 3 Scenario.props_D])
  = ["t1"].
Proof.
  destruct (no_reseeding (render 1 Scenario.props_D (mount Scenario.props_D))
              [Render 2 Scenario.props_D_moved; Append (Scenario.point_D 7); Frame;
               Render 3 Scenario.props_D]) as (_ & _ & _ & H).
  - destruct (first_render_seeds 1%Z Scenario.props_D) as [E _]; [discriminate|].
    rewrite E. repeat constructor.
  - apply (H 1%Z Scenario.props_D); [reflexivity|discriminate].
Defined.

End NoReseeding.

(** ** The client store *)

Section StoreFacts.
Import Store.
Local Open Scope list_scope.

Lemma existsb_id_In x (l : list Token) :
  existsb (fun t => String.eqb (id t) x) l = true <-> In x (map id l).
Proof.
  induction l as [|t r IH]; simpl; [split; [discriminate|tauto]|].
  rewrite orb_true_iff, IH, String.eqb_eq. tauto.
Qed.

Lemma existsb_id_not_In x (l : list Token) :
  existsb (fun t => String.eqb (id t) x) l = false <-> ~ In x (map id l).
Proof.
  rewrite <- existsb_id_In. destruct (existsb _ l); split; congruence.
Qed.

(** X1: [addNewToken] never lets two tokens with one identifier into the
    list, keeps every token that is there, makes sure the identifier of the
    payload is present, and is idempotent. *)
Theorem addNewToken_unique_idempotent :
  forall (t : Token) (state : TokensState),
    (List.NoDup (ids state) -> List.NoDup (ids (addNewToken t state)))
    /\ In (id t) (ids (addNewToken t state))
    /\ incl (tokens state) (tokens (addNewToken t state))
    /\ addNewToken t (addNewToken t state) = addNewToken t state
    /\ (In (id t) (ids state) -> addNewToken t state = state)
    /\ (~ In (id t) (ids state) -> tokens (addNewToken t state) = t :: tokens state).
Proof.
  intros t state. unfold addNewToken, ids.
  destruct (existsb (fun t0 => String.eqb (id t0) (id t)) (tokens state)) eqn:E; simpl.
  - pose proof (proj1 (existsb_id_In _ _) E) as Hin.
    rewrite E. simpl.
    repeat split; auto; try (intros x Hx; exact Hx); try contradiction.
  - pose proof (proj1 (existsb_id_not_In _ _) E) as Hnin.
    rewrite String.eqb_refl. simpl.
    repeat split; auto.
    + intros Hnd. constructor; assumption.
    + intros x Hx. right. exact Hx.
    + contradiction.
Qed.

Lemma addNewToken_unique_idempotent_witness :
  List.NoDup (ids (with_tokens initialState TokensRoute.mockTokens))
  /\ List.NoDup (ids (addNewToken (Client.of_payload
                               (Webhook.token 1700000000000 (1 # 2)
                                  (Webhook.tokenData Scenario.body_B)))
                            (with_tokens initialState TokensRoute.mockTokens))).
Proof.
  assert (H : List.NoDup (ids (with_tokens initialState TokensRoute.mockTokens))).
  { unfold ids. simpl. repeat constructor; simpl; intuition discriminate. }
  split; [exact H|].
  apply (proj1 (addNewToken_unique_idempotent _ _)), H.
Defined.

Lemma update_first_ids p g (l : list Token) :
  (forall t, id (g t) = id t) -> map id (update_first p g l) = map id l.
Proof.
  intros Hg. induction l as [|t r IH]; simpl; [reflexivity|].
  destruct (p t); simpl; [rewrite Hg|rewrite IH]; reflexivity.
Qed.

Lemma update_first_none p g (l : list Token) :
  (forall t, In t l -> p t = false) -> update_first p g l = l.
Proof.
  induction l as [|t r IH]; intros H; simpl; [reflexivity|].
  rewrite (H t) by (left; reflexivity). f_equal. apply IH.
  intros x Hx. apply H. right. exact Hx.
Qed.

Lemma update_first_app_skip p g (pre l : list Token) :
  (forall t, In t pre -> p t = false) ->
  update_first p g (pre ++ l) = pre ++ update_first p g l.
Proof.
  induction pre as [|t r IH]; intros H; simpl; [reflexivity|].
  rewrite (H t) by (left; reflexivity). f_equal. apply IH.
  intros x Hx. apply H. right. exact Hx.
Qed.

(** With distinct identifiers the first match is the only match. *)
Lemma update_first_unique x g (l : list Token) :
  List.NoDup (map id l) ->
  update_first (fun t => String.eqb (id t) x) g l
  = map (fun t => if String.eqb (id t) x then g t else t) l.
Proof.
  induction l as [|t r IH]; intros Hnd; simpl; [reflexivity|].
  inversion Hnd as [|? ? Hnin Hr]; subst.
  destruct (String.eqb_spec (id t) x) as [E|E].
  - f_equal. symmetry.
    transitivity (map (fun y : Token => y) r); [|apply List.map_id].
    apply map_ext_in.
    intros y Hy. destruct (String.eqb_spec (id y) x) as [E'|_]; [|reflexivity].
    exfalso. apply Hnin. rewrite E, <- E'. apply in_map, Hy.
  - f_equal. apply IH, Hr.
Qed.

(** X2: [updateTokenPrice] changes neither the number, the order nor the
    identifiers of the tokens and does nothing for an unknown identifier;
    when the identifiers are distinct it sets price and 24h change of the
    token with that identifier and leaves all others as they are. *)
Theorem updateTokenPrice_targets_one :
  forall (u : PriceUpdate) (state : TokensState),
    ids (updateTokenPrice u state) = ids state
    /\ (~ In (u_id u) (ids state) -> updateTokenPrice u state = state)
    /\ (List.NoDup (ids state) ->
        tokens (updateTokenPrice u state)
        = map (fun t => if String.eqb (id t) (u_id u) then set_price u t else t)
              (tokens state)).
Proof.
  intros u state. unfold updateTokenPrice, ids. simpl.
  split; [apply update_first_ids; reflexivity|split].
  - intros Hnin. rewrite update_first_none; [destruct state; reflexivity|].
    intros t Ht. apply String.eqb_neq. intros E. apply Hnin. rewrite <- E.
    apply in_map, Ht.
  - apply update_first_unique.
Qed.

Lemma updateTokenPrice_targets_one_witness :
  map price
      (tokens (updateTokenPrice
                 {| u_id := "2"; u_price := 1; u_priceChange24h := 0 |}
                 (with_tokens initialState TokensRoute.mockTokens)))
  = [(16688 # 100)%Q; 1%Q; (13 # 1000000)%Q].
Proof.
  rewrite (proj2 (proj2 (updateTokenPrice_targets_one
             {| u_id := "2"; u_price := 1; u_priceChange24h := 0 |}
             (with_tokens initialState TokensRoute.mockTokens)))).
  - reflexivity.
  - unfold ids. simpl. repeat constructor; simpl; intuition discriminate.
Defined.

Lemma update_first_twice p g g' (l : list Token) :
  (forall t, p (g' t) = p t) ->
  update_first p g (update_first p g' l) = update_first p (fun t => g (g' t)) l.
Proof.
  intros Hp. induction l as [|t r IH]; simpl; [reflexivity|].
  destruct (p t) eqn:E; simpl.
  - rewrite Hp, E. reflexivity.
  - rewrite E, IH. reflexivity.
Qed.

Lemma update_first_ext p g g' (l : list Token) :
  (forall t, g t = g' t) -> update_first p g l = update_first p g' l.
Proof.
  intros H. induction l as [|t r IH]; simpl; [reflexivity|].
  destruct (p t); [rewrite H|rewrite IH]; reflexivity.
Qed.

Lemma update_first_map_inv {B} (f : Token -> B) p g (l : list Token) :
  (forall t, f (g t) = f t) -> map f (update_first p g l) = map f l.
Proof.
  intros H. induction l as [|t r IH]; simpl; [reflexivity|].
  destruct (p t); simpl; [rewrite H|rewrite IH]; reflexivity.
Qed.

(** X3: toggling a favourite twice shows every heart as before, although an
    absent flag has become an explicit [false]; a third toggle gives what
    the first gave.  Prices, identifiers and order are never touched. *)
Theorem toggleFavorite_twice :
  forall (x : string) (state : TokensState),
    map favorite (tokens (toggleFavorite x (toggleFavorite x state)))
    = map favorite (tokens state)
    /\ toggleFavorite x (toggleFavorite x (toggleFavorite x state))
       = toggleFavorite x state
    /\ ids (toggleFavorite x state) = ids state
    /\ map price (tokens (toggleFavorite x state)) = map price (tokens state).
Proof.
  intros x state. unfold toggleFavorite, ids. simpl.
  split; [|split; [|split]].
  - rewrite update_first_twice by reflexivity.
    apply update_first_map_inv. intros t. unfold favorite, flip_favorite. simpl.
    destruct (isFavorite t) as [[|]|]; reflexivity.
  - f_equal. rewrite (update_first_twice _ flip_favorite flip_favorite) by reflexivity.
    rewrite update_first_twice by reflexivity.
    apply update_first_ext. intros t. unfold flip_favorite. simpl.
    destruct (isFavorite t) as [[|]|]; reflexivity.
  - apply update_first_ids. reflexivity.
  - apply update_first_map_inv. reflexivity.
Qed.

End StoreFacts.

(** ** From the broker to the store, and the pages *)

Section ClientFacts.
Import Client.
Local Open Scope list_scope.

Lemma addNewToken_idem t state :
  Store.addNewToken t (Store.addNewToken t state) = Store.addNewToken t state.
Proof.
  unfold Store.addNewToken.
  destruct (existsb (fun t0 => String.eqb (Store.id t0) (Store.id t))
                    (Store.tokens state)) eqn:E; simpl.
  - rewrite E. reflexivity.
  - rewrite String.eqb_refl. reflexivity.
Qed.

(** However many active handlers are bound, one event is one [addNewToken]. *)
Lemma deliver_any handlers t :
  forall state,
    deliver handlers t state
    = if existsb (fun b : bool => b) handlers then Store.addNewToken t state else state.
Proof.
  unfold deliver.
  induction handlers as [|b r IH]; intros state; simpl; [reflexivity|].
  rewrite IH. destruct b; simpl.
  - rewrite addNewToken_idem. destruct (existsb _ r); reflexivity.
  - reflexivity.
Qed.

Lemma addNewToken_invariant t state :
  List.NoDup (Store.ids state) ->
  List.NoDup (Store.ids (Store.addNewToken t state))
  /\ (forall x, In x (Store.ids (Store.addNewToken t state))
                <-> x = Store.id t \/ In x (Store.ids state))
  /\ incl (Store.tokens state) (Store.tokens (Store.addNewToken t state)).
Proof.
  intros Hnd. unfold Store.addNewToken, Store.ids.
  destruct (existsb (fun t0 => String.eqb (Store.id t0) (Store.id t))
                    (Store.tokens state)) eqn:E; simpl.
  - apply existsb_id_In in E. repeat split; auto.
    + intros [->|H]; assumption.
    + intros x Hx. exact Hx.
  - apply existsb_id_not_In in E. repeat split.
    + constructor; assumption.
    + intros [H|H]; [left; symmetry; exact H|right; exact H].
    + intros [->|H]; [left; reflexivity|right; exact H].
    + intros x Hx. right. exact Hx.
Qed.

Lemma fold_addNewToken (events : list Trigger) :
  forall state,
    List.NoDup (Store.ids state) ->
    List.NoDup (Store.ids
      (fold_left (fun s e => Store.addNewToken (of_payload (payload e)) s) events state))
    /\ (forall x,
          In x (Store.ids
            (fold_left (fun s e => Store.addNewToken (of_payload (payload e)) s)
                       events state))
          <-> In x (map (fun e => id (payload e)) events) \/ In x (Store.ids state))
    /\ incl (Store.tokens state)
            (Store.tokens
               (fold_left (fun s e => Store.addNewToken (of_payload (payload e)) s)
                          events state)).
Proof.
  induction events as [|e r IH]; intros state Hnd; simpl.
  - split; [exact Hnd|split].
    + intros x. split; [intros H; right; exact H|intros [[]|H]; exact H].
    + intros x Hx. exact Hx.
  - destruct (addNewToken_invariant (of_payload (payload e)) state Hnd)
      as (H1 & H2 & H3).
    destruct (IH _ H1) as (I1 & I2 & I3).
    split; [exact I1|split].
    + intros x. rewrite I2, H2. simpl. split.
      * intros [H|[H|H]]; [left; right; exact H|left; left; symmetry; exact H|
                            right; exact H].
      * intros [[H|H]|H]; [right; left; symmetry; exact H|left; exact H|
                            right; right; exact H].
    + intros x Hx. apply I3, H3, Hx.
Qed.

Lemma deliver_log_active handlers log state :
  existsb (fun b : bool => b) handlers = true ->
  deliver_log handlers log state
  = fold_left (fun s e => Store.addNewToken (of_payload (payload e)) s)
              (List.filter is_token_created log) state.
Proof.
  intros H. unfold deliver_log.
  generalize (List.filter is_token_created log) as events. intros events.
  revert state. induction events as [|e r IH]; intros state; simpl; [reflexivity|].
  rewrite deliver_any, H. apply IH.
Qed.

(** X4: whatever the broker delivers - duplicates included - and however
    many hooks have an active handler bound, a store whose identifiers are
    distinct keeps them distinct, holds every published identifier
    afterwards, loses no token, and gains no identifier that was not
    published; several active handlers act like one. *)
Theorem store_shows_each_event_once :
  forall (handlers : list bool) (log : list Trigger) (state : Store.TokensState),
    List.NoDup (Store.ids state) ->
    existsb (fun b : bool => b) handlers = true ->
    List.NoDup (Store.ids (deliver_log handlers log state))
    /\ (forall x, In x (Store.ids (deliver_log handlers log state))
                  <-> In x (published_ids log) \/ In x (Store.ids state))
    /\ incl (Store.tokens state) (Store.tokens (deliver_log handlers log state))
    /\ deliver_log handlers log state = deliver_log [true] log state.
Proof.
  intros handlers log state Hnd Hact.
  rewrite (deliver_log_active handlers log state Hact).
  rewrite (deliver_log_active [true] log state eq_refl).
  destruct (fold_addNewToken (List.filter is_token_created log) state Hnd)
    as (H1 & H2 & H3).
  repeat split; auto; apply H2.
Qed.

Lemma store_shows_each_event_once_witness :
  Store.ids
    (deliver_log [true; true]
       (Poller.triggers
          (Pipeline.run []
             [Pipeline.WebhookPost Scenario.post_x1
                1700000000000 (1 # 2) true;
              Pipeline.WebhookPost Scenario.post_x1
                1700000000001 (1 # 2) true]))
       Store.initialState)
  = ["x1"]
  /\ List.NoDup
       (Store.ids
          (deliver_log [true; true]
             (Poller.triggers
                (Pipeline.run []
                   [Pipeline.WebhookPost Scenario.post_x1
                      1700000000000 (1 # 2) true;
                    Pipeline.WebhookPost Scenario.post_x1
                      1700000000001 (1 # 2) true]))
             Store.initialState)).
Proof.
  split; [reflexivity|].
  apply store_shows_each_event_once; [constructor|reflexivity].
Defined.

Lemma tick_loop_spec draws snapshot :
  forall pre i state,
    Store.tokens state = pre ++ snapshot ->
    List.NoDup (map Store.id (pre ++ snapshot)) ->
    Store.tokens (tick_loop draws i snapshot state)
    = pre ++ mapi_from i (ticked draws) snapshot.
Proof.
  induction snapshot as [|token rest IH]; intros pre i state Ht Hnd.
  - simpl. rewrite Ht. reflexivity.
  - pose (u := {| Store.u_id := Store.id token;
                 Store.u_price := fst (simulatePriceUpdate (fst (draws i))
                                         (snd (draws i)) token);
                 Store.u_priceChange24h := snd (simulatePriceUpdate (fst (draws i))
                                                  (snd (draws i)) token) |}).
    change (tick_loop draws i (token :: rest) state)
      with (tick_loop draws (S i) rest (Store.updateTokenPrice u state)).
    change (mapi_from i (ticked draws) (token :: rest))
      with (ticked draws i token :: mapi_from (S i) (ticked draws) rest).
    assert (Hpre : forall t, In t pre ->
                             String.eqb (Store.id t) (Store.id token) = false).
    { intros t Hin. apply String.eqb_neq. intros E.
      rewrite List.map_app in Hnd. simpl in Hnd.
      apply NoDup_remove_2 in Hnd. apply Hnd. apply in_or_app. left.
      rewrite <- E. apply in_map, Hin. }
    assert (Hup : Store.tokens (Store.updateTokenPrice u state)
                  = (pre ++ [ticked draws i token]) ++ rest).
    { unfold Store.updateTokenPrice. simpl. rewrite Ht.
      rewrite update_first_app_skip by exact Hpre. simpl.
      rewrite String.eqb_refl. rewrite <- app_assoc. reflexivity. }
    rewrite (IH (pre ++ [ticked draws i token]) (S i) _ Hup).
    + rewrite <- app_assoc. reflexivity.
    + rewrite <- app_assoc. simpl.
      rewrite List.map_app in *. simpl in *. exact Hnd.
Qed.

Lemma mapi_ticked_ids draws (l : list Store.Token) :
  forall k, map Store.id (mapi_from k (ticked draws) l) = map Store.id l.
Proof.
  induction l as [|t r IH]; intros k; simpl; [reflexivity|].
  rewrite IH. reflexivity.
Qed.

(** X5: when the identifiers in the store are distinct, one firing of the
    3 s interval gives every token the simulated update computed from its
    own price and 24h change, and leaves number, order, identifiers and all
    other fields as they are. *)
Theorem priceTick_updates_each :
  forall (draws : nat -> Q * Q) (state : Store.TokensState),
    List.NoDup (Store.ids state) ->
    Store.tokens (priceTick draws state)
    = mapi_from 0 (ticked draws) (Store.tokens state)
    /\ Store.ids (priceTick draws state) = Store.ids state.
Proof.
  intros draws state Hnd.
  assert (H : Store.tokens (priceTick draws state)
              = mapi_from 0 (ticked draws) (Store.tokens state)).
  { apply (tick_loop_spec draws (Store.tokens state) [] 0%nat state);
      [reflexivity|exact Hnd]. }
  split; [exact H|].
  unfold Store.ids. rewrite H. apply mapi_ticked_ids.
Qed.

Lemma priceTick_updates_each_witness :
  map Store.price
      (Store.tokens
         (priceTick (fun _ => (1, 1)%Q)
            (Store.with_tokens Store.initialState
               [TokensRoute.mock "1" "A" "a" 100 0 0 0 0 0 "i" "new";
                TokensRoute.mock "2" "B" "b" 200 0 0 0 0 0 "i" "new"])))
  = map Store.price
      (mapi_from 0 (ticked (fun _ => (1, 1)%Q))
         [TokensRoute.mock "1" "A" "a" 100 0 0 0 0 0 "i" "new";
          TokensRoute.mock "2" "B" "b" 200 0 0 0 0 0 "i" "new"]).
Proof.
  assert (H : List.NoDup
                (Store.ids
                   (Store.with_tokens Store.initialState
                      [TokensRoute.mock "1" "A" "a" 100 0 0 0 0 0 "i" "new";
                       TokensRoute.mock "2" "B" "b" 200 0 0 0 0 0 "i" "new"]))).
  { unfold Store.ids. simpl. repeat constructor; simpl; intuition discriminate. }
  rewrite (proj1 (priceTick_updates_each (fun _ => (1, 1)%Q) _ H)). reflexivity.
Defined.

(** X6: for draws of [Math.random()] in [0, 1) a simulated update moves a
    non-negative price by at most 1 % and the 24h change by at most a
    quarter of a percentage point; a positive price stays positive. *)
Theorem simulatePriceUpdate_bounds :
  forall (r1 r2 : Q) (token : Store.Token),
    (0 <= r1 -> r1 < 1 -> 0 <= r2 -> r2 < 1 -> 0 <= Store.price token ->
     let update := simulatePriceUpdate r1 r2 token in
     (99 # 100) * Store.price token <= fst update
     /\ fst update <= (101 # 100) * Store.price token
     /\ Store.priceChange24h token - (1 # 4) <= snd update
     /\ snd update < Store.priceChange24h token + (1 # 4)
     /\ (0 < Store.price token -> 0 < fst update))%Q.
Proof.
  intros r1 r2 token H1 H2 H3 H4 Hp. unfold simulatePriceUpdate. simpl.
  repeat split; Lqa.nra.
Qed.

Lemma simulatePriceUpdate_bounds_witness :
  ((99 # 100) * 100
   <= fst (simulatePriceUpdate (1 # 2) (1 # 4)
             (TokensRoute.mock "1" "A" "a" 100 0 0 0 0 0 "i" "new")))%Q.
Proof.
  apply (simulatePriceUpdate_bounds (1 # 2) (1 # 4)
           (TokensRoute.mock "1" "A" "a" 100 0 0 0 0 0 "i" "new"));
    simpl; Lqa.lra.
Defined.

Lemma column_cons c t l :
  column c (t :: l)
  = if match Store.category t with Some c' => String.eqb c' c | None => false end
    then t :: column c l else column c l.
Proof. reflexivity. Qed.

Lemma column_In c l t :
  In t (column c l) <-> In t l /\ Store.category t = Some c.
Proof.
  unfold column. rewrite filter_In.
  destruct (Store.category t) as [c'|].
  - rewrite String.eqb_eq. split; intros [H1 H2]; split; congruence.
  - split; intros [_ H]; discriminate.
Qed.

Lemma columns_In l t :
  In t (newPairs l ++ finalStretch l ++ migrated l)
  <-> In t l
      /\ (Store.category t = Some "new"
          \/ Store.category t = Some "final-stretch"
          \/ Store.category t = Some "migrated").
Proof.
  unfold newPairs, finalStretch, migrated.
  rewrite !in_app_iff, !column_In. tauto.
Qed.

(** X7: a broadcast token that is new to the store appears at the top of
    the New Pairs column and leaves the other two columns as they were;
    the three columns together show the tokens of the store that carry one
    of the three categories, and no others. *)
Theorem new_token_tops_new_pairs :
  forall (e : Trigger) (state : Store.TokensState),
    category (payload e) = "new" ->
    ~ In (id (payload e)) (Store.ids state) ->
    let state' := deliver [true] (of_payload (payload e)) state in
    newPairs (Store.tokens state') = of_payload (payload e) :: newPairs (Store.tokens state)
    /\ finalStretch (Store.tokens state') = finalStretch (Store.tokens state)
    /\ migrated (Store.tokens state') = migrated (Store.tokens state)
    /\ (forall t, In t (newPairs (Store.tokens state') ++ finalStretch (Store.tokens state')
                        ++ migrated (Store.tokens state'))
                  <-> In t (Store.tokens state')
                      /\ (Store.category t = Some "new"
                          \/ Store.category t = Some "final-stretch"
                          \/ Store.category t = Some "migrated")).
Proof.
  intros e state Hc Hnew state'.
  assert (Ht : Store.tokens state' = of_payload (payload e) :: Store.tokens state).
  { subst state'. rewrite deliver_any. simpl. unfold Store.addNewToken.
    apply existsb_id_not_In in Hnew. simpl in Hnew. simpl. rewrite Hnew.
    reflexivity. }
  assert (Hcat : Store.category (of_payload (payload e)) = Some "new").
  { simpl. rewrite Hc. reflexivity. }
  split; [|split; [|split]].
  - rewrite Ht. unfold newPairs. rewrite column_cons, Hcat. reflexivity.
  - rewrite Ht. unfold finalStretch. rewrite column_cons, Hcat. reflexivity.
  - rewrite Ht. unfold migrated. rewrite column_cons, Hcat. reflexivity.
  - intros t. apply columns_In.
Qed.

Lemma new_token_tops_new_pairs_witness :
  newPairs
    (Store.tokens
       (deliver [true]
          (of_payload (Webhook.token 1700000000000 (1 # 2)
                         (Webhook.tokenData (Scenario.body_with_id "x1"))))
          (Store.with_tokens Store.initialState TokensRoute.mockTokens)))
  = of_payload (Webhook.token 1700000000000 (1 # 2)
                  (Webhook.tokenData (Scenario.body_with_id "x1")))
    :: newPairs TokensRoute.mockTokens.
Proof.
  apply (new_token_tops_new_pairs
           {| channel := "pulse"; event := "token.created";
              payload := Webhook.token 1700000000000 (1 # 2)
                           (Webhook.tokenData (Scenario.body_with_id "x1")) |}
           (Store.with_tokens Store.initialState TokensRoute.mockTokens)).
  - reflexivity.
  - unfold Store.ids. simpl. intuition discriminate.
Defined.

End ClientFacts.

(** ** The snapshot endpoint *)

Section TokensRouteFacts.
Import Js TokensRoute.
Local Open Scope list_scope.

Lemma mapi_of_coin total rnd coins :
  forall i tokens,
    mapi_throw_from i (of_coin total rnd) coins = Ok tokens ->
    length tokens = length coins
    /\ map Store.id tokens = map (fun k => pretty (S k)) (seq i (length coins))
    /\ map Store.category tokens
       = map (fun k => Some (category_of total k)) (seq i (length coins)).
Proof.
  induction coins as [|c r IH]; intros i tokens H; simpl in H.
  - injection H as <-. repeat split.
  - destruct c as [coin|]; simpl in H; [|discriminate].
    destruct (mapi_throw_from (S i) (of_coin total rnd) r) as [ts|] eqn:E;
      simpl in H; [|discriminate].
    injection H as <-. destruct (IH _ _ E) as (H1 & H2 & H3).
    simpl. rewrite H1, H2, H3. repeat split.
Qed.

Lemma mapi_of_coin_null total rnd coins :
  forall i, In None coins -> mapi_throw_from i (of_coin total rnd) coins = Throw.
Proof.
  induction coins as [|c r IH]; intros i Hin; [destruct Hin|].
  simpl. destruct c as [coin|]; [|reflexivity].
  destruct Hin as [H|H]; [discriminate|].
  simpl. rewrite (IH (S i) H). reflexivity.
Qed.

Lemma mapi_of_coin_some total rnd coins :
  forall i, ~ In None coins ->
            exists tokens, mapi_throw_from i (of_coin total rnd) coins = Ok tokens.
Proof.
  induction coins as [|c r IH]; intros i Hnin; [exists []; reflexivity|].
  destruct c as [coin|]; [|exfalso; apply Hnin; left; reflexivity].
  destruct (IH (S i)) as [ts Hts]; [intros H; apply Hnin; right; exact H|].
  simpl. rewrite Hts. simpl. eauto.
Qed.

Lemma transform_ok rnd gecko tokens :
  transform rnd gecko = Ok tokens ->
  exists response coins,
    gecko = Ok response /\ Poller.ok response = true
    /\ Poller.json response = Ok (Some coins)
    /\ mapi_throw_from 0 (of_coin (length coins) rnd) coins = Ok tokens.
Proof.
  unfold transform, bind. destruct gecko as [response|]; [|discriminate].
  destruct (Poller.ok response) eqn:Eok; simpl; [|discriminate].
  unfold Poller.GeckoBody in *.
  destruct (Poller.json response) as [[coins|]|] eqn:Ej; try discriminate.
  intros H. exists response, coins. auto.
Qed.

Lemma NoDup_map_injective {A B} (f : A -> B) (l : list A) :
  (forall x y, f x = f y -> x = y) -> List.NoDup l -> List.NoDup (map f l).
Proof.
  intros Hf Hl. induction Hl as [|x l Hnin Hl IH]; simpl; constructor; [|exact IH].
  intros Hin. apply in_map_iff in Hin as (y & Hy & Hin).
  apply Hf in Hy. subst y. contradiction.
Qed.

Lemma pretty_succ_NoDup i n :
  List.NoDup (map (fun k => pretty (S k)) (seq i n)).
Proof.
  apply NoDup_map_injective; [|apply seq_NoDup].
  intros x y H. apply (inj pretty) in H. congruence.
Qed.

(** X8: the identifiers the snapshot endpoint hands out are always pairwise
    distinct - they are the decimal positions 1, 2, ... of the coins, or
    those of the mock tokens - so a store filled by [setTokens] from it
    satisfies the precondition under which later broadcasts and price
    updates touch one token each. *)
Theorem snapshot_ids_distinct :
  forall (rnd : nat -> Q) (gecko : result (Poller.Response Poller.GeckoBody)),
    List.NoDup (map Store.id (GET rnd gecko))
    /\ List.NoDup (Store.ids (Store.setTokens (GET rnd gecko) Store.initialState))
    /\ (forall tokens,
          transform rnd gecko = Ok tokens ->
          map Store.id (GET rnd gecko)
          = map (fun k => pretty (S k)) (seq 0 (length tokens))).
Proof.
  intros rnd gecko.
  assert (H : List.NoDup (map Store.id (GET rnd gecko))).
  { unfold GET. destruct (transform rnd gecko) as [tokens|] eqn:E.
    - destruct (transform_ok _ _ _ E) as (response & coins & _ & _ & _ & Hm).
      destruct (mapi_of_coin _ _ _ _ _ Hm) as (_ & -> & _).
      apply pretty_succ_NoDup.
    - simpl. repeat constructor; simpl; intuition discriminate. }
  split; [exact H|split; [exact H|]].
  intros tokens E. unfold GET. rewrite E.
  destruct (transform_ok _ _ _ E) as (response & coins & _ & _ & _ & Hm).
  destruct (mapi_of_coin _ _ _ _ _ Hm) as (Hl & -> & _).
  rewrite Hl. reflexivity.
Qed.

Lemma snapshot_ids_distinct_witness :
  map Store.id
      (GET no_draw (gecko_answer [example_coin "sol" 150; example_coin "jup" 1]))
  = ["1"; "2"].
Proof.
  destruct (snapshot_ids_distinct no_draw
              (gecko_answer [example_coin "sol" 150; example_coin "jup" 1]))
    as (_ & _ & H).
  rewrite (H (GET no_draw (gecko_answer [example_coin "sol" 150; example_coin "jup" 1]))
             eq_refl).
  reflexivity.
Defined.

(** X9: the endpoint answers with the mock tokens when the provider call
    raised, was not OK, had no readable array as body, or had a [null]
    entry in it (one such entry discards all coins); otherwise it answers
    with one token per coin. *)
Theorem snapshot_fallback :
  forall (rnd : nat -> Q) (gecko : result (Poller.Response Poller.GeckoBody)),
    (match gecko with
     | Throw => True
     | Ok response =>
         Poller.ok response = false
         \/ match Poller.json response with
            | Ok (Some coins) => In None coins
            | _ => True
            end
     end -> GET rnd gecko = mockTokens)
    /\ (forall response coins,
          gecko = Ok response -> Poller.ok response = true ->
          Poller.json response = Ok (Some coins) -> ~ In None coins ->
          length (GET rnd gecko) = length coins
          /\ transform rnd gecko = Ok (GET rnd gecko)).
Proof.
  intros rnd gecko. split.
  - unfold GET, transform, bind. destruct gecko as [response|]; [|reflexivity].
    unfold Poller.GeckoBody in *.
    intros [H|H]; [rewrite H; reflexivity|].
    destruct (Poller.ok response); simpl; [|reflexivity].
    destruct (Poller.json response) as [[coins|]|]; try reflexivity.
    rewrite (mapi_of_coin_null _ _ _ _ H). reflexivity.
  - intros response coins -> Hok Hj Hnin.
    destruct (mapi_of_coin_some (length coins) rnd coins 0%nat Hnin) as [ts Hts].
    assert (E : transform rnd (Ok response) = Ok ts).
    { unfold transform, bind. rewrite Hok. simpl.
      unfold Poller.GeckoBody in *. rewrite Hj. exact Hts. }
    unfold GET. rewrite E. split; [|reflexivity].
    apply (mapi_of_coin _ _ _ _ _ Hts).
Qed.

Lemma snapshot_fallback_witness :
  GET (fun _ => 0%Q) (Ok {| Poller.status := 429; Poller.json := Throw |}) = mockTokens.
Proof.
  apply (proj1 (snapshot_fallback (fun _ => 0%Q)
                  (Ok {| Poller.status := 429; Poller.json := Throw |}))).
  left. reflexivity.
Defined.

Lemma column_new_prefix a b (l : list Store.Token) :
  forall i,
    map Store.category l
    = map (fun k => Some (category_between a b k)) (seq i (length l)) ->
    Client.column "new" l = firstn (a - i) l.
Proof.
  induction l as [|t r IH]; intros i H; [rewrite firstn_nil; reflexivity|].
  simpl in H. injection H as Ht Hr.
  rewrite column_cons, Ht, (IH (S i) Hr). unfold category_between.
  destruct (Nat.ltb_spec i a) as [Hlt|Hge].
  - replace (a - i)%nat with (S (a - S i)) by lia. reflexivity.
  - replace (a - i)%nat with 0%nat by lia.
    replace (a - S i)%nat with 0%nat by lia.
    destruct (i <? b)%nat; reflexivity.
Qed.

Lemma column_migrated_suffix a b (l : list Store.Token) :
  (a <= b)%nat ->
  forall i,
    map Store.category l
    = map (fun k => Some (category_between a b k)) (seq i (length l)) ->
    Client.column "migrated" l = skipn (b - i) l.
Proof.
  intros Hab.
  induction l as [|t r IH]; intros i H; [rewrite skipn_nil; reflexivity|].
  simpl in H. injection H as Ht Hr.
  rewrite column_cons, Ht, (IH (S i) Hr). unfold category_between.
  destruct (Nat.ltb_spec i a) as [Hlt|Hge].
  - replace (b - i)%nat with (S (b - S i)) by lia. reflexivity.
  - destruct (Nat.ltb_spec i b) as [Hlt'|Hge'].
    + replace (b - i)%nat with (S (b - S i)) by lia. reflexivity.
    + replace (b - i)%nat with 0%nat by lia.
      replace (b - S i)%nat with 0%nat by lia. reflexivity.
Qed.

Lemma column_final_middle a b (l : list Store.Token) :
  (a <= b)%nat ->
  forall i,
    map Store.category l
    = map (fun k => Some (category_between a b k)) (seq i (length l)) ->
    Client.column "final-stretch" l = firstn (b - Nat.max a i) (skipn (a - i) l).
Proof.
  intros Hab.
  induction l as [|t r IH]; intros i H;
    [rewrite skipn_nil, firstn_nil; reflexivity|].
  simpl in H. injection H as Ht Hr.
  rewrite column_cons, Ht, (IH (S i) Hr). unfold category_between.
  destruct (Nat.ltb_spec i a) as [Hlt|Hge].
  - replace (a - i)%nat with (S (a - S i)) by lia.
    replace (Nat.max a (S i)) with (Nat.max a i) by lia. reflexivity.
  - replace (a - i)%nat with 0%nat by lia.
    replace (a - S i)%nat with 0%nat by lia.
    replace (Nat.max a i) with i by lia.
    replace (Nat.max a (S i)) with (S i) by lia.
    destruct (Nat.ltb_spec i b) as [Hlt'|Hge'].
    + replace (b - i)%nat with (S (b - S i)) by lia. reflexivity.
    + replace (b - i)%nat with 0%nat by lia.
      replace (b - S i)%nat with 0%nat by lia. reflexivity.
Qed.

(** X10: when the provider answers with [n] coins, the endpoint puts them
    into three consecutive groups in the order received - the first
    [n / 3] are 'new', the next [2n / 3 - n / 3] 'final-stretch', the rest
    'migrated' - so the three columns of the pulse page, read one after the
    other, are the answer itself. *)
Theorem snapshot_categories_in_thirds :
  forall (rnd : nat -> Q) (gecko : result (Poller.Response Poller.GeckoBody))
         (tokens : list Store.Token),
    transform rnd gecko = Ok tokens ->
    let n := length tokens in
    tokens = Client.newPairs tokens ++ Client.finalStretch tokens ++ Client.migrated tokens
    /\ length (Client.newPairs tokens) = (n / 3)%nat
    /\ length (Client.finalStretch tokens) = (2 * n / 3 - n / 3)%nat
    /\ length (Client.migrated tokens) = (n - 2 * n / 3)%nat.
Proof.
  intros rnd gecko tokens E n.
  destruct (transform_ok _ _ _ E) as (response & coins & _ & _ & _ & Hm).
  destruct (mapi_of_coin _ _ _ _ _ Hm) as (Hl & _ & Hc).
  rewrite <- Hl in Hc. fold n in Hc.
  assert (n / 3 <= 2 * n / 3)%nat as Hab by (apply Nat.Div0.div_le_mono; lia).
  assert (2 * n / 3 <= n)%nat as Hbn.
  { apply Nat.Div0.div_le_upper_bound. lia. }
  unfold Client.newPairs, Client.finalStretch, Client.migrated.
  change (fun k => Some (category_of n k))
    with (fun k => Some (category_between (n / 3) (2 * n / 3) k)) in Hc.
  remember (n / 3)%nat as a eqn:Ea. remember (2 * n / 3)%nat as b eqn:Eb.
  rewrite (column_new_prefix a b tokens 0%nat Hc),
          (column_final_middle a b tokens Hab 0%nat Hc),
          (column_migrated_suffix a b tokens Hab 0%nat Hc).
  rewrite !Nat.sub_0_r, Nat.max_0_r.
  assert (Hs : skipn b tokens = skipn (b - a) (skipn a tokens)).
  { rewrite skipn_skipn. f_equal. lia. }
  split; [|split; [|split]].
  - rewrite Hs, firstn_skipn, firstn_skipn. reflexivity.
  - rewrite length_firstn. fold n. lia.
  - rewrite length_firstn, length_skipn. fold n. lia.
  - rewrite length_skipn. fold n. lia.
Qed.

Lemma snapshot_categories_in_thirds_witness :
  map Store.category (GET no_draw (gecko_answer (repeat (example_coin "c" 1) 4)))
  = [Some "new"; Some "final-stretch"; Some "migrated"; Some "migrated"]
  /\ length (Client.newPairs (GET no_draw (gecko_answer (repeat (example_coin "c" 1) 4))))
     = (4 / 3)%nat.
Proof.
  split; [reflexivity|].
  apply (snapshot_categories_in_thirds no_draw
           (gecko_answer (repeat (example_coin "c" 1) 4))
           (GET no_draw (gecko_answer (repeat (example_coin "c" 1) 4)))).
  reflexivity.
Defined.

End TokensRouteFacts.

(** ** More on the poller *)

Section PollerFacts.
Import Js Poller.
Import Pipeline (suppressed).
Local Open Scope list_scope.

Lemma truthy_str_spec s : truthy_str s = true <-> s <> EmptyString.
Proof.
  unfold truthy_str. destruct (String.eqb_spec s EmptyString); simpl; split;
    congruence.
Qed.

Lemma candidate_key_spec token x :
  candidate_key token = Some x
  <-> or_str (m_id token) (m_address token) = Some x /\ truthy_str x = true.
Proof.
  unfold candidate_key.
  destruct (or_str (m_id token) (m_address token)) as [s|].
  - destruct (truthy_str s) eqn:E; split.
    + intros [= ->]. auto.
    + intros [[= ->] _]. reflexivity.
    + discriminate.
    + intros [[= ->] H]. congruence.
  - split; [discriminate|intros [H _]; discriminate].
Qed.

Lemma poll_one_publishes now rnd st token x :
  candidate_key token = Some x ->
  x ∉ seenTokenIds st ->
  poll_one now rnd st token
  = {| seenTokenIds := {[ x ]} ∪ seenTokenIds st;
       triggers := triggers st ++ [broadcastNewToken now rnd token] |}.
Proof.
  intros Hk Hx. apply candidate_key_spec in Hk as [Hk Ht].
  unfold poll_one. rewrite Hk, Ht. simpl.
  rewrite bool_decide_eq_false_2 by exact Hx. reflexivity.
Qed.

Lemma poll_one_skips now rnd st token :
  (forall x, candidate_key token = Some x -> x ∈ seenTokenIds st) ->
  poll_one now rnd st token = st.
Proof.
  intros H.
  destruct (poll_one_cases now rnd st token) as [E|(tid & H1 & H2 & H3 & _)];
    [exact E|].
  exfalso. apply H3, H, candidate_key_spec. auto.
Qed.

(** What one iteration does to an identifier that is not the one of its
    token. *)
Lemma poll_one_other now rnd st token x :
  candidate_key token <> Some x ->
  times_published x (triggers (poll_one now rnd st token))
  = times_published x (triggers st)
  /\ (x ∈ seenTokenIds (poll_one now rnd st token) <-> x ∈ seenTokenIds st).
Proof.
  intros Hk.
  destruct (poll_one_cases now rnd st token) as [->|(tid & H1 & H2 & H3 & ->)];
    [split; reflexivity|].
  assert (tid <> x) as Hne.
  { intros ->. apply Hk, candidate_key_spec. auto. }
  simpl. rewrite times_published_app,
    (times_published_broadcast x now rnd token tid H1 H2).
  destruct (decide (tid = x)); [contradiction|].
  split; [lia|set_solver].
Qed.

Lemma poll_loop_publishes_new x now rnd tokens :
  forall i st token,
    In token tokens ->
    candidate_key token = Some x ->
    x ∉ seenTokenIds st ->
    suppressed x (S (times_published x (triggers st))) (poll_loop now rnd i st tokens).
Proof.
  induction tokens as [|t r IH]; intros i st token Hin Hk Hx; [destruct Hin|].
  simpl.
  destruct (decide (candidate_key t = Some x)) as [E|E].
  - apply poll_loop_suppressed.
    rewrite (poll_one_publishes now (rnd i) st t x E Hx).
    apply candidate_key_spec in E as [E1 E2].
    split; simpl; [set_solver|].
    rewrite times_published_app, (times_published_broadcast x now (rnd i) t x E1 E2).
    destruct (decide (x = x)); [lia|contradiction].
  - destruct Hin as [->|Hin]; [contradiction|].
    destruct (poll_one_other now (rnd i) st t x E) as [H1 H2].
    rewrite <- H1. apply (IH (S i) _ token Hin Hk). rewrite H2. exact Hx.
Qed.

(** X11: a poll cycle announces every discovery: an identifier that some
    fetched candidate carries and that is not in the set yet is published
    exactly once by the cycle, however often it occurs in the fetched list,
    and is in the set afterwards. *)
Theorem new_identifier_published_once :
  forall (st : State) (c : Cycle) (token : MobulaToken) (x : string),
    In token (fetched c) ->
    candidate_key token = Some x ->
    x ∉ seenTokenIds st ->
    times_published x (triggers (pollAndBroadcast st c))
    = S (times_published x (triggers st))
    /\ x ∈ seenTokenIds (pollAndBroadcast st c).
Proof.
  intros st c token x Hin Hk Hx.
  destruct (poll_loop_publishes_new x (cycle_now c) (cycle_rnd c) (fetched c)
              0%nat st token Hin Hk Hx) as [H1 H2].
  split; assumption.
Qed.

Lemma new_identifier_published_once_witness :
  times_published "x2"
    (triggers (pollAndBroadcast (initializeSeenTokens start [Scenario.candidate "x1" 1])
                 (Scenario.cycle [Scenario.candidate "x1" 1; Scenario.candidate "x2" 2;
                                  Scenario.candidate "x2" 3])))
  = 1%nat.
Proof.
  apply (new_identifier_published_once
           (initializeSeenTokens start [Scenario.candidate "x1" 1])
           (Scenario.cycle [Scenario.candidate "x1" 1; Scenario.candidate "x2" 2;
                            Scenario.candidate "x2" 3])
           (Scenario.candidate "x2" 2) "x2").
  - right. left. reflexivity.
  - reflexivity.
  - apply (bool_decide_eq_false_1
             ("x2" ∈ seenTokenIds (initializeSeenTokens start
                                     [Scenario.candidate "x1" 1]))).
    vm_compute. reflexivity.
Defined.

Lemma poll_loop_skips now rnd tokens :
  forall i st,
    (forall token x, In token tokens -> candidate_key token = Some x ->
                     x ∈ seenTokenIds st) ->
    poll_loop now rnd i st tokens = st.
Proof.
  induction tokens as [|t r IH]; intros i st H; simpl; [reflexivity|].
  rewrite poll_one_skips by (intros x Hx; apply (H t x); [left; reflexivity|exact Hx]).
  apply IH. intros token x Hin Hk. apply (H token x); [right; exact Hin|exact Hk].
Qed.

Lemma poll_one_grows now rnd st token :
  seenTokenIds st ⊆ seenTokenIds (poll_one now rnd st token)
  /\ (forall x, candidate_key token = Some x ->
                x ∈ seenTokenIds (poll_one now rnd st token)).
Proof.
  destruct (poll_one_cases now rnd st token) as [E|(tid & H1 & H2 & H3 & E)].
  - rewrite E. split; [set_solver|].
    intros x Hk. destruct (decide (x ∈ seenTokenIds st)) as [Hin|Hnin]; [exact Hin|].
    rewrite (poll_one_publishes now rnd st token x Hk Hnin) in E.
    exfalso. apply Hnin. rewrite <- E. simpl. set_solver.
  - rewrite E. simpl. split; [set_solver|].
    intros x Hk. apply candidate_key_spec in Hk as [Hk _].
    rewrite H1 in Hk. injection Hk as <-. set_solver.
Qed.

Lemma poll_loop_grows now rnd tokens :
  forall i st,
    seenTokenIds st ⊆ seenTokenIds (poll_loop now rnd i st tokens)
    /\ (forall token x, In token tokens -> candidate_key token = Some x ->
                        x ∈ seenTokenIds (poll_loop now rnd i st tokens)).
Proof.
  induction tokens as [|t r IH]; intros i st; simpl.
  - split; [set_solver|intros token x []].
  - destruct (IH (S i) (poll_one now (rnd i) st t)) as [H1 H2].
    destruct (poll_one_grows now (rnd i) st t) as [G1 G2].
    split; [set_solver|].
    intros token x [->|Hin] Hk; [apply H1, G2, Hk|apply (H2 token x Hin Hk)].
Qed.

(** X12: polling a list whose usable identifiers are all in the set
    publishes nothing and changes nothing; so a cycle that fetches what the
    previous cycle fetched is silent, whatever the clock and the draws. *)
Theorem repolling_is_silent :
  forall (st : State) (c c' : Cycle),
    ((forall token x, In token (fetched c) -> candidate_key token = Some x ->
                      x ∈ seenTokenIds st) ->
     pollAndBroadcast st c = st)
    /\ (fetched c' = fetched c ->
        pollAndBroadcast (pollAndBroadcast st c) c' = pollAndBroadcast st c).
Proof.
  intros st c c'. split.
  - intros H. unfold pollAndBroadcast. apply poll_loop_skips, H.
  - intros E. unfold pollAndBroadcast at 1. apply poll_loop_skips. rewrite E.
    apply poll_loop_grows.
Qed.

Lemma repolling_is_silent_witness :
  pollAndBroadcast
    (pollAndBroadcast start
       (Scenario.cycle [Scenario.candidate "x1" 1; Scenario.candidate "x2" 2]))
    (Scenario.cycle [Scenario.candidate "x1" 1; Scenario.candidate "x2" 2])
  = pollAndBroadcast start
      (Scenario.cycle [Scenario.candidate "x1" 1; Scenario.candidate "x2" 2]).
Proof.
  apply (proj2 (repolling_is_silent start
                  (Scenario.cycle [Scenario.candidate "x1" 1; Scenario.candidate "x2" 2])
                  (Scenario.cycle [Scenario.candidate "x1" 1; Scenario.candidate "x2" 2]))).
  reflexivity.
Defined.

End PollerFacts.

(** ** The events on the wire *)

Section WireFacts.
Import Js.
Local Open Scope list_scope.

Lemma pretty_N_go_nonempty x :
  forall s, s <> EmptyString -> pretty_N_go x s <> EmptyString.
Proof.
  induction (N.lt_wf_0 x) as [x _ IH]. intros s Hs.
  destruct (N.eq_dec x 0%N) as [->|Hx].
  - rewrite pretty_N_go_0. exact Hs.
  - rewrite pretty_N_go_step by lia. apply IH; [|discriminate].
    apply N.div_lt; lia.
Qed.

Lemma pretty_Z_nonempty (z : Z) : pretty z <> EmptyString.
Proof.
  destruct z as [|p|p].
  - discriminate.
  - change (pretty (Z.pos p)) with (pretty (N.pos p)).
    unfold pretty, pretty_N. destruct (decide (N.pos p = 0%N)); [discriminate|].
    rewrite pretty_N_go_step by lia. apply pretty_N_go_nonempty. discriminate.
  - discriminate.
Qed.

Lemma or_str_default_nonempty a d :
  d <> EmptyString -> or_str_default a d <> EmptyString.
Proof.
  intros Hd. unfold or_str_default. destruct a as [s|]; [|exact Hd].
  destruct (truthy_str s) eqn:E; [|exact Hd]. apply truthy_str_spec, E.
Qed.

Lemma broadcast_well_formed now rnd token :
  well_formed_event (Poller.broadcastNewToken now rnd token).
Proof.
  unfold well_formed_event. simpl.
  repeat split; try apply or_str_default_nonempty; try discriminate;
    apply pretty_Z_nonempty.
Qed.

Lemma webhook_well_formed req now rnd trigger_ok :
  Forall well_formed_event (snd (Webhook.POST req now rnd trigger_ok)).
Proof.
  unfold Webhook.POST. destruct req as [[| |body]|]; try constructor.
  assert (well_formed_event
            {| channel := "pulse"; event := "token.created";
               payload := Webhook.token now rnd (Webhook.tokenData body) |}) as H.
  { unfold well_formed_event. simpl.
    repeat split; try apply or_str_default_nonempty; try discriminate;
      apply pretty_Z_nonempty. }
  destruct trigger_ok; simpl; (constructor; [exact H|constructor]).
Qed.

Lemma poll_loop_well_formed now rnd tokens :
  forall i st,
    Forall well_formed_event (Poller.triggers st) ->
    Forall well_formed_event (Poller.triggers (Poller.poll_loop now rnd i st tokens)).
Proof.
  induction tokens as [|t r IH]; intros i st H; simpl; [exact H|].
  apply IH.
  destruct (poll_one_cases now (rnd i) st t) as [->|(tid & _ & _ & _ & ->)];
    [exact H|].
  simpl. apply Forall_app. split; [exact H|].
  constructor; [apply broadcast_well_formed|constructor].
Qed.

(** X13: whatever the two producers are fed, every call they make to the
    broker is on channel 'pulse' with event 'token.created', and its payload
    has a non-empty identifier, symbol, name and chain and the category
    'new'. *)
Theorem every_event_well_formed :
  forall (initialTokens : list Poller.MobulaToken) (inputs : list Pipeline.Input),
    Forall well_formed_event (Poller.triggers (Pipeline.run initialTokens inputs)).
Proof.
  intros initialTokens inputs. unfold Pipeline.run.
  assert (H0 : Forall well_formed_event
                 (Poller.triggers
                    (Poller.initializeSeenTokens Poller.start initialTokens))).
  { rewrite initialize_triggers. constructor. }
  revert H0. generalize (Poller.initializeSeenTokens Poller.start initialTokens).
  induction inputs as [|i r IH]; intros st H; simpl; [exact H|].
  apply IH. destruct i as [c|req now rnd trigger_ok]; simpl.
  - apply poll_loop_well_formed, H.
  - apply Forall_app. split; [exact H|apply webhook_well_formed].
Qed.

(** X14: a webhook payload without a usable [id] or [address] is published
    under the decimal rendering of the clock, so two such requests get the
    same identifier exactly when they arrive in the same millisecond. *)
Theorem webhook_clock_identifier :
  forall (now1 now2 : Z) (rnd1 rnd2 : Q) (td1 td2 : Webhook.TokenData),
    candidate_key (as_candidate td1) = None ->
    candidate_key (as_candidate td2) = None ->
    id (Webhook.token now1 rnd1 td1) = pretty now1
    /\ (id (Webhook.token now1 rnd1 td1) = id (Webhook.token now2 rnd2 td2)
        <-> now1 = now2).
Proof.
  intros now1 now2 rnd1 rnd2 td1 td2 H1 H2.
  assert (E : forall now rnd td, candidate_key (as_candidate td) = None ->
                                 id (Webhook.token now rnd td) = pretty now).
  { intros now rnd td H. unfold candidate_key in H. simpl in *.
    destruct (or_str (Webhook.d_id td) (Webhook.d_address td)) as [s|]; [|reflexivity].
    destruct (truthy_str s); [discriminate|reflexivity]. }
  rewrite !E by assumption. split; [reflexivity|].
  split; [apply (inj pretty)|intros ->; reflexivity].
Qed.

Lemma webhook_clock_identifier_witness :
  id (Webhook.token 1700000000000 (1 # 2) (Webhook.tokenData Scenario.body_B))
  = "1700000000000".
Proof.
  apply (proj1 (webhook_clock_identifier 1700000000000 1700000000000 (1 # 2) (1 # 2)
                  (Webhook.tokenData Scenario.body_B)
                  (Webhook.tokenData Scenario.body_B) eq_refl eq_refl)).
Defined.

(** X15: the answer of [POST] matches what happened: it is 200 with
    [success] and the upper-cased symbol exactly when the body was read,
    is not [null], has no [symbol] of another type than string, and the
    broker accepted the event; otherwise it is 500 without a symbol.  A
    body that cannot be read, is [null] or has such a [symbol] leads to
    no call of the broker at all; any other body leads to one call,
    whether the broker accepts it or not. *)
Theorem post_answer_matches :
  forall (req : result Webhook.Json) (now : Z) (rnd : Q) (trigger_ok : bool),
    let answer := fst (Webhook.POST req now rnd trigger_ok) in
    let calls := snd (Webhook.POST req now rnd trigger_ok) in
    (Webhook.http_status answer = 200%Z \/ Webhook.http_status answer = 500%Z)
    /\ (Webhook.success answer = true <-> Webhook.http_status answer = 200%Z)
    /\ (Webhook.success answer = true
        <-> (exists body, req = Ok (Webhook.Members body)) /\ trigger_ok = true)
    /\ (Webhook.success answer = true ->
        exists call, calls = [call]
                     /\ Webhook.token_symbol answer = Some (symbol (payload call)))
    /\ (Webhook.success answer = false -> Webhook.token_symbol answer = None)
    /\ (req = Throw \/ req = Ok Webhook.JsonNull \/ req = Ok Webhook.SymbolNotString ->
        calls = [] /\ Webhook.http_status answer = 500%Z)
    /\ (forall body, req = Ok (Webhook.Members body) ->
                     calls = [{| channel := "pulse"; event := "token.created";
                                 payload := Webhook.token now rnd
                                              (Webhook.tokenData body) |}])
    /\ (length calls <= 1)%nat.
Proof.
  intros req now rnd trigger_ok. unfold Webhook.POST.
  destruct req as [[| |body]|]; [| |destruct trigger_ok|]; simpl;
    repeat split; auto; try discriminate; eauto;
    try (intros [[b H] H']; discriminate);
    try (intros [H|[H|H]]; discriminate);
    try (intros b H; injection H as <-; reflexivity);
    match goal with
    | H : _ \/ _ \/ _ |- _ => destruct H as [H|[H|H]]; discriminate
    end.
Qed.

Lemma post_answer_matches_witness :
  Webhook.token_symbol
    (fst (Webhook.POST (Ok (Webhook.Members Scenario.body_B)) 1700000000000 (1 # 2) true))
  = Some "TEST".
Proof.
  destruct (post_answer_matches (Ok (Webhook.Members Scenario.body_B))
              1700000000000 (1 # 2) true)
    as (_ & _ & _ & H & _).
  destruct (H eq_refl) as (call & Hc & Hs).
  rewrite Hs. injection Hc as <-. reflexivity.
Defined.

End WireFacts.

(** ** The providers, entry by entry *)

Section ProviderFacts.
Import Js Poller.
Local Open Scope list_scope.

Variable parseFloat : string -> option Q.

Lemma map_throw_pairs (ps : list DexPair) :
  exists tokens,
    map_throw (of_pair parseFloat) (map Some ps) = Ok tokens
    /\ length tokens = length ps
    /\ map m_id tokens = map pairAddress ps
    /\ Forall (fun t => m_blockchain t = Some "solana") tokens.
Proof.
  induction ps as [|p r (ts & H1 & H2 & H3 & H4)].
  - exists []. repeat split. constructor.
  - simpl. rewrite H1. simpl. eexists. split; [reflexivity|].
    simpl. rewrite H2, H3. repeat split. constructor; [reflexivity|exact H4].
Qed.

Lemma map_throw_null (l : list (option DexPair)) :
  In None l -> map_throw (of_pair parseFloat) l = Throw.
Proof.
  induction l as [|p r IH]; intros Hin; [destruct Hin|].
  simpl. destruct p as [dp|]; [|reflexivity].
  destruct Hin as [H|H]; [discriminate|].
  simpl. rewrite (IH H). reflexivity.
Qed.

(** X16: when DEXScreener answers OK and the first twenty entries of
    [pairs] are proper pairs, the adapter returns one candidate per such
    pair - never more than twenty - in the order received, keyed by the
    pair address and tagged 'solana'; entries after the twentieth and the
    fallback provider play no part. *)
Theorem primary_returns_first_twenty :
  forall (iso : string) (rnd : nat -> Q) (response : Response DexBody) (d : DexObject)
         (l : list (option DexPair)) (ps : list DexPair)
         (gecko : result (Response GeckoBody)),
    ok response = true ->
    json response = Ok (Some d) ->
    pairs d = Some l ->
    firstn 20 l = map Some ps ->
    ps <> [] ->
    exists tokens,
      fetchNewlyCreatedTokens parseFloat iso rnd (Ok response) gecko = Ok tokens
      /\ length tokens = length ps
      /\ (length tokens <= 20)%nat
      /\ map m_id tokens = map pairAddress ps
      /\ Forall (fun t => m_blockchain t = Some "solana") tokens.
Proof.
  intros iso rnd response d l ps gecko Hok Hj Hp Hf Hne.
  destruct (map_throw_pairs ps) as (tokens & H1 & H2 & H3 & H4).
  exists tokens. repeat split; try assumption.
  - unfold fetchNewlyCreatedTokens, DexBody in *. simpl. rewrite Hok, Hj. simpl.
    rewrite Hp.
    assert (0 <? length l = true)%nat as ->.
    { destruct l; [destruct ps; [contradiction|discriminate]|reflexivity]. }
    rewrite Hf, H1. reflexivity.
  - rewrite H2. rewrite <- (length_map Some ps), <- Hf, length_firstn. lia.
Qed.

(** X17: a single [null] among the first twenty entries of [pairs] discards
    the whole DEXScreener answer: the adapter returns what the fallback
    provider gives. *)
Theorem null_pair_defers_to_fallback :
  forall (iso : string) (rnd : nat -> Q) (response : Response DexBody) (d : DexObject)
         (l : list (option DexPair)) (gecko : result (Response GeckoBody)),
    ok response = true ->
    json response = Ok (Some d) ->
    pairs d = Some l ->
    In None (firstn 20 l) ->
    fetchNewlyCreatedTokens parseFloat iso rnd (Ok response) gecko
    = fetchFromCoinGecko iso rnd gecko.
Proof.
  intros iso rnd response d l gecko Hok Hj Hp Hin.
  destruct (fetchFromCoinGecko_returns iso rnd gecko) as [fb Hfb].
  unfold fetchNewlyCreatedTokens, DexBody in *. simpl. rewrite Hok, Hj. simpl.
  rewrite Hp.
  assert (0 <? length l = true)%nat as ->.
  { destruct l; [destruct Hin|reflexivity]. }
  rewrite (map_throw_null _ Hin). simpl. reflexivity.
Qed.

End ProviderFacts.

Lemma primary_returns_first_twenty_witness :
  exists tokens,
    Poller.fetchNewlyCreatedTokens no_parse "2024-01-01T00:00:00.000Z" no_draw
      (Js.Ok (dex_answer [Some (example_pair "pair1"); Some (example_pair "pair2")]))
      Js.Throw
    = Js.Ok tokens
    /\ map Poller.m_id tokens = [Some "pair1"; Some "pair2"].
Proof.
  destruct (primary_returns_first_twenty no_parse "2024-01-01T00:00:00.000Z" no_draw
              (dex_answer [Some (example_pair "pair1"); Some (example_pair "pair2")])
              {| Poller.pairs := Some [Some (example_pair "pair1");
                                       Some (example_pair "pair2")] |}
              [Some (example_pair "pair1"); Some (example_pair "pair2")]
              [example_pair "pair1"; example_pair "pair2"]
              Js.Throw eq_refl eq_refl eq_refl eq_refl)
    as (tokens & H1 & _ & _ & H2 & _); [discriminate|].
  exists tokens. split; assumption.
Defined.

Lemma null_pair_defers_to_fallback_witness :
  Poller.fetchNewlyCreatedTokens no_parse "2024-01-01T00:00:00.000Z" no_draw
    (Js.Ok (dex_answer [Some (example_pair "pair1"); None])) Js.Throw
  = Js.Ok [].
Proof.
  rewrite (null_pair_defers_to_fallback no_parse "2024-01-01T00:00:00.000Z" no_draw
             (dex_answer [Some (example_pair "pair1"); None])
             {| Poller.pairs := Some [Some (example_pair "pair1"); None] |}
             [Some (example_pair "pair1"); None] Js.Throw eq_refl eq_refl eq_refl).
  - reflexivity.
  - right. left. reflexivity.
Defined.

Section HolderFacts.
Import Js.
Local Open Scope Q_scope.

Lemma random_holders_range r :
  0 <= r -> r < 1 ->
  0 <= random_holders r /\ random_holders r <= 9999
  /\ random_holders r = inject_Z (Qfloor (r * 10000)).
Proof.
  intros H0 H1. unfold random_holders.
  assert (Hlo : (0 <= Qfloor (r * 10000))%Z).
  { change 0%Z with (Qfloor 0). apply Qfloor_resp_le. Lqa.nra. }
  assert (Hhi : (Qfloor (r * 10000) < 10000)%Z).
  { rewrite Zlt_Qlt.
    apply Qle_lt_trans with (r * 10000); [apply Qfloor_le|].
    change (inject_Z 10000) with 10000. Lqa.nra. }
  repeat split.
  - change 0 with (inject_Z 0). rewrite <- Zle_Qle. exact Hlo.
  - change 9999 with (inject_Z 9999). rewrite <- Zle_Qle.
    apply Z.lt_succ_r. exact Hhi.
Qed.

(** X18: a payload without a holder count, or with the count 0, goes out
    with [Math.floor(Math.random() * 10000)] instead - a whole number
    between 0 and 9999 for a draw in [0, 1) - from the webhook as from the
    poller; a non-zero count is passed on. *)
Theorem missing_holders_are_drawn :
  forall (now : Z) (rnd : Q) (td : Webhook.TokenData),
    (Webhook.d_holders td = None \/ Webhook.d_holders td = Some 0 ->
     holders (Webhook.token now rnd td) = random_holders rnd
     /\ holders (Poller.formattedToken now rnd (as_candidate td)) = random_holders rnd
     /\ (0 <= rnd -> rnd < 1 ->
         0 <= holders (Webhook.token now rnd td)
         /\ holders (Webhook.token now rnd td) <= 9999
         /\ holders (Webhook.token now rnd td) = inject_Z (Qfloor (rnd * 10000))))
    /\ (forall h, Webhook.d_holders td = Some h -> ~ h == 0 ->
                  holders (Webhook.token now rnd td) = h
                  /\ holders (Poller.formattedToken now rnd (as_candidate td)) = h).
Proof.
  intros now rnd td. split.
  - intros H.
    assert (E : or_num_default (Webhook.d_holders td) (random_holders rnd)
                = random_holders rnd).
    { destruct H as [-> | ->]; reflexivity. }
    simpl. rewrite E. repeat split; try apply random_holders_range; assumption.
  - intros h Hh Hne. simpl. rewrite Hh. unfold or_num_default, truthy_num.
    destruct (Qeq_bool h 0) eqn:E; [apply Qeq_bool_eq in E; contradiction|].
    split; reflexivity.
Qed.

Lemma missing_holders_are_drawn_witness :
  holders (Webhook.token 1700000000000 (1 # 2) (Webhook.tokenData Scenario.body_B))
  <= 9999.
Proof.
  destruct (missing_holders_are_drawn 1700000000000 (1 # 2)
              (Webhook.tokenData Scenario.body_B)) as [H _].
  destruct (H (or_introl eq_refl)) as (_ & _ & H').
  apply H'; Lqa.lra.
Defined.

Lemma or_str_default_or_none a d : or_str_default (or_str a None) d = or_str_default a d.
Proof.
  unfold or_str_default, or_str. destruct a as [s|]; [|reflexivity].
  destruct (truthy_str s) eqn:E; [rewrite E|]; reflexivity.
Qed.

Lemma or_num_default_or_none a d : or_num_default (or_num a None) d = or_num_default a d.
Proof.
  unfold or_num_default, or_num. destruct a as [q|]; [|reflexivity].
  destruct (truthy_num q) eqn:E; [rewrite E|]; reflexivity.
Qed.

(** X19: the webhook and the poller normalise a payload to the same event
    as long as it has neither a [chain] nor a [volume] member; with only
    [volume] given, both report it as the 24h volume, but the poller
    estimates the liquidity as 30 % of it while the webhook, which looks
    at [volume24h] alone, reports 0. *)
Theorem normalisers_agree :
  forall (now : Z) (rnd : Q) (td : Webhook.TokenData),
    (Webhook.d_chain td = None -> Webhook.d_volume td = None ->
     Webhook.token now rnd td = Poller.formattedToken now rnd (as_candidate td))
    /\ (forall v, Webhook.d_volume td = Some v -> ~ v == 0 ->
                  Webhook.d_volume24h td = None -> Webhook.d_liquidity td = None ->
                  liquidity (Webhook.token now rnd td) == 0
                  /\ liquidity (Poller.formattedToken now rnd (as_candidate td))
                     == v * (3 # 10)
                  /\ volume24h (Webhook.token now rnd td) = v
                  /\ volume24h (Poller.formattedToken now rnd (as_candidate td)) = v).
Proof.
  intros now rnd td. split.
  - intros Hc Hv. unfold Webhook.token, Poller.formattedToken. simpl.
    rewrite Hc, Hv, or_str_default_or_none, or_num_default_or_none. reflexivity.
  - intros v Hv Hne H24 Hl. simpl. rewrite Hv, H24, Hl. simpl.
    unfold truthy_num.
    destruct (Qeq_bool v 0) eqn:E; [apply Qeq_bool_eq in E; contradiction|].
    simpl. repeat split; reflexivity.
Qed.

Lemma normalisers_agree_witness :
  Webhook.token 1700000000000 (1 # 2) (Webhook.tokenData Scenario.body_B)
  = Poller.formattedToken 1700000000000 (1 # 2)
      (as_candidate (Webhook.tokenData Scenario.body_B)).
Proof.
  apply (proj1 (normalisers_agree 1700000000000 (1 # 2)
                  (Webhook.tokenData Scenario.body_B))); reflexivity.
Defined.

End HolderFacts.

(** ** The subscription manager on every trace *)

Section SubscriptionFacts.
Import Subscription.
Local Open Scope list_scope.

Lemma count_effect_app e st l p c n b t :
  count_effect e {| pusherInstance := p; channelInstance := c; subscriberCount := n;
                    connectionHandlersBound := b; pendingTimeouts := t;
                    effects := effects st ++ l |}
  = (count_effect e st + length (List.filter (Effect_eqb e) l))%nat.
Proof.
  unfold count_effect. simpl. rewrite List.filter_app, List.length_app. reflexivity.
Qed.

Lemma count_effect_same e st p c n b t :
  count_effect e {| pusherInstance := p; channelInstance := c; subscriberCount := n;
                    connectionHandlersBound := b; pendingTimeouts := t;
                    effects := effects st |}
  = count_effect e st.
Proof. reflexivity. Qed.

Lemma accounted_initial : accounted 0 initial.
Proof.
  unfold accounted. repeat split; try reflexivity; intros; try discriminate; lia.
Qed.

Lemma acquire_accounted open st :
  accounted open st -> accounted (S open) (acquire st).
Proof.
  intros (Hn & Hc & Hb & Hup & Ht & Hcd & Hs & Hu & Hh).
  unfold accounted, connects, disconnects in *. unfold acquire.
  rewrite Hc, Hb. destruct (pusherInstance st) eqn:Ep;
    rewrite !count_effect_app; simpl;
    repeat split; try reflexivity; try discriminate; try lia.
Qed.

Lemma release_accounted open st :
  accounted (S open) st -> accounted open (release st).
Proof.
  intros (Hn & Hc & Hb & Hup & Ht & Hcd & Hs & Hu & Hh).
  assert (Hp : pusherInstance st = true) by (apply Hup; lia).
  unfold accounted, connects, disconnects in *. unfold release.
  rewrite Hc, Hp in *. rewrite !count_effect_app. simpl.
  repeat split; try reflexivity; try assumption; try lia.
  intros -> _. rewrite Hn.
  replace (Z.of_nat 1 - 1 =? 0)%Z with true by reflexivity. lia.
Qed.

Lemma fire_accounted open st :
  accounted open st -> accounted open (fire st).
Proof.
  intros H. unfold fire. destruct (pendingTimeouts st) as [|k] eqn:Ek; [exact H|].
  destruct H as (Hn & Hc & Hb & Hup & Ht & Hcd & Hs & Hu & Hh).
  unfold accounted, connects, disconnects in *. unfold teardown.
  rewrite Hn, Hc, Hb. destruct open as [|o].
  - simpl Z.eqb. cbv iota. destruct (pusherInstance st) eqn:Ep; simpl;
      rewrite !count_effect_app; simpl;
      repeat split; try reflexivity; try discriminate; try lia.
  - replace (Z.of_nat (S o) =? 0)%Z with false by (symmetry; apply Z.eqb_neq; lia).
    rewrite !count_effect_same. simpl.
    repeat split; try assumption; lia.
Qed.

Lemma fire_idle st :
  accounted 0 st -> (0 < pendingTimeouts st)%nat -> pusherInstance (fire st) = false.
Proof.
  intros (Hn & _) Ht. unfold fire.
  destruct (pendingTimeouts st) as [|k]; [lia|].
  unfold teardown. rewrite Hn. reflexivity.
Qed.

Lemma fire_keeps_down st :
  pusherInstance st = false -> pusherInstance (fire st) = false.
Proof.
  intros Hp. unfold fire. destruct (pendingTimeouts st) as [|k]; [exact Hp|].
  unfold teardown. destruct (subscriberCount st =? 0)%Z; simpl; [reflexivity|exact Hp].
Qed.

Lemma iter_fire_down n :
  forall st, accounted 0 st -> pusherInstance st = false ->
             accounted 0 (Nat.iter n fire st)
             /\ pusherInstance (Nat.iter n fire st) = false.
Proof.
  induction n as [|n IH]; intros st Ha Hp; simpl; [split; assumption|].
  destruct (IH st Ha Hp) as [Ha' Hp'].
  split; [apply fire_accounted, Ha'|apply fire_keeps_down, Hp'].
Qed.

Lemma drain_accounted st :
  accounted 0 st -> accounted 0 (drain st) /\ pusherInstance (drain st) = false.
Proof.
  intros Ha. unfold drain.
  destruct (pusherInstance st) eqn:Ep.
  - destruct (pendingTimeouts st) as [|k] eqn:Ek.
    + destruct Ha as (_ & _ & _ & _ & Ht & _). specialize (Ht eq_refl Ep). lia.
    + rewrite Nat.iter_succ_r. apply iter_fire_down.
      * apply fire_accounted, Ha.
      * apply fire_idle; [exact Ha|lia].
  - apply iter_fire_down; assumption.
Qed.

Lemma run_accounted tr :
  forall open st,
    accounted open st ->
    well_bracketed open tr = true ->
    exists open',
      accounted open' (run st tr)
      /\ (open' + count_event Release tr = open + count_event Acquire tr)%nat.
Proof.
  induction tr as [|e r IH]; intros open st Ha Hw.
  - exists open. split; [exact Ha|reflexivity].
  - destruct e; simpl in Hw |- *.
    + destruct (IH (S open) (acquire st) (acquire_accounted _ _ Ha) Hw)
        as (o & Ho & Hcount).
      exists o. split; [exact Ho|]. unfold count_event in *. simpl. lia.
    + destruct open as [|k]; [discriminate|].
      destruct (IH k (release st) (release_accounted _ _ Ha) Hw)
        as (o & Ho & Hcount).
      exists o. split; [exact Ho|]. unfold count_event in *. simpl. lia.
    + destruct (IH open (fire st) (fire_accounted _ _ Ha) Hw)
        as (o & Ho & Hcount).
      exists o. split; [exact Ho|]. unfold count_event in *. simpl. lia.
Qed.

Lemma run_initial_accounted tr :
  well_bracketed 0 tr = true -> accounted (mounted tr) (run initial tr).
Proof.
  intros Hw.
  destruct (run_accounted tr 0%nat initial accounted_initial Hw) as (o & Ho & Hcount).
  replace (mounted tr) with o by (unfold mounted; lia). exact Ho.
Qed.

(** X20: at every point of every trace React can produce - whenever the
    grace timeouts fire - the counter is the number of mounted hooks, the
    client and the channel exist while a hook is mounted, at most one
    client is alive (the clients created are the clients disconnected,
    plus the live one), each client has subscribed once, and the
    ['token.created'] handlers bound and not yet unbound are those of the
    mounted hooks. *)
Theorem subscription_books_balance :
  forall tr : list Event,
    well_bracketed 0 tr = true ->
    let st := run initial tr in
    subscriberCount st = Z.of_nat (mounted tr)
    /\ ((0 < mounted tr)%nat -> pusherInstance st = true /\ channelInstance st = true)
    /\ connects st = (disconnects st + (if pusherInstance st then 1 else 0))%nat
    /\ count_effect Subscribe st = connects st
    /\ count_effect Unsubscribe st = disconnects st
    /\ count_effect (ChannelBind "token.created") st
       = (count_effect (ChannelUnbind "token.created") st + mounted tr)%nat.
Proof.
  intros tr Hw st.
  destruct (run_initial_accounted tr Hw) as (Hn & Hc & Hb & Hup & Ht & Hcd & Hs & Hu & Hh).
  fold st in Hn, Hc, Hb, Hup, Ht, Hcd, Hs, Hu, Hh.
  repeat split; try assumption.
  - apply Hup, H.
  - rewrite Hc. apply Hup, H.
Qed.

Lemma subscription_books_balance_witness :
  connects (run initial [Acquire; Release; GraceElapsed; Acquire; Acquire; Release])
  = (disconnects (run initial [Acquire; Release; GraceElapsed; Acquire; Acquire; Release])
     + 1)%nat.
Proof.
  destruct (subscription_books_balance
              [Acquire; Release; GraceElapsed; Acquire; Acquire; Release] eq_refl)
    as (_ & _ & H & _).
  exact H.
Defined.

(** X21: whenever the grace timeouts fire in between, once every hook has
    unmounted and the scheduled timeouts have fired no client and no
    channel is left, every client that was created has been disconnected,
    every subscription has been ended and every ['token.created'] handler
    has been unbound. *)
Theorem every_connection_is_closed :
  forall tr : list Event,
    well_bracketed 0 tr = true ->
    count_event Acquire tr = count_event Release tr ->
    let st := drain (run initial tr) in
    pusherInstance st = false
    /\ channelInstance st = false
    /\ subscriberCount st = 0%Z
    /\ connects st = disconnects st
    /\ count_effect Subscribe st = count_effect Unsubscribe st
    /\ count_effect (ChannelBind "token.created") st
       = count_effect (ChannelUnbind "token.created") st.
Proof.
  intros tr Hw Heq st.
  pose proof (run_initial_accounted tr Hw) as Ha.
  replace (mounted tr) with 0%nat in Ha by (unfold mounted; lia).
  destruct (drain_accounted _ Ha) as [(Hn & Hc & Hb & Hup & Ht & Hcd & Hs & Hu & Hh) Hp].
  fold st in Hn, Hc, Hb, Hup, Ht, Hcd, Hs, Hu, Hh, Hp.
  rewrite Hp in Hcd, Hc.
  repeat split; try assumption; lia.
Qed.

Lemma every_connection_is_closed_witness :
  connects (drain (run initial [Acquire; Release; GraceElapsed; Acquire; Release]))
  = disconnects (drain (run initial [Acquire; Release; GraceElapsed; Acquire; Release])).
Proof.
  destruct (every_connection_is_closed
              [Acquire; Release; GraceElapsed; Acquire; Release] eq_refl eq_refl)
    as (_ & _ & _ & H & _).
  exact H.
Defined.

End SubscriptionFacts.

(** ** The chart hook on every trace *)

Section ChartFacts.
Import Num Chart.
Local Open Scope list_scope.

Lemma strict_eq_true a b : strict_eq a b = true -> a = b.
Proof.
  destruct a as [|s|x], b as [|s'|y]; simpl; try discriminate.
  - intros H. apply Bool.eqb_prop in H. congruence.
  - destruct (Req_dec_T x y); [congruence|discriminate].
Qed.

Lemma same_value_true a b : same_value a b = true -> a = b.
Proof.
  destruct a, b; try reflexivity; intros H; apply strict_eq_true; exact H.
Qed.

Lemma strict_eq_refl a : is_nan a = false -> strict_eq a a = true.
Proof.
  destruct a as [|s|x]; simpl; try discriminate; intros _.
  - destruct s; reflexivity.
  - destruct (Req_dec_T x x); congruence.
Qed.

(** The two effects of a render, one after the other. *)
Lemma render_stages now p h :
  let h1 := if init_deps_changed p h then init_effect now p h else h in
  let h2 := if price_deps_changed p h then price_effect now p h1 else h1 in
  initializedTokenRef (render now p h) = initializedTokenRef h2
  /\ lastPriceRef (render now p h) = lastPriceRef h2
  /\ dataPointsRef (render now p h) = dataPointsRef h2
  /\ seedings (render now p h) = seedings h2
  /\ frames (render now p h) = frames h2
  /\ chartData (render now p h) = chartData h2
  /\ initDeps (render now p h) = Some (id (token p), initialDataPoints p)
  /\ priceDeps (render now p h) = Some (price (token p), maxDataPoints p).
Proof. repeat split. Qed.

Lemma price_stage_keeps now p (c : bool) h :
  initializedTokenRef (if c then price_effect now p h else h) = initializedTokenRef h
  /\ seedings (if c then price_effect now p h else h) = seedings h
  /\ frames (if c then price_effect now p h else h) = frames h.
Proof.
  destruct c; [|repeat split]. unfold price_effect.
  destruct (strict_eq (lastPriceRef h) (price (token p))); repeat split.
Qed.

Lemma unchanged_init_deps p h :
  synced h -> init_deps_changed p h = false ->
  initializedTokenRef h = id (token p).
Proof.
  intros [Hi _] E. unfold init_deps_changed in E.
  destruct (initDeps h) as [[i n]|] eqn:Ed; [|discriminate].
  apply negb_false_iff, andb_prop in E. destruct E as [E _].
  apply String.eqb_eq in E. rewrite (Hi i n eq_refl). exact E.
Qed.

Lemma unchanged_price_deps p h :
  synced h -> price_deps_changed p h = false ->
  lastPriceRef h = price (token p).
Proof.
  intros [_ Hp] E. unfold price_deps_changed in E.
  destruct (priceDeps h) as [[x n]|] eqn:Ed; [|discriminate].
  apply negb_false_iff, andb_prop in E. destruct E as [E _].
  apply same_value_true in E. rewrite (Hp x n eq_refl). exact E.
Qed.

Lemma render_ref now p h :
  synced h -> initializedTokenRef (render now p h) = id (token p).
Proof.
  intros Hs. destruct (render_stages now p h) as (-> & _).
  rewrite (proj1 (price_stage_keeps now p _ _)).
  destruct (init_deps_changed p h) eqn:E.
  - unfold init_effect.
    destruct (String.eqb (initializedTokenRef h) (id (token p))) eqn:E2;
      [apply String.eqb_eq, E2|reflexivity].
  - apply unchanged_init_deps; assumption.
Qed.

Lemma init_stage_price now p h :
  let h1 := if init_deps_changed p h then init_effect now p h else h in
  lastPriceRef h1 = lastPriceRef h \/ lastPriceRef h1 = price (token p).
Proof.
  destruct (init_deps_changed p h); [|left; reflexivity].
  unfold init_effect.
  destruct (String.eqb (initializedTokenRef h) (id (token p)));
    [left|right]; reflexivity.
Qed.

Lemma render_price now p h :
  synced h -> lastPriceRef (render now p h) = price (token p).
Proof.
  intros Hs. destruct (render_stages now p h) as (_ & -> & _).
  destruct (price_deps_changed p h) eqn:E.
  - unfold price_effect.
    match goal with
    | |- context [strict_eq ?a ?b] =>
        destruct (strict_eq a b) eqn:E2; [apply strict_eq_true, E2|reflexivity]
    end.
  - destruct (init_stage_price now p h) as [H|H]; simpl in H; rewrite H;
      [apply unchanged_price_deps; assumption|reflexivity].
Qed.

Lemma mount_synced p : synced (mount p).
Proof. split; intros ? ? H; discriminate H. Qed.

Lemma render_synced now p h : synced h -> synced (render now p h).
Proof.
  intros Hs. destruct (render_stages now p h) as (_ & _ & _ & _ & _ & _ & Hi & Hp).
  split.
  - intros i n H. rewrite Hi in H. injection H as <- _. apply render_ref, Hs.
  - intros x n H. rewrite Hp in H. injection H as <- _. apply render_price, Hs.
Qed.

Lemma step_synced h e : synced h -> synced (step h e).
Proof.
  intros Hs. destruct e as [now p|pt|]; simpl.
  - apply render_synced, Hs.
  - exact Hs.
  - unfold animation_frame. destruct (frames h); exact Hs.
Qed.

Lemma run_synced tr : forall h, synced h -> synced (run h tr).
Proof.
  induction tr as [|e r IH]; intros h Hs; [exact Hs|].
  apply IH, step_synced, Hs.
Qed.

Lemma render_seedings now p h :
  synced h ->
  seedings (render now p h)
  = seedings h ++ (if String.eqb (initializedTokenRef h) (id (token p))
                   then [] else [id (token p)]).
Proof.
  intros Hs. destruct (render_stages now p h) as (_ & _ & _ & -> & _).
  rewrite (proj1 (proj2 (price_stage_keeps now p _ _))).
  destruct (init_deps_changed p h) eqn:E.
  - unfold init_effect.
    destruct (String.eqb (initializedTokenRef h) (id (token p)));
      [symmetry; apply app_nil_r|reflexivity].
  - rewrite (unchanged_init_deps p h Hs E), String.eqb_refl.
    symmetry; apply app_nil_r.
Qed.

Lemma run_changes tr :
  forall h, synced h ->
            seedings (run h tr) = seedings h ++ changes (initializedTokenRef h) tr.
Proof.
  induction tr as [|e r IH]; intros h Hs.
  - simpl. symmetry; apply app_nil_r.
  - change (run h (e :: r)) with (run (step h e) r).
    rewrite (IH _ (step_synced h e Hs)).
    destruct e as [now p|pt|].
    + change (step h (Render now p)) with (render now p h).
      rewrite (render_seedings now p h Hs), (render_ref now p h Hs).
      simpl changes.
      destruct (String.eqb (initializedTokenRef h) (id (token p))) eqn:E.
      * apply String.eqb_eq in E. rewrite E, app_nil_r. reflexivity.
      * rewrite <- app_assoc. reflexivity.
    + reflexivity.
    + simpl. unfold animation_frame. destruct (frames h); reflexivity.
Qed.

(** X22: over the life of a mounted hook the history is generated at
    exactly those renders whose identifier differs from the identifier of
    the render before (the empty string before the first render), whatever
    the prices, the capacities, the appends and the frames in between. *)
Theorem seedings_follow_identifier_changes :
  forall (p : Props) (tr : list Event),
    seedings (run (mount p) tr) = changes EmptyString tr.
Proof.
  intros p tr. rewrite (run_changes tr (mount p) (mount_synced p)). reflexivity.
Qed.

(** X23: a render with another identifier than the one the hook is
    seeded with discards the buffer: it generates a history for the new
    instrument, which becomes the whole buffer (for a price that is not
    NaN), and records the new identifier and price. *)
Theorem identifier_change_reseeds :
  forall (p0 : Props) (tr : list Event) (now : Z) (p : Props),
    let h := run (mount p0) tr in
    id (token p) <> initializedTokenRef h ->
    is_nan (price (token p)) = false ->
    dataPointsRef (render now p h)
    = generateInitialData now (token p) (initialDataPoints p)
    /\ seedings (render now p h) = seedings h ++ [id (token p)]
    /\ initializedTokenRef (render now p h) = id (token p)
    /\ lastPriceRef (render now p h) = price (token p).
Proof.
  intros p0 tr now p h Hne Hnan.
  assert (Hs : synced h) by apply run_synced, mount_synced.
  assert (E : String.eqb (initializedTokenRef h) (id (token p)) = false).
  { apply String.eqb_neq. congruence. }
  repeat split.
  - destruct (render_stages now p h) as (_ & _ & -> & _).
    assert (Hc : init_deps_changed p h = true).
    { destruct (init_deps_changed p h) eqn:Ec; [reflexivity|].
      rewrite (unchanged_init_deps p h Hs Ec) in Hne. contradiction. }
    rewrite Hc. unfold init_effect. rewrite E.
    destruct (price_deps_changed p h); [|reflexivity].
    unfold price_effect. cbn [lastPriceRef]. rewrite (strict_eq_refl _ Hnan).
    reflexivity.
  - rewrite (render_seedings now p h Hs), E. reflexivity.
  - apply render_ref, Hs.
  - apply render_price, Hs.
Qed.

Lemma identifier_change_reseeds_witness :
  dataPointsRef
    (render 2 {| token := Scenario.chart_token "t2" "U" 11 10;
                 maxDataPoints := 100; initialDataPoints := 24 |}
            (run (mount Scenario.props_D) [Render 1 Scenario.props_D]))
  = generateInitialData 2 (Scenario.chart_token "t2" "U" 11 10) 24.
Proof.
  assert (Hr : initializedTokenRef
                 (run (mount Scenario.props_D) [Render 1 Scenario.props_D]) = "t1").
  { apply (render_ref 1 Scenario.props_D), mount_synced. }
  apply (identifier_change_reseeds Scenario.props_D [Render 1 Scenario.props_D] 2
           {| token := Scenario.chart_token "t2" "U" 11 10;
              maxDataPoints := 100; initialDataPoints := 24 |}).
  - rewrite Hr. discriminate.
  - reflexivity.
Defined.

(** X24: a render with the identifier the hook is seeded with and a price
    that is not NaN leaves the buffer alone when the price is the one of
    the render before, and otherwise appends one point - the new price at
    the time of the render - dropping the oldest point when the capacity
    is exceeded. *)
Theorem price_change_appends_one_point :
  forall (p0 : Props) (tr : list Event) (now : Z) (p : Props),
    let h := run (mount p0) tr in
    id (token p) = initializedTokenRef h ->
    is_nan (price (token p)) = false ->
    dataPointsRef (render now p h)
    = (if strict_eq (lastPriceRef h) (price (token p)) then dataPointsRef h
       else push_bounded (maxDataPoints p) (dataPointsRef h)
                         {| time := now; value := price (token p) |})
    /\ lastPriceRef (render now p h) = price (token p)
    /\ seedings (render now p h) = seedings h.
Proof.
  intros p0 tr now p h Hid Hnan.
  assert (Hs : synced h) by apply run_synced, mount_synced.
  repeat split.
  - destruct (render_stages now p h) as (_ & _ & -> & _).
    replace (if init_deps_changed p h then init_effect now p h else h) with h
      by (destruct (init_deps_changed p h);
          [symmetry; apply init_effect_seeded, Hid|reflexivity]).
    destruct (price_deps_changed p h) eqn:Ec.
    + unfold price_effect.
      destruct (strict_eq (lastPriceRef h) (price (token p))); reflexivity.
    + rewrite (unchanged_price_deps p h Hs Ec), (strict_eq_refl _ Hnan). reflexivity.
  - apply render_price, Hs.
  - rewrite (render_seedings now p h Hs), <- Hid, String.eqb_refl. apply app_nil_r.
Qed.

Lemma price_change_appends_one_point_witness :
  dataPointsRef
    (render 2 Scenario.props_D_moved
            (run (mount Scenario.props_D) [Render 1 Scenario.props_D]))
  = push_bounded 100
      (dataPointsRef (run (mount Scenario.props_D) [Render 1 Scenario.props_D]))
      {| time := 2; value := Fin 11 |}.
Proof.
  assert (Hr : id (token Scenario.props_D_moved)
               = initializedTokenRef
                   (run (mount Scenario.props_D) [Render 1 Scenario.props_D])).
  { symmetry. apply (render_ref 1 Scenario.props_D), mount_synced. }
  assert (Hl : lastPriceRef (run (mount Scenario.props_D) [Render 1 Scenario.props_D])
               = Fin 10).
  { apply (render_price 1 Scenario.props_D), mount_synced. }
  destruct (price_change_appends_one_point Scenario.props_D
              [Render 1 Scenario.props_D] 2 Scenario.props_D_moved Hr eq_refl)
    as (H & _).
  rewrite H, Hl. change (price (token Scenario.props_D_moved)) with (Fin 11).
  unfold strict_eq. destruct (Req_dec_T 10 11) as [E|E]; [lra|reflexivity].
Defined.

Lemma step_keeps_frames x h e :
  e <> Frame -> renders_id x e -> initializedTokenRef h = x ->
  frames (step h e) = frames h /\ initializedTokenRef (step h e) = x.
Proof.
  intros Hf Hr Hx. destruct e as [now p|pt|].
  - change (step h (Render now p)) with (render now p h).
    change (id (token p) = x) in Hr.
    destruct (render_stages now p h) as (-> & _ & _ & _ & -> & _).
    rewrite (proj1 (price_stage_keeps now p _ _)).
    rewrite (proj2 (proj2 (price_stage_keeps now p _ _))).
    replace (if init_deps_changed p h then init_effect now p h else h) with h
      by (destruct (init_deps_changed p h);
          [symmetry; apply init_effect_seeded; congruence|reflexivity]).
    split; [reflexivity|exact Hx].
  - split; [reflexivity|exact Hx].
  - contradiction.
Qed.

Lemma run_keeps_frames x tr :
  forall h,
    Forall (fun e => e <> Frame /\ renders_id x e) tr ->
    initializedTokenRef h = x ->
    frames (run h tr) = frames h.
Proof.
  induction tr as [|e r IH]; intros h Hall Hx; [reflexivity|].
  apply List.Forall_cons_iff in Hall. destruct Hall as [[Hf Hr] Hrest].
  destruct (step_keeps_frames x h e Hf Hr Hx) as [H1 H2].
  change (run h (e :: r)) with (run (step h e) r).
  rewrite (IH _ Hrest H2). exact H1.
Qed.

(** X25: the frame requested at seeding shows the generated history as
    it was at seeding: whatever was appended to the buffer - by a price
    change or by [appendDataPoint] - between the seeding render and its
    frame is not in the displayed series after the frame. *)
Theorem first_frame_shows_bare_seed :
  forall (now : Z) (p : Props) (tr : list Event),
    id (token p) <> EmptyString ->
    Forall (fun e => e <> Frame /\ renders_id (id (token p)) e) tr ->
    chartData (run (mount p) (Render now p :: tr ++ [Frame]))
    = generateInitialData now (token p) (initialDataPoints p)
    /\ frames (run (mount p) (Render now p :: tr ++ [Frame])) = [].
Proof.
  intros now p tr Hne Hall.
  change (run (mount p) (Render now p :: tr ++ [Frame]))
    with (run (render now p (mount p)) (tr ++ [Frame])).
  unfold run. rewrite fold_left_app. fold (run (render now p (mount p)) tr).
  assert (Hf : frames (run (render now p (mount p)) tr)
               = [generateInitialData now (token p) (initialDataPoints p)]).
  { rewrite (run_keeps_frames (id (token p)) tr _ Hall).
    - destruct (render_stages now p (mount p)) as (_ & _ & _ & _ & -> & _).
      rewrite (proj2 (proj2 (price_stage_keeps now p _ _))).
      simpl. unfold init_effect. simpl.
      destruct (id (token p)) eqn:E; [contradiction|reflexivity].
    - apply render_ref, mount_synced. }
  simpl. unfold animation_frame. rewrite Hf. split; reflexivity.
Qed.

Lemma first_frame_shows_bare_seed_witness :
  chartData (run (mount Scenario.props_D)
                 (Render 1 Scenario.props_D
                  :: [Append (Scenario.point_D 7); Render 2 Scenario.props_D_moved]
                  ++ [Frame]))
  = generateInitialData 1 (Scenario.chart_token "t1" "T" 10 25) 24.
Proof.
  apply (first_frame_shows_bare_seed 1 Scenario.props_D
           [Append (Scenario.point_D 7); Render 2 Scenario.props_D_moved]).
  - discriminate.
  - constructor; [split; [discriminate|exact I]|].
    constructor; [split; [discriminate|reflexivity]|constructor].
Defined.

(** X26: for a price between 0 and 10^300, a 24h change of at least
    -99 %, a seed of magnitude at most 10^300 and between two and a
    million points, every generated value is a real number between half the price and the
    larger of the start price and the price plus 1.2 % of the price. *)
Theorem seeded_values_within_band :
  forall (t : Token) (p c s : R) (n i : nat),
    price t = Fin p -> (0 <= p <= large)%R ->
    priceChange24h t = Fin c -> (-99 <= c <= large)%R ->
    tokenSeed t = Fin s -> (- large <= s <= large)%R ->
    (2 <= n)%nat -> (Z.of_nat n <= 1000000)%Z -> (i < n)%nat ->
    exists v : R,
      point_value t n i = Fin v
      /\ (p * (5 / 10) <= v <= Rmax (p / (1 + c / 100)) p + 12 / 1000 * p)%R.
Proof.
  intros t p c s n i Hp Hpr Hc Hcr Hs Hsr Hn Hlen Hi.
  rewrite (point_value_fin t p c s n Hp Hpr Hc Hcr Hs Hsr Hn Hlen i Hi).
  eexists. split; [reflexivity|].
  pose proof (progress_range n i Hn Hi) as Hx.
  pose proof (smooth_real_range _ Hx) as [Hm0 Hm1].
  unfold value_real.
  set (x := (INR i / (INR n + - 1))%R) in *.
  set (start := (p / (1 + c / 100))%R).
  set (m := smooth_real x) in *.
  pose proof (SIN_bound (x * PI * 2 + s)) as [Ha Hb].
  pose proof (SIN_bound (x * PI * 4 + s * 2)) as [Ha' Hb'].
  pose proof (Rmax_l start p) as Hl. pose proof (Rmax_r start p) as Hr.
  destruct Hpr as [Hpos _].
  split; [apply Rmax_r|].
  apply Rmax_lub; [|lra].
  assert (Hbase : (start + (p + - start) * m <= Rmax start p)%R) by nra.
  assert (Hw1 : (Rtrigo_def.sin (x * PI * 2 + s) * p <= p)%R) by nra.
  assert (Hw2 : (Rtrigo_def.sin (x * PI * 4 + s * 2) * p <= p)%R) by nra.
  lra.
Qed.

Lemma seeded_values_within_band_witness :
  exists v : R,
    point_value (Scenario.chart_token "1" "T" 10 25) 24 5 = Fin v
    /\ (10 * (5 / 10) <= v <= Rmax (10 / (1 + 25 / 100)) 10 + 12 / 1000 * 10)%R.
Proof.
  apply (seeded_values_within_band (Scenario.chart_token "1" "T" 10 25) 10 25 1 24 5);
    [reflexivity | ordinary | reflexivity | ordinary | exact seed_of_id_1
    | ordinary | lia | lia | lia].
Defined.

End ChartFacts.

(** ** The buffer beyond its capacity *)

Section Capacity.
Import Num Chart.
Local Open Scope list_scope.

Lemma push_bounded_over {A} cap (data : list A) pt :
  (cap <= length data)%nat ->
  push_bounded cap data pt = tl (data ++ [pt])
  /\ length (push_bounded cap data pt) = length data.
Proof.
  intros H. unfold push_bounded. rewrite List.length_app. simpl length.
  replace (cap <? length data + 1)%nat with true
    by (symmetry; apply Nat.ltb_lt; lia).
  split; [reflexivity|].
  destruct data as [|d ds]; simpl; [reflexivity|].
  rewrite List.length_app. simpl. lia.
Qed.

Lemma append_all_over {A} cap (points : list A) :
  forall data,
    (cap <= length data)%nat ->
    append_all cap data points = skipn (length points) (data ++ points)
    /\ length (append_all cap data points) = length data.
Proof.
  induction points as [|pt r IH]; intros data H.
  - simpl. rewrite app_nil_r. split; reflexivity.
  - destruct (push_bounded_over cap data pt H) as [Hp Hl].
    change (append_all cap data (pt :: r))
      with (append_all cap (push_bounded cap data pt) r).
    destruct (IH (push_bounded cap data pt)) as [H1 H2]; [lia|].
    split; [|rewrite H2; exact Hl].
    rewrite H1, Hp.
    destruct data as [|d ds]; simpl; [reflexivity|].
    rewrite <- app_assoc. reflexivity.
Qed.

Lemma render_reseeds now p h :
  synced h ->
  id (token p) <> initializedTokenRef h ->
  is_nan (price (token p)) = false ->
  dataPointsRef (render now p h)
  = generateInitialData now (token p) (initialDataPoints p).
Proof.
  intros Hs Hne Hnan.
  assert (E : String.eqb (initializedTokenRef h) (id (token p)) = false).
  { apply String.eqb_neq. congruence. }
  destruct (render_stages now p h) as (_ & _ & -> & _).
  assert (Hc : init_deps_changed p h = true).
  { destruct (init_deps_changed p h) eqn:Ec; [reflexivity|].
    rewrite (unchanged_init_deps p h Hs Ec) in Hne. contradiction. }
  rewrite Hc. unfold init_effect. rewrite E.
  destruct (price_deps_changed p h); [|reflexivity].
  unfold price_effect. cbn [lastPriceRef]. rewrite (strict_eq_refl _ Hnan).
  reflexivity.
Qed.

Lemma render_same_id now p h :
  id (token p) = initializedTokenRef h ->
  dataPointsRef (render now p h) = dataPointsRef h
  \/ (strict_eq (lastPriceRef h) (price (token p)) = false
      /\ dataPointsRef (render now p h)
         = push_bounded (maxDataPoints p) (dataPointsRef h)
                        {| time := now; value := price (token p) |}).
Proof.
  intros Hid. destruct (render_stages now p h) as (_ & _ & -> & _).
  replace (if init_deps_changed p h then init_effect now p h else h) with h
    by (destruct (init_deps_changed p h);
        [symmetry; apply init_effect_seeded, Hid|reflexivity]).
  destruct (price_deps_changed p h); [|left; reflexivity].
  unfold price_effect.
  destruct (strict_eq (lastPriceRef h) (price (token p))) eqn:E;
    [left|right; split]; reflexivity.
Qed.

Lemma render_changed_price now p h :
  synced h ->
  id (token p) = initializedTokenRef h ->
  is_nan (price (token p)) = false ->
  strict_eq (lastPriceRef h) (price (token p)) = false ->
  dataPointsRef (render now p h)
  = push_bounded (maxDataPoints p) (dataPointsRef h)
                 {| time := now; value := price (token p) |}.
Proof.
  intros Hs Hid Hnan Hne.
  destruct (render_stages now p h) as (_ & _ & -> & _).
  replace (if init_deps_changed p h then init_effect now p h else h) with h
    by (destruct (init_deps_changed p h);
        [symmetry; apply init_effect_seeded, Hid|reflexivity]).
  destruct (price_deps_changed p h) eqn:Ec.
  - unfold price_effect. rewrite Hne. reflexivity.
  - rewrite (unchanged_price_deps p h Hs Ec), (strict_eq_refl _ Hnan) in Hne.
    discriminate.
Qed.

(** C4 fails on the code: the seed is stored without regard to the
    capacity (line 34) and an append removes one point only (lines 58-60
    and 69-71).  So a hook whose seed is longer than its capacity keeps
    that length through every sequence of appends, by [appendDataPoint]
    as by a change of price, each append dropping the oldest point; and a
    hook whose capacity is lowered below the length of its buffer keeps
    that length likewise. *)
Theorem buffer_exceeds_capacity :
  (forall (now : Z) (p : Props) (points : list ChartDataPoint),
      id (token p) <> EmptyString ->
      is_nan (price (token p)) = false ->
      (maxDataPoints p < initialDataPoints p)%nat ->
      let seeded := render now p (mount p) in
      let seed := generateInitialData now (token p) (initialDataPoints p) in
      dataPointsRef seeded = seed
      /\ dataPointsRef (run seeded (map Append points))
         = skipn (length points) (seed ++ points)
      /\ length (dataPointsRef (run seeded (map Append points))) = initialDataPoints p
      /\ (maxDataPoints p < length (dataPointsRef (run seeded (map Append points))))%nat
      /\ (forall (now' : Z) (p' : Props),
            id (token p') = id (token p) ->
            maxDataPoints p' = maxDataPoints p ->
            is_nan (price (token p')) = false ->
            strict_eq (price (token p)) (price (token p')) = false ->
            dataPointsRef (render now' p' seeded)
            = tl (seed ++ [{| time := now'; value := price (token p') |}])
            /\ length (dataPointsRef (render now' p' seeded)) = initialDataPoints p))
  /\ (forall (p0 : Props) (tr : list Event) (now : Z) (p : Props)
             (points : list ChartDataPoint),
         let h := run (mount p0) tr in
         id (token p) = initializedTokenRef h ->
         (maxDataPoints p < length (dataPointsRef h))%nat ->
         length (dataPointsRef (run (render now p h) (map Append points)))
         = length (dataPointsRef h)).
Proof.
  split.
  - intros now p points Hid Hnan Hlt seeded seed.
    assert (Hs : synced (mount p)) by apply mount_synced.
    assert (Hseed : dataPointsRef seeded = seed).
    { apply render_reseeds; [exact Hs|exact Hid|exact Hnan]. }
    assert (Hlen : length seed = initialDataPoints p)
      by apply generateInitialData_length.
    destruct (run_appends points seeded) as [Hrun _].
    change (callbackMax seeded) with (maxDataPoints p) in Hrun.
    rewrite Hseed in Hrun.
    destruct (append_all_over (maxDataPoints p) points seed) as [Ha Hl]; [lia|].
    rewrite Hrun.
    split; [exact Hseed|]. split; [exact Ha|].
    split; [rewrite Hl; exact Hlen|].
    split; [rewrite Hl; lia|].
    intros now' p' Hid' Hcap Hnan' Hprice.
    assert (E : dataPointsRef (render now' p' seeded)
                = push_bounded (maxDataPoints p') seed
                               {| time := now'; value := price (token p') |}).
    { rewrite <- Hseed. apply render_changed_price.
      - apply render_synced, Hs.
      - rewrite Hid'. symmetry. apply render_ref, Hs.
      - exact Hnan'.
      - unfold seeded. rewrite (render_price now p (mount p) Hs). exact Hprice. }
    destruct (push_bounded_over (maxDataPoints p') seed
                {| time := now'; value := price (token p') |}) as [Hp Hl'];
      [lia|].
    rewrite E, Hl', Hp. split; [reflexivity|exact Hlen].
  - intros p0 tr now p points h Hid Hlt.
    destruct (run_appends points (render now p h)) as [Hrun _].
    change (callbackMax (render now p h)) with (maxDataPoints p) in Hrun.
    rewrite Hrun.
    assert (Hr : length (dataPointsRef (render now p h)) = length (dataPointsRef h)).
    { destruct (render_same_id now p h Hid) as [-> | [_ ->]]; [reflexivity|].
      apply push_bounded_over. lia. }
    destruct (append_all_over (maxDataPoints p) points
                (dataPointsRef (render now p h))) as [_ Hl]; [lia|].
    rewrite Hl. exact Hr.
Qed.

Lemma buffer_exceeds_capacity_witness :
  length (dataPointsRef
            (run (render 1 Scenario.props_small (mount Scenario.props_small))
                 (map Append (map Scenario.point_D (seq 0 101)))))
  = 24%nat
  /\ maxDataPoints Scenario.props_small = 10%nat
  /\ length (dataPointsRef
               (run (render 2 Scenario.props_1H
                       (run (mount Scenario.props_7D) [Render 1 Scenario.props_7D]))
                    (map Append (map Scenario.point_D (seq 0 101)))))
     = 168%nat
  /\ maxDataPoints Scenario.props_1H = 60%nat.
Proof.
  destruct buffer_exceeds_capacity as [H1 H2].
  destruct (H1 1%Z Scenario.props_small (map Scenario.point_D (seq 0 101)))
    as (Hseed & _ & Hlen & _); [discriminate|reflexivity|simpl; lia|].
  split; [exact Hlen|]. split; [reflexivity|].
  split; [|reflexivity].
  assert (Hs : synced (mount Scenario.props_7D)) by apply mount_synced.
  assert (Hb : dataPointsRef (run (mount Scenario.props_7D) [Render 1 Scenario.props_7D])
               = generateInitialData 1 (token Scenario.props_7D) 168).
  { apply (render_reseeds 1 Scenario.props_7D (mount Scenario.props_7D) Hs);
      [discriminate|reflexivity]. }
  rewrite (H2 Scenario.props_7D [Render 1 Scenario.props_7D] 2%Z Scenario.props_1H
             (map Scenario.point_D (seq 0 101))).
  - rewrite Hb. apply generateInitialData_length.
  - symmetry. apply (render_ref 1 Scenario.props_7D), Hs.
  - rewrite Hb, generateInitialData_length. simpl. lia.
Defined.

End Capacity.

(** ** Timeouts are never cancelled *)

Section StaleTimeout.
Import Subscription Timeline.
Local Open Scope Z_scope.

Ltac compare_times :=
  repeat match goal with
         | |- context [(?x <=? ?y)%Z] =>
             first [ replace (x <=? y)%Z with true by (symmetry; apply Z.leb_le; lia)
                   | replace (x <=? y)%Z with false by (symmetry; apply Z.leb_gt; lia) ]
         | |- context [(?x <? ?y)%Z] =>
             first [ replace (x <? y)%Z with true by (symmetry; apply Z.ltb_lt; lia)
                   | replace (x <? y)%Z with false by (symmetry; apply Z.ltb_ge; lia) ]
         end.

(** X27: the timeout that an unmount schedules is not cancelled by the
    next mount.  When a hook unmounts at [b], one mounts again at [c] and
    unmounts at [d], both within the 100 ms of the first timeout, and the
    next mount comes at [e], after that timeout is due but less than
    100 ms after [d], then every stretch without a mounted hook is
    shorter than the grace period, and yet the first timeout tears the
    connection down in the second stretch: the three mounts and unmounts
    create two clients and disconnect two. *)
Theorem stale_timeout_reconnects :
  forall b c d e f : Z,
    0 < b -> b < c -> c < d -> d < b + grace -> b + grace < e -> e < d + grace ->
    e < f ->
    let tl := [(0, true); (b, false); (c, true); (d, false); (e, true); (f, false)] in
    short_gaps 0 None tl = true
    /\ connects (play tl) = 2%nat
    /\ disconnects (play tl) = 2%nat
    /\ count_effect (ConnectionBind "connected") (play tl) = 2%nat
    /\ pusherInstance (play tl) = false.
Proof.
  intros b c d e f H0 H1 H2 H3 H4 H5 H6 tl. subst tl.
  unfold grace in *. split.
  - simpl. unfold grace. compare_times. reflexivity.
  - unfold play. simpl fold_left.
    repeat (progress (unfold happen; simpl; unfold grace; compare_times)).
    destruct (d + 100 <=? f); simpl; repeat split; reflexivity.
Qed.

Lemma stale_timeout_reconnects_witness :
  short_gaps 0 None
    [(0, true); (10, false); (50, true); (105, false); (120, true); (130, false)]
  = true
  /\ connects
       (play [(0, true); (10, false); (50, true); (105, false); (120, true);
              (130, false)])
     = 2%nat.
Proof.
  destruct (stale_timeout_reconnects 10 50 105 120 130) as (H1 & H2 & _);
    unfold grace; try lia.
  split; assumption.
Defined.

End StaleTimeout.
